(** * cordova-plugin-file, Electron back end (src/electron/File.js)

    A shallow embedding of the exported operations of [File.js] over a model
    of the Node.js [fs] module, and the properties of the operations that the
    specification states.

    Conventions of the embedding.
    - A JavaScript value is a [jsval]; numbers are the integers (byte offsets
      and sizes are what this API carries) together with NaN.
    - The native file system is a finite map from path components to nodes,
      with a table of open handles.  Every native call can fail with an
      injected error code, so that permission denials and I/O errors are
      covered.
    - An operation is a state transformer on the [World]; the world records a
      chronological [log] of native calls and of promise settlements, in the
      order in which the JavaScript event loop performs them for one call.
    - Embedded are getArgs, getFile, getFileMetadata, getMetadata, write, the
      four readAs functions with their helper, remove, removeRecursively,
      getDirectory, copyTo, moveTo, resolveLocalFileSystemURI and
      requestAllPaths. *)

From Stdlib Require Import ZArith String Ascii List Lia DecimalString.
From stdpp Require Import base option list strings gmap.

Set Warnings "-register-all".
Local Open Scope string_scope.
Local Open Scope list_scope.
Local Open Scope Z_scope.

(** ** JavaScript values *)

Inductive jsval : Type :=
| JUndef
| JNull
| JBool (b : bool)
| JNum (z : Z)
| JNaN
| JStr (s : string)
| JBytes (l : list Byte.byte)        (* an ArrayBuffer *)
| JArr (l : list jsval)
| JObj (l : list (string * jsval)).

(** Platform services that the source calls and that are not part of it:
    ECMAScript built-ins, Node's Buffer codecs and the Electron paths. *)
Class Platform : Type := {
  (* decodeURI; None when it throws URIError *)
  decodeURI : string -> option string;
  (* StringToNumber of ECMAScript, to a JNum or JNaN *)
  StringToNumber : string -> jsval;
  (* buf.toString(encoding); None when it throws (unknown encoding) *)
  Buffer_toString : list Byte.byte -> jsval -> option string;
  (* Buffer.from(string): the UTF-8 bytes of a string *)
  utf8_bytes : string -> list Byte.byte;
  (* Buffer.from(object) for a plain object; None when it throws *)
  Buffer_from_object : list (string * jsval) -> option (list Byte.byte);
  (* whether the kernel honours the position of a write on a handle opened
     in append mode (it does not on Linux) *)
  positional_append : bool;
  (* buffer.constants.MAX_LENGTH, the largest size Buffer.alloc accepts *)
  kMaxLength : Z;
  (* nodePath.dirname(app.getAppPath()), app.getPath('userData'), ... *)
  appParentPath : string;
  userDataPath : string;
  cachePath : string;
  tempPath : string;
  documentsPath : string
}.

Module JS.

(** ToBoolean. *)
Definition truthy (v : jsval) : bool :=
  match v with
  | JUndef | JNull | JNaN => false
  | JBool b => b
  | JNum z => negb (z =? 0)
  | JStr s => negb (String.eqb s "")
  | JBytes _ | JArr _ | JObj _ => true
  end.

(** [a || b]. *)
Definition or (a b : jsval) : jsval := if truthy a then a else b.

(** [v === true]. *)
Definition is_true (v : jsval) : bool :=
  match v with JBool true => true | _ => false end.

(** [o.k]: own property of a plain object, [undefined] elsewhere (the keys
    read by the source, create and exclusive, exist on no other value). *)
Fixpoint assoc (k : string) (l : list (string * jsval)) : jsval :=
  match l with
  | [] => JUndef
  | (k', v) :: r => if String.eqb k k' then v else assoc k r
  end.

Definition prop (o : jsval) (k : string) : jsval :=
  match o with
  | JObj l => assoc k l
  | _ => JUndef
  end.

(** [args[i]] on an array. *)
Definition arg (i : nat) (args : list jsval) : jsval := nth i args JUndef.

Definition num_to_string (z : Z) : string :=
  NilZero.string_of_int (Z.to_int z).

(** ToString. *)
Fixpoint to_string (v : jsval) : string :=
  match v with
  | JUndef => "undefined"
  | JNull => "null"
  | JBool true => "true"
  | JBool false => "false"
  | JNum z => num_to_string z
  | JNaN => "NaN"
  | JStr s => s
  | JBytes _ => "[object ArrayBuffer]"
  | JArr l =>
      (fix join (l : list jsval) : string :=
         match l with
         | [] => ""
         | x :: r =>
             let sx := match x with
                       | JUndef | JNull => ""
                       | _ => to_string x
                       end in
             match r with
             | [] => sx
             | _ => sx +:+ "," +:+ join r
             end
         end) l
  | JObj _ => "[object Object]"
  end.

Section WithPlatform.
Context {pf : Platform}.

(** ToNumber, to a JNum or JNaN. *)
Definition to_number (v : jsval) : jsval :=
  match v with
  | JUndef | JNaN => JNaN
  | JNull => JNum 0
  | JBool b => JNum (if b then 1 else 0)
  | JNum z => JNum z
  | JStr s => StringToNumber s
  | JBytes _ | JArr _ | JObj _ => StringToNumber (to_string v)
  end.

(** [a - b]. *)
Definition sub (a b : jsval) : jsval :=
  match to_number a, to_number b with
  | JNum x, JNum y => JNum (x - y)
  | _, _ => JNaN
  end.

(** [a + b]: concatenation as soon as one operand is a string or an
    object, numeric addition otherwise. *)
Definition is_primitive_nonstring (v : jsval) : bool :=
  match v with
  | JUndef | JNull | JBool _ | JNum _ | JNaN => true
  | _ => false
  end.

Definition add (a b : jsval) : jsval :=
  if is_primitive_nonstring a && is_primitive_nonstring b then
    match to_number a, to_number b with
    | JNum x, JNum y => JNum (x + y)
    | _, _ => JNaN
    end
  else JStr (to_string a +:+ to_string b).

End WithPlatform.

(** String.prototype.indexOf(needle), [None] for -1. *)
Definition indexOf (needle s : string) : option nat := String.index 0 needle s.

(** RegExp.prototype.test for a pattern that is a literal string. *)
Definition contains (needle s : string) : bool :=
  match indexOf needle s with Some _ => true | None => false end.

(** String.prototype.substr(start): the string from index start on. *)
Fixpoint substr_from (n : nat) (s : string) : string :=
  match n, s with
  | O, _ => s
  | S n', String _ r => substr_from n' r
  | S _, EmptyString => EmptyString
  end.

(** String.prototype.substr(0, len). *)
Definition substr_to (len : nat) (s : string) : string := String.substring 0 len s.

(** White space removed by trim (the characters below U+0080). *)
Definition is_space (c : ascii) : bool :=
  let n := nat_of_ascii c in
  ((9 <=? n) && (n <=? 13))%nat || (n =? 32)%nat.

Fixpoint trim_start (s : string) : string :=
  match s with
  | String c r => if is_space c then trim_start r else s
  | EmptyString => EmptyString
  end.

Fixpoint trim_end (s : string) : string :=
  match s with
  | EmptyString => EmptyString
  | String c r =>
      match trim_end r with
      | EmptyString => if is_space c then EmptyString else String c EmptyString
      | r' => String c r'
      end
  end.

Definition trim (s : string) : string := trim_end (trim_start s).

End JS.

(** ** Errors, results and outcomes *)

(** Modelled from the spec: the error constants of [Types.js] ([FileError]),
    which is not among the sources; these are the twelve tags of section 6
    of the specification. *)
Module FileError.
Inductive t : Type :=
| NOT_FOUND_ERR
| SECURITY_ERR
| ABORT_ERR
| NOT_READABLE_ERR
| ENCODING_ERR
| NO_MODIFICATION_ALLOWED_ERR
| INVALID_STATE_ERR
| SYNTAX_ERR
| INVALID_MODIFICATION_ERR
| QUOTA_EXCEEDED_ERR
| TYPE_MISMATCH_ERR
| PATH_EXISTS_ERR.
End FileError.

(** Error codes of the native layer ([err.code] of a Node.js system error). *)
Inductive Errno : Type :=
| ENOENT | EACCES | EPERM | EEXIST | ENOTEMPTY | EISDIR | ENOTDIR
| EBADF | EINVAL | EIO | ENOSPC | EBUSY.

(** What a promise is rejected with, or what is thrown. *)
Inductive Reason : Type :=
| FileErr (e : FileError.t)     (* one of the fixed tags *)
| NativeErr (e : Errno)         (* the raw error object of a native call *)
| TypeErr                       (* a TypeError raised by argument validation *)
| URIErr.                       (* the URIError of decodeURI *)

(** Modelled from the spec: the value records of [Types.js] ([FileEntry],
    [DirectoryEntry], [JSFile]), which is not among the sources; plain data
    records built from the arguments of their constructors (section 3). *)
Inductive Value : Type :=
| VUndefined
| FileEntry (name fullPath : string)
| DirectoryEntry (name fullPath : string)
| JSFile (name fullPath type : string) (lastModified size : Z)
| VMetadata (modificationTime size : Z)
| VNumber (z : Z)
| VWritten (bytesWritten : Z) (buffer : list Byte.byte)
    (* the object {bytesWritten, buffer} that promisify(fs.write) yields *)
| VString (s : string)
| VBuffer (l : list Byte.byte)
| VPaths (table : list (string * string)).

(** What the caller of an exported function gets. *)
Inductive Outcome : Type :=
| Resolved (v : Value)          (* a promise, fulfilled with v *)
| Rejected (r : Reason)         (* a promise, rejected with r *)
| Pending                       (* a promise that is never settled *)
| ReturnedUndefined             (* no promise: the function returned undefined *)
| Threw (r : Reason).           (* no promise: the function threw *)

(** ** The native file system *)

Inductive Node : Type :=
| NFile (mtime : Z) (content : list Byte.byte)
| NDir (mtime : Z).

Inductive OpenFlag : Type := FlagR | FlagW | FlagA.

Record Handle : Type := { h_key : list string; h_flag : OpenFlag }.

Inductive Syscall : Type :=
| SysStat (path : string)
| SysOpen (path : string) (flag : OpenFlag)
| SysClose (fd : nat)
| SysRead (fd : nat) (length : nat) (position : jsval)
| SysWrite (fd : nat) (buf : list Byte.byte) (position : jsval)
| SysRmdir (path : string) (recursive : bool)
| SysUnlink (path : string)
| SysMkdir (path : string)
| SysCopyFile (src dst : string).

Inductive Event : Type :=
| EvCall (c : Syscall) (err : option Errno)   (* a native call and its error *)
| EvSettle (o : Outcome)                      (* a promise of an operation is settled *)
| EvDropped (r : Reason)                      (* a rejected promise nobody holds *)
| EvUncaught (r : Reason).                    (* an exception thrown in a callback *)

Record World : Type := {
  files : gmap (list string) Node;
  handles : gmap nat Handle;
  next_fd : nat;
  clock : nat;                                  (* native calls made so far *)
  inject : nat -> Syscall -> option Errno;      (* failures of the environment *)
  log : list Event
}.

Inductive res (T : Type) : Type :=
| Ok (t : T)
| Err (e : Errno).
Arguments Ok {T} t.
Arguments Err {T} e.

Definition res_err {T} (r : res T) : option Errno :=
  match r with Ok _ => None | Err e => Some e end.

Record Stats : Type := {
  st_isFile : bool;
  st_isDirectory : bool;
  st_mtime : Z;
  st_size : Z
}.

Definition stats_of (n : Node) : Stats :=
  match n with
  | NFile t c => {| st_isFile := true; st_isDirectory := false;
                    st_mtime := t; st_size := Z.of_nat (length c) |}
  | NDir t => {| st_isFile := false; st_isDirectory := true;
                 st_mtime := t; st_size := 0 |}
  end.

(** *** Paths (POSIX) *)

Definition sep : string := "/".

Fixpoint segments (cur : string) (s : string) : list string :=
  match s with
  | EmptyString => [cur]
  | String c r =>
      if Ascii.eqb c "/"%char then cur :: segments "" r
      else segments (cur +:+ String c EmptyString) r
  end.

(** The components a path resolves to: empty and "." segments are skipped,
    ".." steps back. *)
Definition path_key (p : string) : list string :=
  fold_left (fun acc seg =>
               if String.eqb seg "" || String.eqb seg "." then acc
               else if String.eqb seg ".." then removelast acc
               else acc ++ [seg])
            (segments "" p) [].

(** nodePath.basename: the last segment that is not empty. *)
Definition basename (p : string) : string :=
  List.last (List.filter (fun seg => negb (String.eqb seg "")) (segments "" p)) "".

Fixpoint is_prefix (k k' : list string) : bool :=
  match k, k' with
  | [], _ => true
  | a :: r, b :: r' => String.eqb a b && is_prefix r r'
  | _ :: _, [] => false
  end.

Definition has_children (fs : gmap (list string) Node) (k : list string) : bool :=
  existsb (fun kv => is_prefix k kv.1 && negb (length kv.1 =? length k)%nat)
          (map_to_list fs).

(** A file stands on the way to the key, at one of its proper prefixes: the
    walk of the path cannot pass it. *)
Definition file_above (fs : gmap (list string) Node) (k : list string) : bool :=
  existsb (fun i => match fs !! firstn i k with
                    | Some (NFile _ _) => true
                    | _ => false
                    end)
          (seq 1 (length k - 1)).

(** The node a key denotes; the root always is a directory.  A key that
    denotes nothing answers ENOTDIR when a file stands on the way to it, at
    the parent or higher, and ENOENT otherwise. *)
Definition node_at (fs : gmap (list string) Node) (k : list string) : res Node :=
  match k with
  | [] => Ok (NDir 0)
  | _ =>
      match fs !! k with
      | Some n => Ok n
      | None => if file_above fs k then Err ENOTDIR else Err ENOENT
      end
  end.

(** Whether an entry may be created at a key: its parent is a directory. *)
Definition parent_ok (fs : gmap (list string) Node) (k : list string) : res unit :=
  match node_at fs (removelast k) with
  | Ok (NDir _) => Ok tt
  | Ok (NFile _ _) => Err ENOTDIR
  | Err e => Err e
  end.

(** *** The monad of operations: a state transformer on the world *)

Definition M (A : Type) : Type := World -> A * World.

Definition ret {A} (a : A) : M A := fun w => (a, w).

Definition bind {A B} (m : M A) (k : A -> M B) : M B :=
  fun w => let '(a, w') := m w in k a w'.

Notation "x <- m ;; k" := (bind m (fun x => k))
  (at level 100, m at next level, right associativity).
Notation "m ;;; k" := (bind m (fun _ => k))
  (at level 100, right associativity).

Definition set_files (fs : gmap (list string) Node) (w : World) : World :=
  {| files := fs; handles := handles w; next_fd := next_fd w;
     clock := clock w; inject := inject w; log := log w |}.

Definition set_handles (hs : gmap nat Handle) (nfd : nat) (w : World) : World :=
  {| files := files w; handles := hs; next_fd := nfd;
     clock := clock w; inject := inject w; log := log w |}.

Definition record (e : Event) (w : World) : World :=
  {| files := files w; handles := handles w; next_fd := next_fd w;
     clock := clock w; inject := inject w; log := log w ++ [e] |}.

Definition tick (w : World) : World :=
  {| files := files w; handles := handles w; next_fd := next_fd w;
     clock := S (clock w); inject := inject w; log := log w |}.

Definition emit (e : Event) : M unit := fun w => (tt, record e w).

(** A native call: the environment may make it fail, in which case it has no
    effect; otherwise its body runs.  Either way the call is logged. *)
Definition native {T} (c : Syscall) (run : World -> res T * World) : M (res T) :=
  fun w =>
    match inject w (clock w) c with
    | Some e => (Err e, tick (record (EvCall c (Some e)) w))
    | None =>
        let '(r, w') := run w in
        (r, tick (record (EvCall c (res_err r)) w'))
    end.

(** The time stamp given to a node that is created or rewritten. *)
Definition now (w : World) : Z := Z.of_nat (clock w).

Definition native_stat (p : string) : M (res Stats) :=
  native (SysStat p) (fun w =>
    match node_at (files w) (path_key p) with
    | Ok n => (Ok (stats_of n), w)
    | Err e => (Err e, w)
    end).

Definition alloc_handle (k : list string) (flag : OpenFlag) (w : World) : res nat * World :=
  (Ok (next_fd w),
   set_handles (<[next_fd w := {| h_key := k; h_flag := flag |}]> (handles w))
               (S (next_fd w)) w).

Definition create_file (k : list string) (flag : OpenFlag) (w : World) : res nat * World :=
  match parent_ok (files w) k with
  | Ok _ => alloc_handle k flag (set_files (<[k := NFile (now w) []]> (files w)) w)
  | Err e => (Err e, w)
  end.

(** fs.open(path, flag): 'r' opens what exists; 'w' creates or truncates a
    file; 'a' creates a file or opens it for appending. *)
Definition native_open (p : string) (flag : OpenFlag) : M (res nat) :=
  native (SysOpen p flag) (fun w =>
    let k := path_key p in
    match flag with
    | FlagR =>
        match node_at (files w) k with
        | Ok _ => alloc_handle k flag w
        | Err e => (Err e, w)
        end
    | FlagW =>
        match node_at (files w) k with
        | Ok (NFile _ _) =>
            alloc_handle k flag (set_files (<[k := NFile (now w) []]> (files w)) w)
        | Ok (NDir _) => (Err EISDIR, w)
        | Err ENOENT => create_file k flag w
        | Err e => (Err e, w)
        end
    | FlagA =>
        match node_at (files w) k with
        | Ok (NFile _ _) => alloc_handle k flag w
        | Ok (NDir _) => (Err EISDIR, w)
        | Err ENOENT => create_file k flag w
        | Err e => (Err e, w)
        end
    end).

Definition native_close (fd : nat) : M (res unit) :=
  native (SysClose fd) (fun w =>
    match handles w !! fd with
    | Some _ => (Ok tt, set_handles (delete fd (handles w)) (next_fd w) w)
    | None => (Err EBADF, w)
    end).

(** The offset a position argument selects: a non-negative integer is an
    absolute offset; for a negative one and for everything that is not an
    integer the call is made at the current position of the handle ([cur]). *)
Definition offset_of (position : jsval) (cur : nat) : nat :=
  match position with
  | JNum z => if 0 <=? z then Z.to_nat z else cur
  | _ => cur
  end.

Definition zeros (n : nat) : list Byte.byte := repeat Byte.x00 n.

(** The buffer of [len] zero bytes after a positioned read into it. *)
Definition read_into (len off : nat) (content : list Byte.byte) : list Byte.byte :=
  let got := firstn len (skipn off content) in
  got ++ zeros (len - length got).

(** fs.read(fd, buf, 0, len, position) on a handle that has not been read
    yet; yields the buffer contents. *)
Definition native_read (fd : nat) (len : nat) (position : jsval) : M (res (list Byte.byte)) :=
  native (SysRead fd len position) (fun w =>
    match handles w !! fd with
    | Some {| h_key := k; h_flag := FlagR |} =>
        match node_at (files w) k with
        | Ok (NFile _ c) =>
            (Ok (read_into len (offset_of position 0) c), w)
        | Ok (NDir _) => (Err EISDIR, w)
        | Err _ => (Err EIO, w)
        end
    | _ => (Err EBADF, w)
    end).

(** The content of a file after [buf] is written at offset [off]. *)
Definition write_at (off : nat) (buf content : list Byte.byte) : list Byte.byte :=
  firstn off (content ++ zeros (off - length content))
    ++ buf ++ skipn (off + length buf) content.

(** fs.write(fd, buf, 0, buf.length, position); yields the number of bytes
    written (the bytesWritten of what the promisified call fulfils with). *)
Definition native_write {pf : Platform} (fd : nat) (buf : list Byte.byte) (position : jsval)
  : M (res nat) :=
  native (SysWrite fd buf position) (fun w =>
    match handles w !! fd with
    | Some {| h_key := k; h_flag := FlagR |} => (Err EBADF, w)
    | Some {| h_key := k; h_flag := flag |} =>
        match node_at (files w) k with
        | Ok (NFile _ c) =>
            let cur := match flag with FlagA => length c | _ => O end in
            let off := match flag with
                       | FlagA => if positional_append then offset_of position cur
                                  else length c
                       | _ => offset_of position cur
                       end in
            (Ok (length buf),
             set_files (<[k := NFile (now w) (write_at off buf c)]> (files w)) w)
        | Ok (NDir _) => (Err EISDIR, w)
        | Err _ => (Err EIO, w)
        end
    | None => (Err EBADF, w)
    end).

(** rmdir(2), or, with [recursive], the removal of a directory with all that
    it contains (a path that is missing is then tolerated). *)
Definition native_rmdir (p : string) (recursive : bool) : M (res unit) :=
  native (SysRmdir p recursive) (fun w =>
    let k := path_key p in
    match k, node_at (files w) k with
    | [], _ => (Err EBUSY, w)
    | _, Ok (NDir _) =>
        if recursive then
          (Ok tt, set_files (filter (fun kv => is_prefix k kv.1 = false) (files w)) w)
        else if has_children (files w) k then (Err ENOTEMPTY, w)
        else (Ok tt, set_files (delete k (files w)) w)
    | _, Ok (NFile _ _) => (Err ENOTDIR, w)
    | _, Err ENOENT => if recursive then (Ok tt, w) else (Err ENOENT, w)
    | _, Err e => (Err e, w)
    end).

Definition native_unlink (p : string) : M (res unit) :=
  native (SysUnlink p) (fun w =>
    let k := path_key p in
    match k, node_at (files w) k with
    | [], _ => (Err EISDIR, w)
    | _, Ok (NFile _ _) => (Ok tt, set_files (delete k (files w)) w)
    | _, Ok (NDir _) => (Err EISDIR, w)
    | _, Err e => (Err e, w)
    end).

Definition native_mkdir (p : string) : M (res unit) :=
  native (SysMkdir p) (fun w =>
    let k := path_key p in
    match node_at (files w) k with
    | Ok _ => (Err EEXIST, w)
    | Err ENOENT =>
        match parent_ok (files w) k with
        | Ok _ => (Ok tt, set_files (<[k := NDir (now w)]> (files w)) w)
        | Err e => (Err e, w)
        end
    | Err e => (Err e, w)
    end).

(** fs.copyFile(src, dst) when the environment does not fail it.  The
    source is opened for reading, which a directory allows; then the
    destination is opened for writing, and created when it is missing.  A
    source and a destination that are one file are left alone.  Otherwise
    the destination is cut to nothing and the content of the source copied
    into it; a directory has no content to read, the copy fails, and a copy
    that fails once the destination is open removes the destination. *)
Definition copy_body (src dst : string) (w : World) : res unit * World :=
  let ks := path_key src in
  let kd := path_key dst in
  match node_at (files w) ks with
  | Err e => (Err e, w)
  | Ok source =>
      match node_at (files w) kd with
      | Ok (NDir _) => (Err EISDIR, w)
      | Ok (NFile _ _) =>
          match source with
          | NFile _ c =>
              if bool_decide (ks = kd) then (Ok tt, w)
              else (Ok tt, set_files (<[kd := NFile (now w) c]> (files w)) w)
          | NDir _ => (Err EISDIR, set_files (delete kd (files w)) w)
          end
      | Err ENOENT =>
          match parent_ok (files w) kd with
          | Ok _ =>
              match source with
              | NFile _ c =>
                  (Ok tt, set_files (<[kd := NFile (now w) c]> (files w)) w)
              | NDir _ => (Err EISDIR, w)      (* created, then removed *)
              end
          | Err e => (Err e, w)
          end
      | Err e => (Err e, w)
      end
  end.

(** The failures of the environment that strike while the data are copied,
    when source and destination are open; the others strike at an open. *)
Definition strikes_while_copying (e : Errno) : bool :=
  match e with
  | ENOSPC | EIO => true
  | _ => false
  end.

(** The files after a copy that was given up while the data were copied: the
    destination, which was open, is removed.  (A destination that the copy
    had created is removed as well, which leaves the files as they were.) *)
Definition given_up (ks kd : list string) (fs : gmap (list string) Node)
  : gmap (list string) Node :=
  match node_at fs ks, node_at fs kd with
  | Ok _, Ok (NFile _ _) => if bool_decide (ks = kd) then fs else delete kd fs
  | _, _ => fs
  end.

(** fs.copyFile(src, dst).  Unlike the other native calls, it is not without
    effect when the environment fails it in its course. *)
Definition native_copyFile (src dst : string) : M (res unit) :=
  fun w =>
    let c := SysCopyFile src dst in
    match inject w (clock w) c with
    | Some e =>
        let fs := if strikes_while_copying e
                  then given_up (path_key src) (path_key dst) (files w)
                  else files w in
        (Err e, tick (record (EvCall c (Some e)) (set_files fs w)))
    | None =>
        let '(r, w') := copy_body src dst w in
        (r, tick (record (EvCall c (res_err r)) w'))
    end.

#[global] Instance Errno_eq_dec : EqDecision Errno.
Proof. solve_decision. Defined.

(** ** The JavaScript face of the fs module *)

(** A path argument of an fs function must be a string without NUL;
    anything else makes the function throw a TypeError. *)
Definition as_path (v : jsval) : option string :=
  match v with
  | JStr s => if JS.contains (String Ascii.zero EmptyString) s then None else Some s
  | _ => None
  end.

(** A positional argument of an fs call after the path. *)
Inductive FsArg : Type :=
| ArgCallback
| ArgValue (v : jsval).

(** fs.rmdir(path[, options], callback): when the argument after the path is
    a function, it is the callback and there are no options; what follows the
    callback is not looked at. *)
Definition fs_rmdir (p : string) (rest : list FsArg) : M (res unit) :=
  let options := match rest with
                 | ArgValue o :: _ => o
                 | _ => JUndef
                 end in
  native_rmdir p (JS.truthy (JS.prop options "recursive")).

(** fs.unlink(path, callback): what follows the callback is not looked at. *)
Definition fs_unlink (p : string) (rest : list FsArg) : M (res unit) :=
  native_unlink p.

(** fs.read(fd, buf, 0, len, position): a read of length 0 calls back at
    once, without a native call. *)
Definition fs_read (fd : nat) (len : nat) (position : jsval) : M (res (list Byte.byte)) :=
  if (len =? 0)%nat then ret (Ok []) else native_read fd len position.

Definition byte_of_Z (z : Z) : Byte.byte :=
  match Byte.of_N (Z.to_N (z mod 256)) with
  | Some b => b
  | None => Byte.x00
  end.

Section Operations.
Context {pf : Platform}.

(** Buffer.alloc(size); None when it throws (size not a number, negative,
    or above the largest buffer). *)
Definition Buffer_alloc (size : jsval) : option nat :=
  match size with
  | JNum z => if (0 <=? z) && (z <=? kMaxLength) then Some (Z.to_nat z) else None
  | _ => None
  end.

(** Buffer.from(data); None when it throws a TypeError. *)
Definition Buffer_from (data : jsval) : option (list Byte.byte) :=
  match data with
  | JStr s => Some (utf8_bytes s)
  | JBytes l => Some l
  | JArr l => Some (map (fun v => match JS.to_number v with
                                  | JNum z => byte_of_Z z
                                  | _ => Byte.x00
                                  end) l)
  | JObj o => Buffer_from_object o
  | _ => None
  end.

(** *** Promise plumbing *)

(** The promise of the operation is settled. *)
Definition settle (o : Outcome) : M Outcome := emit (EvSettle o) ;;; ret o.

Definition resolve (v : Value) : M Outcome := settle (Resolved v).

Definition reject (e : FileError.t) : M Outcome := settle (Rejected (FileErr e)).

(** The executor of [new Promise] starts with an fs call on [path]: when the
    call throws on its argument, the promise is rejected with the TypeError. *)
Definition with_path (path : jsval) (k : string -> M Outcome) : M Outcome :=
  match as_path path with
  | Some p => k p
  | None => settle (Rejected TypeErr)
  end.

(** [p.then(resolve).catch(reject)] inside a callback, for the result [o] of
    the call that should have made the promise p. *)
Definition forward (o : Outcome) : M Outcome :=
  match o with
  | Resolved _ | Rejected _ => settle o
  | Pending => ret Pending
  | ReturnedUndefined => emit (EvUncaught TypeErr) ;;; ret Pending
  | Threw r => emit (EvUncaught r) ;;; ret Pending
  end.

(** [p.then(k)] at the top of a function body. *)
Definition and_then (o : Outcome) (k : Value -> M Outcome) : M Outcome :=
  match o with
  | Resolved v => k v
  | Rejected r => ret (Rejected r)
  | Pending => ret Pending
  | ReturnedUndefined => ret (Threw TypeErr)
  | Threw r => ret (Threw r)
  end.

(** What the promise made by [then] becomes when its callback ends as [o]. *)
Definition caught (o : Outcome) : Outcome :=
  match o with
  | Threw r => Rejected r
  | ReturnedUndefined => Resolved VUndefined
  | _ => o
  end.

(** The promise at the end of a chain reaches the caller. *)
Definition deliver (o : Outcome) : M Outcome :=
  match o with
  | Resolved _ | Rejected _ => settle o
  | _ => ret o
  end.

(** *** Exported functionality *)

Definition getArgs (args : list jsval) : list jsval :=
  match args with
  | [JArr inner] => inner
  | _ => args
  end.

Definition createFile (path baseName : string) : M Outcome :=
  r <- native_open path FlagW ;;
  match r with
  | Err _ => reject FileError.INVALID_STATE_ERR
  | Ok fd =>
      r <- native_close fd ;;
      match r with
      | Err _ => reject FileError.INVALID_STATE_ERR
      | Ok _ => resolve (FileEntry baseName path)
      end
  end.

(** [stats.isFile()] and [stats.isDirectory()] on the result of a probe;
    the source reads them only when the probe succeeded. *)
Definition isFile (r : res Stats) : bool :=
  match r with Ok stats => st_isFile stats | Err _ => false end.

Definition isDirectory (r : res Stats) : bool :=
  match r with Ok stats => st_isDirectory stats | Err _ => false end.

(** [err && err.code !== 'ENOENT']. *)
Definition err_not_ENOENT {T} (r : res T) : bool :=
  match r with
  | Err e => negb (bool_decide (e = ENOENT))
  | Ok _ => false
  end.

(** [!err]. *)
Definition no_err {T} (r : res T) : bool :=
  match r with Ok _ => true | Err _ => false end.

Definition getFile (args : list jsval) : M Outcome :=
  let args := getArgs args in
  let path := JS.add (JS.arg 0 args) (JS.arg 1 args) in
  let options := JS.or (JS.arg 2 args) (JObj []) in
  with_path path (fun path =>
    r <- native_stat path ;;
    if err_not_ENOENT r then reject FileError.INVALID_STATE_ERR
    else
      let exists_ := no_err r in
      let baseName := basename path in
      let create := JS.prop options "create" in
      let exclusive := JS.prop options "exclusive" in
      if JS.is_true create && JS.is_true exclusive && exists_ then
        reject FileError.PATH_EXISTS_ERR
      else if JS.is_true create && negb exists_ then
        createFile path baseName
      else if JS.is_true create && exists_ then
        if isFile r then createFile path baseName
        else reject FileError.INVALID_MODIFICATION_ERR
      else if negb (JS.truthy create) && negb exists_ then
        reject FileError.NOT_FOUND_ERR
      else if negb (JS.truthy create) && exists_ && isDirectory r then
        reject FileError.TYPE_MISMATCH_ERR
      else
        resolve (FileEntry baseName path)).

Definition getFileMetadata (args : list jsval) : M Outcome :=
  let args := getArgs args in
  let fullPath := JS.arg 0 args in
  with_path fullPath (fun fullPath =>
    r <- native_stat fullPath ;;
    match r with
    | Err _ => reject FileError.NOT_FOUND_ERR
    | Ok stats =>
        let baseName := basename fullPath in
        resolve (JSFile baseName fullPath "" (st_mtime stats) (st_size stats))
    end).

Definition getMetadata (args : list jsval) : M Outcome :=
  with_path (JS.arg 0 args) (fun path =>
    r <- native_stat path ;;
    match r with
    | Err _ => reject FileError.NOT_FOUND_ERR
    | Ok stats => resolve (VMetadata (st_mtime stats) (st_size stats))
    end).

Definition write (args : list jsval) : M Outcome :=
  let args := getArgs args in
  let fileName := JS.arg 0 args in
  let data := JS.arg 1 args in
  let position := JS.arg 2 args in
  if negb (JS.truthy data) then reject FileError.INVALID_MODIFICATION_ERR
  else
    match Buffer_from data with
    | None => ret (Threw TypeErr)
    | Some buf =>
        match as_path fileName with
        | None => deliver (Rejected TypeErr)
        | Some fileName =>
            (* The chain has no catch: a rejection of open, of write or of
               close is the rejection of the promise that write returns.  The
               last then runs once the promise of finally is settled, that
               is, when the close has come back. *)
            r <- native_open fileName FlagA ;;
            match r with
            | Err e => deliver (Rejected (NativeErr e))
            | Ok fd =>
                rw <- native_write fd buf position ;;
                rc <- native_close fd ;;          (* finally *)
                match rc, rw with
                | Err e, _ => deliver (Rejected (NativeErr e))
                | Ok _, Err e => deliver (Rejected (NativeErr e))
                (* bw is what promisify(fs.write) fulfils with: the object
                   {bytesWritten, buffer}, and with it the operation resolves *)
                | Ok _, Ok bw => deliver (Resolved (VWritten (Z.of_nat bw) buf))
                end
            end
        end
    end.

Inductive What : Type := text | dataURL | arrayBuffer | binaryString.

(** The [switch (what)] of readAs; None when a conversion throws. *)
Definition represent (what : What) (buf : list Byte.byte) (encoding : jsval)
  : option Value :=
  match what with
  | text => VString <$> Buffer_toString buf encoding
  | dataURL =>
      (fun s => VString ("data:;base64," +:+ s)) <$> Buffer_toString buf (JStr "base64")
  | arrayBuffer => Some (VBuffer buf)
  | binaryString => VString <$> Buffer_toString buf (JStr "binary")
  end.

Definition readAs (what : What) (fullPath encoding startPos endPos : jsval) : M Outcome :=
  with_path fullPath (fun fullPath =>
    r <- native_open fullPath FlagR ;;
    match r with
    | Err _ => reject FileError.NOT_FOUND_ERR
    | Ok fd =>
        match Buffer_alloc (JS.sub endPos startPos) with
        | None =>
            (* thrown inside the callback of fs.open: nothing catches it *)
            emit (EvUncaught TypeErr) ;;; ret Pending
        | Some len =>
            (* read().then(resolve ...).catch(reject ...).then(close): the
               promise of readAs is settled in the first or in the second
               handler; the handler that closes runs after them, and a
               failure of the close reaches nobody. *)
            rr <- fs_read fd len startPos ;;
            o <- match rr with
                 | Ok buf =>
                     match represent what buf encoding with
                     | Some v => resolve v
                     | None => reject FileError.NOT_READABLE_ERR
                     end
                 | Err _ => reject FileError.NOT_READABLE_ERR
                 end ;;
            native_close fd ;;;
            ret o
        end
    end).

Definition readAsText (args : list jsval) : M Outcome :=
  let args := getArgs args in
  let fileName := JS.arg 0 args in
  let enc := JS.arg 1 args in
  let startPos := JS.arg 2 args in
  let endPos := JS.arg 3 args in
  readAs text fileName enc startPos endPos.

Definition readAsDataURL (args : list jsval) : M Outcome :=
  let args := getArgs args in
  let fileName := JS.arg 0 args in
  let startPos := JS.arg 1 args in
  let endPos := JS.arg 2 args in
  readAs dataURL fileName JNull startPos endPos.

Definition readAsBinaryString (args : list jsval) : M Outcome :=
  let args := getArgs args in
  let fileName := JS.arg 0 args in
  let startPos := JS.arg 1 args in
  let endPos := JS.arg 2 args in
  readAs binaryString fileName JNull startPos endPos.

Definition readAsArrayBuffer (args : list jsval) : M Outcome :=
  let args := getArgs args in
  let fileName := JS.arg 0 args in
  let startPos := JS.arg 1 args in
  let endPos := JS.arg 2 args in
  readAs arrayBuffer fileName JNull startPos endPos.

Definition remove (args : list jsval) : M Outcome :=
  let args := getArgs args in
  let fullPath := JS.arg 0 args in
  with_path fullPath (fun fullPath =>
    r <- native_stat fullPath ;;
    match r with
    | Err _ => reject FileError.NOT_FOUND_ERR
    | Ok stats =>
        let rm := if st_isDirectory stats then fs_rmdir else fs_unlink in
        r <- rm fullPath [ArgCallback] ;;
        match r with
        | Err _ => reject FileError.NO_MODIFICATION_ALLOWED_ERR
        | Ok _ => resolve VUndefined
        end
    end).

Definition removeRecursively (args : list jsval) : M Outcome :=
  let args := getArgs args in
  let fullPath := JS.arg 0 args in
  with_path fullPath (fun fullPath =>
    r <- native_stat fullPath ;;
    match r with
    | Err _ => reject FileError.NOT_FOUND_ERR
    | Ok stats =>
        let rm := if st_isDirectory stats then fs_rmdir else fs_unlink in
        r <- rm fullPath
               [ArgCallback;
                ArgValue (JObj [("recursive", JBool true); ("force", JBool true)])] ;;
        match r with
        | Err _ => reject FileError.NO_MODIFICATION_ALLOWED_ERR
        | Ok _ => resolve VUndefined
        end
    end).

Definition getDirectory (args : list jsval) : M Outcome :=
  let args := getArgs args in
  let path := JS.add (JS.arg 0 args) (JS.arg 1 args) in
  let options := JS.or (JS.arg 2 args) (JObj []) in
  with_path path (fun path =>
    r <- native_stat path ;;
    if err_not_ENOENT r then reject FileError.INVALID_STATE_ERR
    else
      let exists_ := no_err r in
      let baseName := basename path in
      let create := JS.prop options "create" in
      let exclusive := JS.prop options "exclusive" in
      if JS.is_true create && JS.is_true exclusive && exists_ then
        reject FileError.PATH_EXISTS_ERR
      else if JS.is_true create && negb exists_ then
        r <- native_mkdir path ;;
        match r with
        | Err _ => reject FileError.PATH_EXISTS_ERR
        | Ok _ => resolve (DirectoryEntry baseName path)
        end
      else if JS.is_true create && exists_ then
        if isDirectory r then resolve (DirectoryEntry baseName path)
        else reject FileError.INVALID_MODIFICATION_ERR
      else if negb (JS.truthy create) && negb exists_ then
        reject FileError.NOT_FOUND_ERR
      else if negb (JS.truthy create) && exists_ && isFile r then
        reject FileError.TYPE_MISMATCH_ERR
      else
        resolve (DirectoryEntry baseName path)).

Definition copyTo (args : list jsval) : M Outcome :=
  let args := getArgs args in
  let srcPath := JS.arg 0 args in
  let dstDir := JS.arg 1 args in
  let dstName := JS.arg 2 args in
  match as_path srcPath, as_path (JS.add dstDir dstName) with
  | Some src, Some dst =>
      r <- native_copyFile src dst ;;
      match r with
      | Err _ => reject FileError.INVALID_MODIFICATION_ERR
      | Ok _ =>
          o <- getFile [dstDir; dstName] ;;
          forward o
      end
  | _, _ => settle (Rejected TypeErr)
  end.

Definition moveTo (args : list jsval) : M Outcome :=
  let args := getArgs args in
  let srcPath := JS.arg 0 args in
  o <- copyTo args ;;
  o' <- and_then o (fun fileEntry =>
          o2 <- remove [srcPath] ;;
          o3 <- and_then o2 (fun _ => ret (Resolved fileEntry)) ;;
          ret (caught o3)) ;;
  deliver o'.

Definition applicationDirectory : string := appParentPath +:+ sep.
Definition dataDirectory : string := userDataPath +:+ sep.
Definition externalDataDirectory : string := userDataPath +:+ sep.
Definition cacheDirectory : string := cachePath +:+ sep.
Definition tempDirectory : string := tempPath +:+ sep.
Definition documentsDirectory : string := documentsPath +:+ sep.

Definition pathsPrefix : list (string * string) :=
  [("applicationDirectory", applicationDirectory);
   ("dataDirectory", dataDirectory);
   ("externalDataDirectory", externalDataDirectory);
   ("cacheDirectory", cacheDirectory);
   ("tempDirectory", tempDirectory);
   ("documentsDirectory", documentsDirectory)].

(** The last statement of resolveLocalFileSystemURI: the probe of the
    resolved path. *)
Definition probe (path : string) : M Outcome :=
  with_path (JStr path) (fun path =>
    r <- native_stat path ;;
    match r with
    | Err _ => reject FileError.NOT_FOUND_ERR
    | Ok stats =>
        let baseName := basename path in
        if st_isDirectory stats then resolve (DirectoryEntry baseName path)
        else resolve (FileEntry baseName path)
    end).

Definition resolveLocalFileSystemURI (args : list jsval) : M Outcome :=
  let args := getArgs args in
  let path := JS.arg 0 args in
  (* support for encodeURI: test coerces its argument to a string *)
  let decoded :=
    if JS.contains "%5" (JS.to_string path) || JS.contains "%20" (JS.to_string path)
    then JStr <$> decodeURI (JS.to_string path)
    else Some path in
  match decoded with
  | None => ret (Threw URIErr)
  | Some (JStr path) =>
      (* support for cdvfile *)
      if String.eqb (JS.substr_to 7 (JS.trim path)) "cdvfile" then
        match JS.indexOf "cdvfile://localhost" path with
        | None =>
            (* Promise.reject(FileError.ENCODING_ERR); return; *)
            emit (EvDropped (FileErr FileError.ENCODING_ERR)) ;;;
            ret ReturnedUndefined
        | Some _ =>
            match JS.indexOf "application" path,
                  JS.indexOf "persistent" path,
                  JS.indexOf "temporary" path with
            | Some indexApplication, _, _ =>
                probe (applicationDirectory +:+ JS.substr_from (indexApplication + 12) path)
            | None, Some indexPersistent, _ =>
                probe (dataDirectory +:+ JS.substr_from (indexPersistent + 11) path)
            | None, None, Some indexTemporary =>
                probe (tempDirectory +:+ JS.substr_from (indexTemporary + 10) path)
            | None, None, None => reject FileError.ENCODING_ERR
            end
        end
      else probe path
  | Some _ => ret (Threw TypeErr)       (* path.trim is not a function *)
  end.

Definition requestAllPaths : M Outcome := settle (Resolved (VPaths pathsPrefix)).

End Operations.

(** ** A concrete platform and concrete worlds *)

Module Demo.

(** Percent-decoding of the escapes below %80 that decodeURI decodes (it
    keeps the escapes of the reserved characters). *)
Definition hex_digit (c : ascii) : option nat :=
  let n := nat_of_ascii c in
  if ((48 <=? n) && (n <=? 57))%nat then Some (n - 48)%nat
  else if ((65 <=? n) && (n <=? 70))%nat then Some (n - 55)%nat
  else if ((97 <=? n) && (n <=? 102))%nat then Some (n - 87)%nat
  else None.

Definition reserved : string := ";/?:@&=+$,#".

Fixpoint decode (s : string) : option string :=
  match s with
  | EmptyString => Some EmptyString
  | String c r =>
      if Ascii.eqb c "%"%char then
        match r with
        | String h (String l r') =>
            match hex_digit h, hex_digit l with
            | Some a, Some b =>
                let ch := ascii_of_nat (16 * a + b) in
                if (128 <=? 16 * a + b)%nat then None
                else if JS.contains (String ch EmptyString) reserved
                then String c <$> decode r
                else String ch <$> decode r'
            | _, _ => None
            end
        | _ => None
        end
      else String c <$> decode r
  end.

Fixpoint digits (s : string) (acc : Z) : option Z :=
  match s with
  | EmptyString => Some acc
  | String c r =>
      let n := nat_of_ascii c in
      if ((48 <=? n) && (n <=? 57))%nat then digits r (10 * acc + Z.of_nat (n - 48))
      else None
  end.

Definition posix : Platform := {|
  decodeURI := decode;
  StringToNumber s := match digits (JS.trim s) 0 with Some z => JNum z | None => JNaN end;
  Buffer_toString buf enc :=
    match enc with
    | JUndef | JStr "utf8" | JStr "binary" | JStr "base64" => Some (string_of_list_byte buf)
    | _ => None
    end;
  utf8_bytes := list_byte_of_string;
  Buffer_from_object _ := None;
  positional_append := false;
  kMaxLength := 2 ^ 32 - 1;
  appParentPath := "/opt/app";
  userDataPath := "/home/u/.config/app";
  cachePath := "/home/u/.cache";
  tempPath := "/tmp";
  documentsPath := "/home/u/Documents"
|}.

(** A world where no native call fails for external reasons. *)
Definition world (fs : gmap (list string) Node) : World := {|
  files := fs; handles := ∅; next_fd := 3; clock := 0;
  inject _ _ := None; log := []
|}.

(** A world where the calls selected by [deny] fail with EACCES. *)
Definition world_denying (fs : gmap (list string) Node) (deny : Syscall -> bool) : World := {|
  files := fs; handles := ∅; next_fd := 3; clock := 0;
  inject _ c := if deny c then Some EACCES else None; log := []
|}.

Definition bytes (s : string) : list Byte.byte := list_byte_of_string s.

(** /d is a directory that holds the file /d/a; /f is a file. *)
Definition fs0 : gmap (list string) Node :=
  <[ ["d"; "a"] := NFile 0 (bytes "hello") ]>
  (<[ ["d"] := NDir 0 ]>
  (<[ ["f"] := NFile 0 (bytes "data") ]> ∅)).

End Demo.

(** ** Vocabulary of the statements *)

(** The probe of [p] in [w] finds an entry with attributes [stats]: the
    environment lets the call through and the path denotes a node.  This is
    the [exists] of the source ([!err] after fs.stat). *)
Definition probe_finds (w : World) (p : string) (stats : Stats) : Prop :=
  inject w (clock w) (SysStat p) = None /\
  exists n, node_at (files w) (path_key p) = Ok n /\ stats = stats_of n.

(** The world after a native call that had no effect but to be logged. *)
Definition logged (c : Syscall) (err : option Errno) (w : World) : World :=
  tick (record (EvCall c err) w).

(** A string that fs functions accept as a path. *)
Definition valid_path (p : string) : Prop := as_path (JStr p) = Some p.

(** The environment fails no native call. *)
Definition calm (w : World) : Prop := forall t c, inject w t c = None.

Definition denies_open (c : Syscall) : bool :=
  match c with SysOpen _ _ => true | _ => false end.

Definition denies_write (c : Syscall) : bool :=
  match c with SysWrite _ _ _ => true | _ => false end.

Definition denies_unlink (c : Syscall) : bool :=
  match c with SysUnlink _ => true | _ => false end.

(** The path that the resolver works on: the URI, decoded when it holds an
    escaped space or %5. *)
Definition decoded_uri {pf : Platform} (uri : string) : option string :=
  if JS.contains "%5" uri || JS.contains "%20" uri then decodeURI uri else Some uri.

(** The number of handles that are open when the promise of an operation is
    settled, from the log of the operation; None when it never is. *)
Fixpoint open_at_delivery (l : list Event) (n : nat) : option nat :=
  match l with
  | [] => None
  | EvCall (SysOpen _ _) None :: r => open_at_delivery r (S n)
  | EvCall (SysClose _) None :: r => open_at_delivery r (Nat.pred n)
  | EvSettle _ :: _ => Some n
  | _ :: r => open_at_delivery r n
  end.

(** ** Further operations of File.js *)

(** *** nodePath.dirname (POSIX) *)

Definition is_slash (c : ascii) : bool := Ascii.eqb c "/"%char.

Fixpoint skip_while (f : ascii -> bool) (l : list ascii) : list ascii :=
  match l with
  | [] => []
  | c :: r => if f c then skip_while f r else l
  end.

(** The scan of dirname runs from the last character down to the second
    one: it passes the separators at the end, then the last segment, and
    stops at the separator before it ([end]); without such a separator the
    result is "/" or ".". *)
Definition dirname (path : string) : string :=
  match path with
  | EmptyString => "."
  | String c0 rest =>
      let hasRoot := is_slash c0 in
      let scanned :=
        skip_while (fun c => negb (is_slash c))
                   (skip_while is_slash (rev (list_ascii_of_string rest))) in
      match scanned with
      | [] => if hasRoot then "/" else "."
      | _ :: before =>
          if hasRoot && (length scanned =? 1)%nat then "//"
          else String c0 (string_of_list_ascii (rev before))
      end
  end.

(** *** fs.readdir *)

(** A Dirent of fs.readdir(path, {withFileTypes: true}). *)
Record Dirent : Type := {
  d_name : string;
  d_isDirectory : bool;
  d_isFile : bool
}.

Definition dirent_of (name : string) (n : Node) : Dirent :=
  match n with
  | NFile _ _ => {| d_name := name; d_isDirectory := false; d_isFile := true |}
  | NDir _ => {| d_name := name; d_isDirectory := true; d_isFile := false |}
  end.

(** The name under which [k'] is a child of [k], if it is one. *)
Fixpoint child_name (k k' : list string) : option string :=
  match k, k' with
  | [], [n] => Some n
  | a :: r, b :: r' => if String.eqb a b then child_name r r' else None
  | _, _ => None
  end.

Definition children (fs : gmap (list string) Node) (k : list string) : list Dirent :=
  omap (fun kv => (fun name => dirent_of name kv.2) <$> child_name k kv.1)
       (map_to_list fs).

(** The Dirent of a child that is neither a regular file nor a directory (a
    symbolic link, a FIFO, a socket, a device): it answers false to isFile
    and to isDirectory. *)
Definition other_dirent (name : string) : Dirent :=
  {| d_name := name; d_isDirectory := false; d_isFile := false |}.

(** fs.readdir is not among the calls of [Syscall]: what the environment
    makes of the call is the argument [env] ([Some e] fails it with e), and
    the call advances the clock without an event in the log.  The files of
    the model are regular files and directories; the children of the listed
    directory that are of another kind are given by their names, [others]. *)
Definition native_readdir (env : option Errno) (others : list string) (p : string)
  : M (res (list Dirent)) :=
  fun w =>
    match env with
    | Some e => (Err e, tick w)
    | None =>
        match node_at (files w) (path_key p) with
        | Ok (NDir _) =>
            (Ok (children (files w) (path_key p) ++ map other_dirent others), tick w)
        | Ok (NFile _ _) => (Err ENOTDIR, tick w)
        | Err e => (Err e, tick w)
        end
    end.

(** An element of the array that readEntries resolves with. *)
Record ListingEntry : Type := {
  le_isDirectory : bool;
  le_isFile : bool;
  le_name : string;
  le_fullPath : string;
  le_filesystemName : string;
  le_nativeURL : string
}.

(** What the caller of readEntries gets: its promise is fulfilled with a
    listing, or rejected. *)
Inductive Listing : Type :=
| Listed (entries : list ListingEntry)
| NotListed (r : Reason).

Section MoreOperations.
Context {pf : Platform}.

(** The body of [files.forEach] in readEntries. *)
Definition listing_entry (fullPath : string) (d : Dirent) : ListingEntry :=
  let path := fullPath +:+ d_name d in
  let path := if d_isDirectory d then path +:+ sep else path in
  {| le_isDirectory := d_isDirectory d;
     le_isFile := d_isFile d;
     le_name := d_name d;
     le_fullPath := path;
     le_filesystemName := "temporary";
     le_nativeURL := path |}.

Definition readEntries (env : option Errno) (others : list string) (args : list jsval)
  : M Listing :=
  let args := getArgs args in
  let fullPath := JS.arg 0 args in
  match as_path fullPath with
  | None => emit (EvSettle (Rejected TypeErr)) ;;; ret (NotListed TypeErr)
  | Some fullPath =>
      r <- native_readdir env others fullPath ;;
      match r with
      | Err _ =>
          emit (EvSettle (Rejected (FileErr FileError.NOT_FOUND_ERR))) ;;;
          ret (NotListed (FileErr FileError.NOT_FOUND_ERR))
      | Ok files => ret (Listed (map (listing_entry fullPath) files))
      end
  end.

Definition getParent (args : list jsval) : M Outcome :=
  let args := getArgs args in
  match JS.arg 0 args with
  | JStr child =>
      let parentPath := dirname child in
      let parentName := basename parentPath in
      let path := dirname parentPath +:+ sep in
      getDirectory [JStr path; JStr parentName; JObj [("create", JBool false)]]
  | _ => ret (Threw TypeErr)      (* nodePath.dirname takes strings only *)
  end.

End MoreOperations.

(** ** Further vocabulary *)

(** The next descriptor is not in use. *)
Definition fresh_fd (w : World) : Prop := handles w !! next_fd w = None.

(** The environment fails no close. *)
Definition closes (w : World) : Prop := forall t fd, inject w t (SysClose fd) = None.

Fixpoint has_slash (s : string) : bool :=
  match s with
  | EmptyString => false
  | String c r => is_slash c || has_slash r
  end.

(** A name that is one component of a path. *)
Definition plain_name (n : string) : bool :=
  negb (has_slash n) && negb (String.eqb n "")
  && negb (String.eqb n ".") && negb (String.eqb n "..").

(** What the resolver answers for the path [p] when its probe gave [r]. *)
Definition probed (p : string) (r : res Stats) : Outcome :=
  match r with
  | Err _ => Rejected (FileErr FileError.NOT_FOUND_ERR)
  | Ok stats =>
      if st_isDirectory stats then Resolved (DirectoryEntry (basename p) p)
      else Resolved (FileEntry (basename p) p)
  end.

(** The files of [Demo.fs0] with a directory /d/sub that holds the file
    /d/sub/b and the directory /d/sub/c. *)
Definition fs1 : gmap (list string) Node :=
  <[ ["d"; "sub"; "c"] := NDir 0 ]>
  (<[ ["d"; "sub"; "b"] := NFile 0 (Demo.bytes "bb") ]>
  (<[ ["d"; "sub"] := NDir 0 ]> Demo.fs0)).

(** Every key of the map is made of plain names. *)
Definition keys_plain (fs : gmap (list string) Node) : bool :=
  forallb (fun kv => forallb plain_name kv.1) (map_to_list fs).

Definition is_dir (n : Node) : bool :=
  match n with NDir _ => true | NFile _ _ => false end.

Definition is_file (n : Node) : bool :=
  match n with NFile _ _ => true | NDir _ => false end.

(** Some key of the map lies strictly below [k]. *)
Definition below (fs : gmap (list string) Node) (k : list string) : Prop :=
  exists k' n, fs !! k' = Some n /\ is_prefix k k' = true /\ length k' <> length k.

(** ** Properties of the native layer *)

(** Closes the side condition of [native_log]: the body of a native call
    leaves the log alone. *)
Ltac run_keeps_log :=
  intros ? ?; repeat case_match; intros [= <- <-]; reflexivity.

(** A path below a file answers ENOTDIR, however far below; a path below a
    directory that is missing answers ENOENT. *)
Example node_at_below_a_file :
  node_at Demo.fs0 ["f"; "x"] = Err ENOTDIR /\
  node_at Demo.fs0 ["f"; "x"; "y"] = Err ENOTDIR /\
  node_at Demo.fs0 ["nope"; "x"; "y"] = Err ENOENT.
Proof. vm_compute. auto. Qed.

(** The copy of a directory onto an existing file fails and removes the
    file; onto a path that denotes nothing it fails and leaves nothing. *)
Example copyFile_of_a_directory :
  let w := Demo.world Demo.fs0 in
  (native_copyFile "/d" "/f" w).1 = Err EISDIR /\
  files (native_copyFile "/d" "/f" w).2 = delete ["f"] Demo.fs0 /\
  (native_copyFile "/d" "/e" w).1 = Err EISDIR /\
  files (native_copyFile "/d" "/e" w).2 = Demo.fs0.
Proof. vm_compute. auto. Qed.

Lemma native_stat_finds (w : World) (p : string) (stats : Stats) :
  probe_finds w p stats ->
  native_stat p w = (Ok stats, logged (SysStat p) None w).
Proof.
  intros [Hinj (n & Hn & ->)].
  unfold native_stat, native. rewrite Hinj, Hn. reflexivity.
Qed.

Lemma native_inv {T} (c : Syscall) (run : World -> res T * World) (w w' : World) (r : res T) :
  native c run w = (r, w') ->
  (exists e, inject w (clock w) c = Some e /\ r = Err e /\ w' = logged c (Some e) w)
  \/ (inject w (clock w) c = None /\
      exists w0, run w = (r, w0) /\ w' = logged c (res_err r) w0).
Proof.
  unfold native. destruct (inject w (clock w) c) as [e|] eqn:Hinj.
  - intros [= <- <-]. left. eauto.
  - destruct (run w) as [r0 w0] eqn:Hrun. intros [= <- <-]. right. eauto.
Qed.

Lemma as_path_valid (v : jsval) (p : string) : as_path v = Some p -> v = JStr p.
Proof.
  destruct v; simpl; try discriminate.
  destruct (JS.contains _ _); [discriminate | congruence].
Qed.

Lemma getArgs_wrapped (args : list jsval) : getArgs [JArr args] = args.
Proof. reflexivity. Qed.

(** ** The claims *)

(** C1. getFile(p, n, {create: true, exclusive: true}) on a path p+n that the
    probe finds, be it a file or a directory, is rejected with
    PATH_EXISTS_ERR, and makes no native call but the probe.  The options may
    carry further keys. *)
Theorem getFile_create_exclusive_exists {pf : Platform}
    (w : World) (p n : string) (o : list (string * jsval)) (stats : Stats) :
  valid_path (p +:+ n) ->
  probe_finds w (p +:+ n) stats ->
  JS.assoc "create" o = JBool true ->
  JS.assoc "exclusive" o = JBool true ->
  getFile [JStr p; JStr n; JObj o] w
  = (Rejected (FileErr FileError.PATH_EXISTS_ERR),
     record (EvSettle (Rejected (FileErr FileError.PATH_EXISTS_ERR)))
            (logged (SysStat (p +:+ n)) None w)).
Proof.
  intros Hvalid Hprobe Hc Hx.
  unfold getFile, with_path. cbn [getArgs JS.arg nth JS.add JS.is_primitive_nonstring
                                   andb JS.to_string JS.or JS.truthy].
  unfold valid_path in Hvalid. rewrite Hvalid.
  unfold bind. rewrite (native_stat_finds _ _ _ Hprobe).
  cbn [err_not_ENOENT no_err JS.prop]. rewrite Hc, Hx. reflexivity.
Qed.

Lemma getFile_create_exclusive_exists_witness :
  getFile (pf := Demo.posix)
          [JStr "/"; JStr "d"; JObj [("create", JBool true); ("exclusive", JBool true)]]
          (Demo.world Demo.fs0)
  = (Rejected (FileErr FileError.PATH_EXISTS_ERR),
     record (EvSettle (Rejected (FileErr FileError.PATH_EXISTS_ERR)))
            (logged (SysStat "/d") None (Demo.world Demo.fs0))).
Proof.
  apply (getFile_create_exclusive_exists (Demo.world Demo.fs0) "/" "d" _
           (stats_of (NDir 0))).
  - reflexivity.
  - split; [reflexivity | exists (NDir 0); split; [vm_compute; reflexivity | reflexivity]].
  - reflexivity.
  - reflexivity.
Defined.

(** C10. getDirectory(p, n, {create: true, exclusive: false}) on a path p+n
    that the probe finds to be a directory resolves with the entry of that
    directory; the probe is its only native call, and the files and the
    handles are as before.  getFile under the same flags, on a path that is a
    file, opens it with flag 'w' and leaves it empty. *)
Theorem getDirectory_create_existing_is_frame {pf : Platform} :
  (forall (w : World) (p n : string) (o : list (string * jsval)) (stats : Stats),
     valid_path (p +:+ n) ->
     probe_finds w (p +:+ n) stats ->
     st_isDirectory stats = true ->
     JS.assoc "create" o = JBool true ->
     JS.is_true (JS.assoc "exclusive" o) = false ->
     let entry := DirectoryEntry (basename (p +:+ n)) (p +:+ n) in
     exists w',
       getDirectory [JStr p; JStr n; JObj o] w = (Resolved entry, w') /\
       files w' = files w /\
       handles w' = handles w /\
       log w' = log w ++ [EvCall (SysStat (p +:+ n)) None; EvSettle (Resolved entry)])
  /\
  (forall (w : World) (p n : string) (o : list (string * jsval)) (t : Z) (c : list Byte.byte),
     valid_path (p +:+ n) ->
     calm w ->
     node_at (files w) (path_key (p +:+ n)) = Ok (NFile t c) ->
     JS.assoc "create" o = JBool true ->
     JS.is_true (JS.assoc "exclusive" o) = false ->
     let entry := FileEntry (basename (p +:+ n)) (p +:+ n) in
     exists w',
       getFile [JStr p; JStr n; JObj o] w = (Resolved entry, w') /\
       files w' = <[path_key (p +:+ n) := NFile (Z.of_nat (S (clock w))) []]> (files w) /\
       log w' = log w ++ [EvCall (SysStat (p +:+ n)) None;
                          EvCall (SysOpen (p +:+ n) FlagW) None;
                          EvCall (SysClose (next_fd w)) None;
                          EvSettle (Resolved entry)]).
Proof.
  split.
  - intros w p n o stats Hvalid Hprobe Hdir Hc Hx entry.
    eexists. split; [|split; [|split]].
    + unfold getDirectory, with_path.
      cbn [getArgs JS.arg nth JS.add JS.is_primitive_nonstring
             andb JS.to_string JS.or JS.truthy].
      unfold valid_path in Hvalid. rewrite Hvalid.
      unfold bind. rewrite (native_stat_finds _ _ _ Hprobe).
      cbn [err_not_ENOENT no_err JS.prop isDirectory]. rewrite Hc, Hx, Hdir.
      cbn [JS.is_true andb negb]. reflexivity.
    + reflexivity.
    + reflexivity.
    + cbn. rewrite <- app_assoc. reflexivity.
  - intros w p n o t c Hvalid Hcalm Hnode Hc Hx entry.
    assert (Hprobe : probe_finds w (p +:+ n) (stats_of (NFile t c))).
    { split; [apply Hcalm | eauto]. }
    eexists. split; [|split].
    + unfold getFile, with_path.
      cbn [getArgs JS.arg nth JS.add JS.is_primitive_nonstring
             andb JS.to_string JS.or JS.truthy].
      unfold valid_path in Hvalid. rewrite Hvalid.
      unfold bind at 1. rewrite (native_stat_finds _ _ _ Hprobe).
      cbn [err_not_ENOENT no_err JS.prop isFile stats_of st_isFile].
      rewrite Hc, Hx. cbn [JS.is_true andb negb].
      unfold createFile, bind, native_open, native_close, native.
      cbn [inject logged tick record clock files]. rewrite !Hcalm, Hnode.
      cbn [alloc_handle set_files set_handles handles next_fd res_err tick record
             inject clock files logged].
      rewrite Hcalm, lookup_insert_eq. reflexivity.
    + reflexivity.
    + cbn. rewrite <- !app_assoc. reflexivity.
Qed.

Lemma getDirectory_create_existing_is_frame_witness :
  (exists w',
     getDirectory (pf := Demo.posix)
       [JStr "/"; JStr "d"; JObj [("create", JBool true); ("exclusive", JBool false)]]
       (Demo.world Demo.fs0)
     = (Resolved (DirectoryEntry "d" "/d"), w') /\
     files w' = Demo.fs0 /\
     handles w' = ∅ /\
     log w' = [EvCall (SysStat "/d") None; EvSettle (Resolved (DirectoryEntry "d" "/d"))])
  /\
  (exists w',
     getFile (pf := Demo.posix)
       [JStr "/"; JStr "f"; JObj [("create", JBool true); ("exclusive", JBool false)]]
       (Demo.world Demo.fs0)
     = (Resolved (FileEntry "f" "/f"), w') /\
     files w' = <[ ["f"] := NFile 1 [] ]> Demo.fs0 /\
     log w' = [EvCall (SysStat "/f") None; EvCall (SysOpen "/f" FlagW) None;
               EvCall (SysClose 3) None; EvSettle (Resolved (FileEntry "f" "/f"))]).
Proof.
  split.
  - apply (proj1 (getDirectory_create_existing_is_frame (pf := Demo.posix))
             (Demo.world Demo.fs0) "/" "d" _ (stats_of (NDir 0))).
    + reflexivity.
    + split; [reflexivity | exists (NDir 0); split; [vm_compute; reflexivity | reflexivity]].
    + reflexivity.
    + reflexivity.
    + reflexivity.
  - apply (proj2 (getDirectory_create_existing_is_frame (pf := Demo.posix))
             (Demo.world Demo.fs0) "/" "f" _ 0 (Demo.bytes "data")).
    + reflexivity.
    + intros t c. reflexivity.
    + vm_compute. reflexivity.
    + reflexivity.
    + reflexivity.
Defined.

(** The options of removeRecursively never reach the native call: on every
    input it does what remove does. *)
Lemma removeRecursively_is_remove (args : list jsval) (w : World) :
  removeRecursively args w = remove args w.
Proof.
  unfold removeRecursively, remove, with_path.
  destruct (as_path (JS.arg 0 (getArgs args))) as [p|]; [|reflexivity].
  unfold bind. destruct (native_stat p w) as [[stats|e] w0]; [|reflexivity].
  destruct (st_isDirectory stats); reflexivity.
Qed.

(** C2. removeRecursively on the directory /d, which holds the file /d/a:
    the options follow the callback in the call of fs.rmdir, which therefore
    runs without them; the directory is not empty, so the call fails and the
    operation is rejected with NO_MODIFICATION_ALLOWED_ERR.  Nothing is
    removed. *)
Theorem removeRecursively_nonempty_directory_fails :
  let r := removeRecursively [JStr "/d/"] (Demo.world Demo.fs0) in
  r.1 = Rejected (FileErr FileError.NO_MODIFICATION_ALLOWED_ERR) /\
  files r.2 = Demo.fs0 /\
  log r.2 = [EvCall (SysStat "/d/") None;
             EvCall (SysRmdir "/d/" false) (Some ENOTEMPTY);
             EvSettle (Rejected (FileErr FileError.NO_MODIFICATION_ALLOWED_ERR))].
Proof. vm_compute. repeat split. Qed.

(** The same directory goes away, with its content, when the options reach
    fs.rmdir in their place. *)
Example rmdir_with_options_in_place :
  let r := fs_rmdir "/d/"
             [ArgValue (JObj [("recursive", JBool true); ("force", JBool true)]);
              ArgCallback]
             (Demo.world Demo.fs0) in
  r.1 = Ok tt /\ files r.2 = <[ ["f"] := NFile 0 (Demo.bytes "data") ]> ∅.
Proof. vm_compute. repeat split. Qed.

(** Whatever makes the native open of write fail is what the promise is
    rejected with. *)
Lemma write_open_failure_is_raw {pf : Platform} (w w1 : World) (fileName : string)
    (data position : jsval) (buf : list Byte.byte) (e : Errno) :
  JS.truthy data = true ->
  Buffer_from data = Some buf ->
  valid_path fileName ->
  native_open fileName FlagA w = (Err e, w1) ->
  write [JStr fileName; data; position] w
  = (Rejected (NativeErr e), record (EvSettle (Rejected (NativeErr e))) w1).
Proof.
  intros Htruthy Hbuf Hvalid Hopen.
  unfold write. cbn [getArgs JS.arg nth].
  rewrite Htruthy, Hbuf. cbn [negb]. unfold valid_path in Hvalid. rewrite Hvalid.
  unfold bind. rewrite Hopen. reflexivity.
Qed.

(** C3. write("/f", "xy", 0) when the native open is denied, and when the
    native write is: the promise is rejected with the error object of the
    native call, not with one of the tags. *)
Theorem write_native_failure_not_mapped :
  (write (pf := Demo.posix) [JStr "/f"; JStr "xy"; JNum 0]
         (Demo.world_denying Demo.fs0 denies_open)).1
  = Rejected (NativeErr EACCES)
  /\
  (write (pf := Demo.posix) [JStr "/f"; JStr "xy"; JNum 0]
         (Demo.world_denying Demo.fs0 denies_write)).1
  = Rejected (NativeErr EACCES).
Proof. split; vm_compute; reflexivity. Qed.

(** The sibling readAs maps the failure of its native open to a tag. *)
Example readAs_native_failure_mapped :
  (readAsText (pf := Demo.posix) [JStr "/f"; JStr "utf8"; JNum 0; JNum 2]
              (Demo.world_denying Demo.fs0 denies_open)).1
  = Rejected (FileErr FileError.NOT_FOUND_ERR).
Proof. vm_compute. reflexivity. Qed.

(** C4. resolveLocalFileSystemURI on a cdvfile URI whose authority is not
    localhost: the rejected promise is made and dropped, and the function
    returns undefined; in every world and on every platform. *)
Theorem resolve_foreign_host_returns_undefined {pf : Platform} (w : World) :
  resolveLocalFileSystemURI [JStr "cdvfile://otherhost/persistent/x"] w
  = (ReturnedUndefined, record (EvDropped (FileErr FileError.ENCODING_ERR)) w).
Proof. reflexivity. Qed.

(** Arguments that arrive wrapped never get getMetadata as far as the
    probe. *)
Lemma getMetadata_wrapped_rejected (args : list jsval) (w : World) :
  getMetadata [JArr args] w = (Rejected TypeErr, record (EvSettle (Rejected TypeErr)) w).
Proof. reflexivity. Qed.

(** C5. getMetadata reads args[0] without getArgs: with the arguments
    wrapped in one more array the path it hands to fs.stat is an array, and
    the promise is rejected with the TypeError of fs.stat; with the flat
    arguments it resolves.  getFileMetadata, which calls getArgs, treats
    both alike. *)
Theorem getMetadata_wrapped_arguments_differ :
  (getMetadata [JStr "/f"] (Demo.world Demo.fs0)).1 = Resolved (VMetadata 0 4) /\
  (getMetadata [JArr [JStr "/f"]] (Demo.world Demo.fs0)).1 = Rejected TypeErr /\
  getFileMetadata [JArr [JStr "/f"]] (Demo.world Demo.fs0)
  = getFileMetadata [JStr "/f"] (Demo.world Demo.fs0).
Proof. repeat split; vm_compute; reflexivity. Qed.

(** The values that are falsy. *)
Lemma falsy_values (v : jsval) :
  JS.truthy v = false <->
  v = JUndef \/ v = JNull \/ v = JBool false \/ v = JNum 0 \/ v = JNaN \/ v = JStr "".
Proof.
  split.
  - destruct v as [| |b|z| |s| | |]; cbn [JS.truthy]; try discriminate.
    + auto.
    + auto.
    + destruct b; [discriminate | auto 10].
    + intros Hz. apply negb_false_iff, Z.eqb_eq in Hz. subst. auto 10.
    + auto 10.
    + intros Hs. apply negb_false_iff, String.eqb_eq in Hs. subst. auto 10.
  - intros [-> | [-> | [-> | [-> | [-> | ->]]]]]; reflexivity.
Qed.

(** C6, as stated, fails for a payload that is empty without being falsy:
    write("/new", new ArrayBuffer(0), 0) opens the file, which creates it,
    writes no byte and resolves with no byte written. *)
Lemma write_empty_buffer_touches_files :
  let r := write (pf := Demo.posix) [JStr "/new"; JBytes []; JNum 0]
                 (Demo.world Demo.fs0) in
  r.1 = Resolved (VWritten 0 []) /\
  r.1 <> Rejected (FileErr FileError.INVALID_MODIFICATION_ERR) /\
  files (Demo.world Demo.fs0) !! ["new"] = None /\
  files r.2 !! ["new"] = Some (NFile 1 []) /\
  log r.2 = [EvCall (SysOpen "/new" FlagA) None;
             EvCall (SysWrite 3 [] (JNum 0)) None;
             EvCall (SysClose 3) None;
             EvSettle (Resolved (VWritten 0 []))].
Proof. vm_compute. repeat split; discriminate. Qed.

(** C6, amended. write with data that is falsy (absent, null, the empty
    string, 0, NaN or false) is rejected at once with
    INVALID_MODIFICATION_ERR; the world is as before except for the logged
    settlement: no native call is made, no file and no handle changes. *)
Theorem write_falsy_data_rejected {pf : Platform} (w : World) (args : list jsval) :
  JS.truthy (JS.arg 1 (getArgs args)) = false ->
  write args w
  = (Rejected (FileErr FileError.INVALID_MODIFICATION_ERR),
     record (EvSettle (Rejected (FileErr FileError.INVALID_MODIFICATION_ERR))) w).
Proof.
  intros Hfalsy. unfold write. rewrite Hfalsy. reflexivity.
Qed.

Lemma write_falsy_data_rejected_witness :
  write (pf := Demo.posix) [JStr "/new"; JStr ""; JNum 0] (Demo.world Demo.fs0)
  = (Rejected (FileErr FileError.INVALID_MODIFICATION_ERR),
     record (EvSettle (Rejected (FileErr FileError.INVALID_MODIFICATION_ERR)))
            (Demo.world Demo.fs0)).
Proof.
  apply (write_falsy_data_rejected (Demo.world Demo.fs0) [JStr "/new"; JStr ""; JNum 0]).
  reflexivity.
Defined.

(** C8. The resolver does not look at the class token: it searches the
    whole URI for the three class words.  In
    cdvfile://localhost/documents/application.txt the token is documents,
    none of the three classes, yet the URI is not rejected with
    ENCODING_ERR: the word application in the file name makes the resolver
    take the application directory, followed by what comes twelve
    characters after that word, and the file system is probed. *)
Lemma resolve_unknown_class_token_probes :
  let r := resolveLocalFileSystemURI (pf := Demo.posix)
             [JStr "cdvfile://localhost/documents/application.txt"]
             (Demo.world Demo.fs0) in
  r.1 = Rejected (FileErr FileError.NOT_FOUND_ERR) /\
  r.1 <> Rejected (FileErr FileError.ENCODING_ERR) /\
  log r.2 = [EvCall (SysStat "/opt/app/txt") (Some ENOENT);
             EvSettle (Rejected (FileErr FileError.NOT_FOUND_ERR))].
Proof. vm_compute. repeat split; discriminate. Qed.

(** The rejection that the resolver does perform: a symbolic URI (cdvfile at
    its start, cdvfile://localhost in it) in which none of the words
    application, persistent and temporary occurs anywhere is rejected with
    ENCODING_ERR, and no native call is made: the world is as before except
    for the logged settlement. *)
Theorem resolve_no_class_word_rejected {pf : Platform} (w : World) (uri path : string) :
  decoded_uri uri = Some path ->
  JS.substr_to 7 (JS.trim path) = "cdvfile" ->
  JS.indexOf "cdvfile://localhost" path <> None ->
  JS.indexOf "application" path = None ->
  JS.indexOf "persistent" path = None ->
  JS.indexOf "temporary" path = None ->
  resolveLocalFileSystemURI [JStr uri] w
  = (Rejected (FileErr FileError.ENCODING_ERR),
     record (EvSettle (Rejected (FileErr FileError.ENCODING_ERR))) w).
Proof.
  intros Hdec Hscheme Hhost Ha Hp Ht.
  unfold resolveLocalFileSystemURI, decoded_uri in *.
  cbn [getArgs JS.arg nth JS.to_string].
  assert (Hd : (if JS.contains "%5" uri || JS.contains "%20" uri
                then JStr <$> decodeURI uri else Some (JStr uri)) = Some (JStr path)).
  { destruct (JS.contains "%5" uri || JS.contains "%20" uri).
    - rewrite Hdec. reflexivity.
    - congruence. }
  rewrite Hd, Hscheme, String.eqb_refl.
  destruct (JS.indexOf "cdvfile://localhost" path); [|congruence].
  rewrite Ha, Hp, Ht. reflexivity.
Qed.

Lemma resolve_no_class_word_rejected_witness :
  resolveLocalFileSystemURI (pf := Demo.posix)
    [JStr "cdvfile://localhost/documents/x.txt"] (Demo.world Demo.fs0)
  = (Rejected (FileErr FileError.ENCODING_ERR),
     record (EvSettle (Rejected (FileErr FileError.ENCODING_ERR))) (Demo.world Demo.fs0)).
Proof.
  apply (resolve_no_class_word_rejected (pf := Demo.posix) (Demo.world Demo.fs0)
           "cdvfile://localhost/documents/x.txt" "cdvfile://localhost/documents/x.txt").
  - reflexivity.
  - reflexivity.
  - vm_compute. discriminate.
  - reflexivity.
  - reflexivity.
  - reflexivity.
Defined.

(** *** The log of a native call *)

Lemma native_log {T} (c : Syscall) (run : World -> res T * World) (w w' : World) (r : res T) :
  (forall r0 w0, run w = (r0, w0) -> log w0 = log w) ->
  native c run w = (r, w') ->
  log w' = log w ++ [EvCall c (res_err r)].
Proof.
  intros Hrun Hnat. apply native_inv in Hnat as [(e & _ & -> & ->) | (_ & w0 & Hw0 & ->)].
  - reflexivity.
  - cbn. rewrite (Hrun _ _ Hw0). reflexivity.
Qed.

Lemma native_open_log (p : string) (flag : OpenFlag) (w w' : World) (r : res nat) :
  native_open p flag w = (r, w') ->
  log w' = log w ++ [EvCall (SysOpen p flag) (res_err r)].
Proof.
  apply native_log. unfold create_file, alloc_handle. run_keeps_log.
Qed.

Lemma native_close_log (fd : nat) (w w' : World) (r : res unit) :
  native_close fd w = (r, w') ->
  log w' = log w ++ [EvCall (SysClose fd) (res_err r)].
Proof. apply native_log. run_keeps_log. Qed.

Lemma native_read_log (fd len : nat) (position : jsval) (w w' : World)
    (r : res (list Byte.byte)) :
  native_read fd len position w = (r, w') ->
  log w' = log w ++ [EvCall (SysRead fd len position) (res_err r)].
Proof. apply native_log. run_keeps_log. Qed.

Lemma native_write_log {pf : Platform} (fd : nat) (buf : list Byte.byte) (position : jsval)
    (w w' : World) (r : res nat) :
  native_write fd buf position w = (r, w') ->
  log w' = log w ++ [EvCall (SysWrite fd buf position) (res_err r)].
Proof. apply native_log. run_keeps_log. Qed.

(** C9, as stated, fails for readAs: the promise is settled when the read
    comes back, and the handle is closed after that.  For
    readAsText("/f", "utf8", 0, 2) the handle is open at the settlement;
    for write it is not. *)
Lemma readAs_settles_before_close :
  let r := readAsText (pf := Demo.posix) [JStr "/f"; JStr "utf8"; JNum 0; JNum 2]
                      (Demo.world Demo.fs0) in
  log r.2 = [EvCall (SysOpen "/f" FlagR) None;
             EvCall (SysRead 3 2 (JNum 0)) None;
             EvSettle (Resolved (VString "da"));
             EvCall (SysClose 3) None] /\
  open_at_delivery (log r.2) 0 = Some 1%nat /\
  open_at_delivery
    (log (write (pf := Demo.posix) [JStr "/f"; JStr "xy"; JNum 0] (Demo.world Demo.fs0)).2) 0
  = Some 0%nat.
Proof. vm_compute. repeat split. Qed.

(** An exit of readAs on which the handle stays open: the range is
    reversed, Buffer.alloc throws in the callback of fs.open, the promise is
    never settled and nothing closes the handle. *)
Example readAs_reversed_range_leaks :
  let r := readAsText (pf := Demo.posix) [JStr "/f"; JStr "utf8"; JNum 2; JNum 0]
                      (Demo.world Demo.fs0) in
  r.1 = Pending /\
  handles r.2 !! 3%nat = Some {| h_key := ["f"]; h_flag := FlagR |} /\
  log r.2 = [EvCall (SysOpen "/f" FlagR) None; EvUncaught TypeErr].
Proof. vm_compute. repeat split. Qed.

(** C9, amended. write: once its native open has succeeded, the write and
    then the close are issued, whatever the write gave, and the promise is
    settled after the close.  readAs: once its native open has succeeded and
    the buffer is allocated, the read (if the length is not 0) is issued, the
    promise is settled, and then the close is issued, whatever the read
    gave: the settlement precedes the close. *)
Theorem handle_closed_after_open {pf : Platform} :
  (forall (w w1 : World) (fileName : string) (data position : jsval)
          (buf : list Byte.byte) (fd : nat),
     JS.truthy data = true ->
     Buffer_from data = Some buf ->
     valid_path fileName ->
     native_open fileName FlagA w = (Ok fd, w1) ->
     exists o rw rc w',
       write [JStr fileName; data; position] w = (o, w') /\
       log w' = log w ++ [EvCall (SysOpen fileName FlagA) None;
                          EvCall (SysWrite fd buf position) rw;
                          EvCall (SysClose fd) rc;
                          EvSettle o])
  /\
  (forall (what : What) (w w1 : World) (fullPath : string)
          (encoding startPos endPos : jsval) (fd len : nat),
     valid_path fullPath ->
     native_open fullPath FlagR w = (Ok fd, w1) ->
     Buffer_alloc (JS.sub endPos startPos) = Some len ->
     exists o reads rc w',
       readAs what (JStr fullPath) encoding startPos endPos w = (o, w') /\
       log w' = log w ++ [EvCall (SysOpen fullPath FlagR) None] ++ reads
                      ++ [EvSettle o; EvCall (SysClose fd) rc] /\
       (len = 0%nat /\ reads = []
        \/ exists rr, reads = [EvCall (SysRead fd len startPos) rr])).
Proof.
  split.
  - intros w w1 fileName data position buf fd Htruthy Hbuf Hvalid Hopen.
    unfold write. cbn [getArgs JS.arg nth].
    rewrite Htruthy, Hbuf. cbn [negb]. unfold valid_path in Hvalid. rewrite Hvalid.
    unfold bind at 1. rewrite Hopen.
    apply native_open_log in Hopen.
    unfold bind.
    destruct (native_write fd buf position w1) as [rw w2] eqn:Hwrite.
    destruct (native_close fd w2) as [rc w3] eqn:Hclose.
    apply native_write_log in Hwrite. apply native_close_log in Hclose.
    assert (Hlog : log w3 = log w ++ [EvCall (SysOpen fileName FlagA) None;
                                      EvCall (SysWrite fd buf position) (res_err rw);
                                      EvCall (SysClose fd) (res_err rc)]).
    { rewrite Hclose, Hwrite, Hopen. rewrite <- !app_assoc. reflexivity. }
    destruct rc as [[]|ec], rw as [bw|ew];
      (eexists _, _, _, _; split; [reflexivity|]);
      cbn; rewrite Hlog, <- app_assoc; reflexivity.
  - intros what w w1 fullPath encoding startPos endPos fd len Hvalid Hopen Hlen.
    unfold readAs, with_path. unfold valid_path in Hvalid. rewrite Hvalid.
    unfold bind at 1. rewrite Hopen, Hlen.
    apply native_open_log in Hopen. cbn [res_err] in Hopen.
    unfold fs_read. destruct (len =? 0)%nat eqn:Hzero.
    + apply Nat.eqb_eq in Hzero.
      unfold bind, ret.
      destruct (represent what [] encoding) as [v|];
        cbn [resolve reject settle emit bind ret];
        unfold bind, emit, ret;
        match goal with
        | |- context [native_close fd ?w0] =>
            destruct (native_close fd w0) as [rc w3] eqn:Hclose
        end;
        apply native_close_log in Hclose; cbn in Hclose;
        (eexists _, [], _, _; split; [reflexivity|]);
        (split; [rewrite Hclose, Hopen, <- !app_assoc; reflexivity | left; auto]).
    + unfold bind.
      destruct (native_read fd len startPos w1) as [rr w2] eqn:Hread.
      apply native_read_log in Hread.
      assert (Hsettled : forall o,
                 exists rc w',
                   (let '(_, w0) := native_close fd (record (EvSettle o) w2) in (o, w0))
                   = (o, w') /\
                   log w' = log w ++ [EvCall (SysOpen fullPath FlagR) None]
                              ++ [EvCall (SysRead fd len startPos) (res_err rr)]
                              ++ [EvSettle o; EvCall (SysClose fd) rc]).
      { intros o.
        destruct (native_close fd (record (EvSettle o) w2)) as [rc w3] eqn:Hclose.
        apply native_close_log in Hclose. cbn in Hclose.
        exists (res_err rc), w3. split; [reflexivity|].
        rewrite Hclose, Hread, Hopen, <- !app_assoc. reflexivity. }
      destruct rr as [buf|e].
      * destruct (represent what buf encoding) as [v|].
        -- destruct (Hsettled (Resolved v)) as (rc & w' & Hrun & Hlog).
           exists (Resolved v), [EvCall (SysRead fd len startPos) None], rc, w'.
           split; [exact Hrun | split; [exact Hlog | right; eauto]].
        -- destruct (Hsettled (Rejected (FileErr FileError.NOT_READABLE_ERR)))
             as (rc & w' & Hrun & Hlog).
           exists (Rejected (FileErr FileError.NOT_READABLE_ERR)),
             [EvCall (SysRead fd len startPos) None], rc, w'.
           split; [exact Hrun | split; [exact Hlog | right; eauto]].
      * destruct (Hsettled (Rejected (FileErr FileError.NOT_READABLE_ERR)))
          as (rc & w' & Hrun & Hlog).
        exists (Rejected (FileErr FileError.NOT_READABLE_ERR)),
          [EvCall (SysRead fd len startPos) (Some e)], rc, w'.
        split; [exact Hrun | split; [exact Hlog | right; eauto]].
Qed.

Lemma handle_closed_after_open_witness :
  (exists o rw rc w',
     write (pf := Demo.posix) [JStr "/f"; JStr "xy"; JNum 0] (Demo.world Demo.fs0) = (o, w') /\
     log w' = [] ++ [EvCall (SysOpen "/f" FlagA) None;
                     EvCall (SysWrite 3 (Demo.bytes "xy") (JNum 0)) rw;
                     EvCall (SysClose 3) rc;
                     EvSettle o])
  /\
  (exists o reads rc w',
     readAs (pf := Demo.posix) text (JStr "/f") (JStr "utf8") (JNum 0) (JNum 2)
            (Demo.world Demo.fs0) = (o, w') /\
     log w' = [] ++ [EvCall (SysOpen "/f" FlagR) None] ++ reads
                 ++ [EvSettle o; EvCall (SysClose 3) rc] /\
     (2%nat = 0%nat /\ reads = []
      \/ exists rr, reads = [EvCall (SysRead 3 2 (JNum 0)) rr])).
Proof.
  split.
  - eapply (proj1 (handle_closed_after_open (pf := Demo.posix)) (Demo.world Demo.fs0)).
    + reflexivity.
    + reflexivity.
    + reflexivity.
    + vm_compute. reflexivity.
  - eapply (proj2 (handle_closed_after_open (pf := Demo.posix)) text (Demo.world Demo.fs0)).
    + reflexivity.
    + vm_compute. reflexivity.
    + reflexivity.
Defined.

(** *** Frames of the native calls and of the operations *)

Lemma node_at_insert (fs : gmap (list string) Node) (k : list string) (n : Node) :
  k <> [] -> node_at (<[k := n]> fs) k = Ok n.
Proof.
  destruct k as [|a k]; [congruence|]. intros _.
  unfold node_at. rewrite lookup_insert_eq. reflexivity.
Qed.

Lemma node_at_delete (fs : gmap (list string) Node) (k : list string) :
  k <> [] -> exists e, node_at (delete k fs) k = Err e.
Proof.
  destruct k as [|a k]; [congruence|]. intros _.
  unfold node_at. rewrite lookup_delete_eq.
  repeat case_match; eauto.
Qed.

Lemma native_stat_frame (p : string) (w w' : World) (r : res Stats) :
  native_stat p w = (r, w') -> files w' = files w.
Proof.
  intros H. apply native_inv in H as [(e & _ & _ & ->) | (_ & w0 & Hrun & ->)].
  - reflexivity.
  - cbn. repeat case_match; injection Hrun as <- <-; reflexivity.
Qed.

Lemma settle_files {pf : Platform} (o o' : Outcome) (w w' : World) :
  settle o w = (o', w') -> o' = o /\ files w' = files w.
Proof. intros [= <- <-]. auto. Qed.

(** getFile without options only probes: files stay as they are, and when
    it resolves, it does with the file entry of its path. *)
Lemma getFile_no_options {pf : Platform} (d n : string) (w w' : World) (o : Outcome) :
  getFile [JStr d; JStr n] w = (o, w') ->
  files w' = files w /\
  (forall v, o = Resolved v -> v = FileEntry (basename (d +:+ n)) (d +:+ n)).
Proof.
  unfold getFile, with_path.
  cbn [getArgs JS.arg nth JS.add JS.is_primitive_nonstring
         andb JS.to_string JS.or JS.truthy JS.prop JS.assoc JS.is_true negb].
  destruct (as_path (JStr (d +:+ n))) as [p|] eqn:Hp.
  - apply as_path_valid in Hp. injection Hp as <-.
    unfold bind. destruct (native_stat (d +:+ n) w) as [r w0] eqn:Hstat.
    apply native_stat_frame in Hstat.
    unfold reject, resolve.
    repeat case_match; intros Hrun; apply settle_files in Hrun as [-> Hf];
      (split; [congruence | intros v [= <-]; reflexivity || discriminate]).
  - intros Hrun. apply settle_files in Hrun as [-> Hf].
    split; [congruence | discriminate].
Qed.

Lemma native_copyFile_run (src dst : string) (w : World) :
  inject w (clock w) (SysCopyFile src dst) = None ->
  native_copyFile src dst w
  = (let '(r, w') := copy_body src dst w in
     (r, logged (SysCopyFile src dst) (res_err r) w')).
Proof. intros Hinj. unfold native_copyFile. cbv zeta. rewrite Hinj. reflexivity. Qed.

Lemma native_copyFile_ok (src dst : string) (w w0 : World) :
  native_copyFile src dst w = (Ok tt, w0) ->
  exists w00, copy_body src dst w = (Ok tt, w00) /\
              w0 = logged (SysCopyFile src dst) None w00.
Proof.
  unfold native_copyFile. cbv zeta.
  destruct (inject w (clock w) (SysCopyFile src dst)); [discriminate|].
  destruct (copy_body src dst w) as [r w00]. intros [= -> <-]. eauto.
Qed.

(** A copy that succeeds had a file as its source, and leaves the content
    of that file at the destination. *)
Lemma copy_body_ok (src dst : string) (w w00 : World) :
  copy_body src dst w = (Ok tt, w00) ->
  exists t c t',
    node_at (files w) (path_key src) = Ok (NFile t c) /\
    node_at (files w00) (path_key dst) = Ok (NFile t' c).
Proof.
  unfold copy_body. cbv zeta. intros Hrun.
  destruct (node_at (files w) (path_key src)) as [[t c|t]|e] eqn:Hs.
  - destruct (node_at (files w) (path_key dst)) as [[t' c'|t']|e] eqn:Hd.
    + case_bool_decide as Hsame.
      * injection Hrun as <-. exists t, c, t. split; [reflexivity|].
        rewrite <- Hsame. exact Hs.
      * injection Hrun as <-. exists t, c, (now w). split; [reflexivity|].
        cbn [set_files files].
        apply node_at_insert. intros Hnil. rewrite Hnil in Hd. discriminate.
    + discriminate.
    + destruct e; try discriminate.
      destruct (parent_ok (files w) (path_key dst)); [|discriminate].
      injection Hrun as <-. exists t, c, (now w). split; [reflexivity|].
      cbn [set_files files].
      apply node_at_insert. intros Hnil. rewrite Hnil in Hd. discriminate.
  - repeat case_match; discriminate.
  - discriminate.
Qed.

(** What a resolved copyTo has done: the source is a file, and its content
    is at the destination. *)
Lemma copyTo_resolved {pf : Platform} (srcPath dstDir dstName : string)
    (w w1 : World) (entry : Value) :
  copyTo [JStr srcPath; JStr dstDir; JStr dstName] w = (Resolved entry, w1) ->
  valid_path srcPath /\
  entry = FileEntry (basename (dstDir +:+ dstName)) (dstDir +:+ dstName) /\
  exists t c t',
    node_at (files w) (path_key srcPath) = Ok (NFile t c) /\
    node_at (files w1) (path_key (dstDir +:+ dstName)) = Ok (NFile t' c).
Proof.
  unfold copyTo.
  cbn [getArgs JS.arg nth JS.add JS.is_primitive_nonstring andb JS.to_string].
  destruct (as_path (JStr srcPath)) as [src|] eqn:Hsrc;
    [|intros H; apply settle_files in H as [[=] _]].
  destruct (as_path (JStr (dstDir +:+ dstName))) as [dst|] eqn:Hdst;
    [|intros H; apply settle_files in H as [[=] _]].
  pose proof (as_path_valid _ _ Hsrc) as [= <-].
  pose proof (as_path_valid _ _ Hdst) as [= <-].
  unfold bind at 1.
  destruct (native_copyFile srcPath (dstDir +:+ dstName) w) as [r w0] eqn:Hcopy.
  destruct r as [[]|e]; [|intros H; apply settle_files in H as [[=] _]].
  unfold bind.
  destruct (getFile [JStr dstDir; JStr dstName] w0) as [o w0'] eqn:Hget.
  apply getFile_no_options in Hget as [Hfiles Hentry].
  intros Hfwd.
  assert (o = Resolved entry /\ files w1 = files w0') as [-> Hw1].
  { destruct o; cbn in Hfwd; inversion Hfwd; subst; auto. }
  split; [exact Hsrc|]. split; [apply Hentry; reflexivity|].
  rewrite Hw1, Hfiles.
  apply native_copyFile_ok in Hcopy as (w00 & Hrun & ->).
  cbn [logged tick record files].
  exact (copy_body_ok _ _ _ _ Hrun).
Qed.

Lemma native_rmdir_plain (p : string) (w w' : World) (r : res unit) :
  native_rmdir p false w = (r, w') ->
  (exists e, r = Err e /\ files w' = files w)
  \/ (r = Ok tt /\ path_key p <> [] /\ files w' = delete (path_key p) (files w)).
Proof.
  intros H. apply native_inv in H as [(e & _ & -> & ->) | (_ & w0 & Hrun & ->)].
  - left. eauto.
  - cbv zeta in Hrun. cbn [logged tick record files].
    destruct (path_key p) as [|a k] eqn:Hk.
    + injection Hrun as <- <-. left. eauto.
    + repeat case_match; injection Hrun as <- <-;
        first [ left; eexists; split; reflexivity
              | right; split; [reflexivity | split; [discriminate | reflexivity]] ].
Qed.

Lemma native_unlink_inv (p : string) (w w' : World) (r : res unit) :
  native_unlink p w = (r, w') ->
  (exists e, r = Err e /\ files w' = files w)
  \/ (r = Ok tt /\ path_key p <> [] /\ files w' = delete (path_key p) (files w)).
Proof.
  intros H. apply native_inv in H as [(e & _ & -> & ->) | (_ & w0 & Hrun & ->)].
  - left. eauto.
  - cbv zeta in Hrun. cbn [logged tick record files].
    destruct (path_key p) as [|a k] eqn:Hk.
    + injection Hrun as <- <-. left. eauto.
    + repeat case_match; injection Hrun as <- <-;
        first [ left; eexists; split; reflexivity
              | right; split; [reflexivity | split; [discriminate | reflexivity]] ].
Qed.

(** remove either is rejected with one of its two tags, and then the files
    are as before, or it resolves, and then its path denotes nothing. *)
Lemma remove_outcome (p : string) (w w' : World) (o : Outcome) :
  valid_path p ->
  remove [JStr p] w = (o, w') ->
  (exists e, (e = FileError.NOT_FOUND_ERR \/ e = FileError.NO_MODIFICATION_ALLOWED_ERR) /\
             o = Rejected (FileErr e) /\ files w' = files w)
  \/ (o = Resolved VUndefined /\ exists e, node_at (files w') (path_key p) = Err e).
Proof.
  intros Hvalid. unfold remove, with_path. cbn [getArgs JS.arg nth].
  unfold valid_path in Hvalid. rewrite Hvalid. unfold bind.
  destruct (native_stat p w) as [r w0] eqn:Hstat.
  apply native_stat_frame in Hstat.
  destruct r as [stats|e].
  - assert (Hrm : forall rm,
               (rm = native_rmdir p false \/ rm = native_unlink p) ->
               forall r1 w1, rm w0 = (r1, w1) ->
               (exists e, r1 = Err e /\ files w1 = files w)
               \/ (r1 = Ok tt /\ exists e, node_at (files w1) (path_key p) = Err e)).
    { intros rm Hcase r1 w1 Hrun.
      assert (Hinv : (exists e, r1 = Err e /\ files w1 = files w0)
                     \/ (r1 = Ok tt /\ path_key p <> [] /\
                         files w1 = delete (path_key p) (files w0))).
      { destruct Hcase as [-> | ->];
          [apply native_rmdir_plain | apply native_unlink_inv]; exact Hrun. }
      destruct Hinv as [(e & -> & Hf) | (-> & Hk & Hf)].
      - left. exists e. split; [reflexivity | congruence].
      - right. split; [reflexivity|]. rewrite Hf. apply node_at_delete, Hk. }
    destruct (st_isDirectory stats).
    + destruct (fs_rmdir p [ArgCallback] w0) as [r1 w1] eqn:Hrun.
      destruct (Hrm _ (or_introl eq_refl) _ _ Hrun) as [(e & -> & Hf) | (-> & Hgone)];
        intros [= <- <-]; [left | right]; eauto 10.
    + destruct (fs_unlink p [ArgCallback] w0) as [r1 w1] eqn:Hrun.
      destruct (Hrm _ (or_intror eq_refl) _ _ Hrun) as [(e & -> & Hf) | (-> & Hgone)];
        intros [= <- <-]; [left | right]; eauto 10.
  - intros [= <- <-]. left. eexists. split; [left; reflexivity|]. split; [reflexivity|].
    exact Hstat.
Qed.

(** C7. moveTo when its copy step has resolved with [entry].  The source
    was a file, and its content is at the destination after the copy.  When
    the remove step is rejected, moveTo is rejected with the error of the
    remove step (NOT_FOUND_ERR or NO_MODIFICATION_ALLOWED_ERR), and the
    destination still is a file with the copied content: nothing deletes
    it.  When the remove step resolves, moveTo resolves with [entry], the
    file entry that copyTo made for the destination, and the source path
    denotes nothing any more. *)
Theorem moveTo_copy_then_remove {pf : Platform}
    (w w1 w2 : World) (srcPath dstDir dstName : string) (entry : Value) (o2 : Outcome) :
  copyTo [JStr srcPath; JStr dstDir; JStr dstName] w = (Resolved entry, w1) ->
  remove [JStr srcPath] w1 = (o2, w2) ->
  let dst := dstDir +:+ dstName in
  entry = FileEntry (basename dst) dst /\
  exists t c t',
    node_at (files w) (path_key srcPath) = Ok (NFile t c) /\
    node_at (files w1) (path_key dst) = Ok (NFile t' c) /\
    ((exists e,
        (e = FileError.NOT_FOUND_ERR \/ e = FileError.NO_MODIFICATION_ALLOWED_ERR) /\
        o2 = Rejected (FileErr e) /\
        moveTo [JStr srcPath; JStr dstDir; JStr dstName] w
        = (Rejected (FileErr e), record (EvSettle (Rejected (FileErr e))) w2) /\
        node_at (files w2) (path_key dst) = Ok (NFile t' c))
     \/
     (o2 = Resolved VUndefined /\
      moveTo [JStr srcPath; JStr dstDir; JStr dstName] w
      = (Resolved entry, record (EvSettle (Resolved entry)) w2) /\
      exists e, node_at (files w2) (path_key srcPath) = Err e)).
Proof.
  intros Hcopy Hremove dst.
  pose proof (copyTo_resolved _ _ _ _ _ _ Hcopy) as (Hvalid & Hentry & t & c & t' & Hsrc & Hdst).
  split; [exact Hentry|].
  exists t, c, t'. split; [exact Hsrc|]. split; [exact Hdst|].
  assert (Hmove : moveTo [JStr srcPath; JStr dstDir; JStr dstName] w
                  = (let '(o', w') := and_then o2 (fun _ => ret (Resolved entry)) w2 in
                     deliver (caught o') w')).
  { unfold moveTo. cbn [getArgs JS.arg nth]. unfold bind at 1. rewrite Hcopy.
    cbn [and_then]. unfold bind. rewrite Hremove.
    destruct (and_then o2 (fun _ => ret (Resolved entry)) w2); reflexivity. }
  destruct (remove_outcome _ _ _ _ Hvalid Hremove)
    as [(e & He & -> & Hfiles) | (-> & Hgone)].
  - left. exists e. split; [exact He|]. split; [reflexivity|].
    split; [rewrite Hmove; reflexivity|]. rewrite Hfiles. exact Hdst.
  - right. split; [reflexivity|]. split; [rewrite Hmove; reflexivity | exact Hgone].
Qed.

Lemma moveTo_copy_then_remove_witness :
  let w := Demo.world_denying Demo.fs0 denies_unlink in
  let args := [JStr "/f"; JStr "/d/"; JStr "g"] in
  let w1 := (copyTo (pf := Demo.posix) args w).2 in
  let o2 := (remove [JStr "/f"] w1).1 in
  let w2 := (remove [JStr "/f"] w1).2 in
  copyTo (pf := Demo.posix) args w = (Resolved (FileEntry "g" "/d/g"), w1) /\
  o2 = Rejected (FileErr FileError.NO_MODIFICATION_ALLOWED_ERR) /\
  (FileEntry "g" "/d/g" = FileEntry (basename ("/d/" +:+ "g")) ("/d/" +:+ "g") /\
   exists t c t',
     node_at (files w) (path_key "/f") = Ok (NFile t c) /\
     node_at (files w1) (path_key ("/d/" +:+ "g")) = Ok (NFile t' c) /\
     ((exists e,
         (e = FileError.NOT_FOUND_ERR \/ e = FileError.NO_MODIFICATION_ALLOWED_ERR) /\
         o2 = Rejected (FileErr e) /\
         moveTo (pf := Demo.posix) args w
         = (Rejected (FileErr e), record (EvSettle (Rejected (FileErr e))) w2) /\
         node_at (files w2) (path_key ("/d/" +:+ "g")) = Ok (NFile t' c))
      \/
      (o2 = Resolved VUndefined /\
       moveTo (pf := Demo.posix) args w
       = (Resolved (FileEntry "g" "/d/g"),
          record (EvSettle (Resolved (FileEntry "g" "/d/g"))) w2) /\
       exists e, node_at (files w2) (path_key "/f") = Err e))).
Proof.
  intros w args w1 o2 w2.
  split; [vm_compute; reflexivity|]. split; [vm_compute; reflexivity|].
  apply (moveTo_copy_then_remove (pf := Demo.posix) w w1 w2 "/f" "/d/" "g"
           (FileEntry "g" "/d/g") o2).
  - vm_compute. reflexivity.
  - vm_compute. reflexivity.
Defined.

(** The two ends of moveTo("/f", "/d/", "g") on the files of [Demo.fs0]:
    with the unlink denied, and with nothing denied. *)
Example moveTo_remove_denied :
  let r := moveTo (pf := Demo.posix) [JStr "/f"; JStr "/d/"; JStr "g"]
                  (Demo.world_denying Demo.fs0 denies_unlink) in
  r.1 = Rejected (FileErr FileError.NO_MODIFICATION_ALLOWED_ERR) /\
  files r.2 !! ["d"; "g"] = Some (NFile 0 (Demo.bytes "data")) /\
  files r.2 !! ["f"] = Some (NFile 0 (Demo.bytes "data")).
Proof. vm_compute. repeat split. Qed.

Example moveTo_success :
  let r := moveTo (pf := Demo.posix) [JStr "/f"; JStr "/d/"; JStr "g"]
                  (Demo.world Demo.fs0) in
  r.1 = Resolved (FileEntry "g" "/d/g") /\
  files r.2 !! ["d"; "g"] = Some (NFile 0 (Demo.bytes "data")) /\
  files r.2 !! ["f"] = None.
Proof. vm_compute. repeat split. Qed.

(** ** Further properties of the operations *)

(** *** Native calls that the environment lets through *)

Lemma native_run {T} (c : Syscall) (run : World -> res T * World) (w : World) :
  inject w (clock w) c = None ->
  native c run w = (let '(r, w') := run w in (r, logged c (res_err r) w')).
Proof. intros Hinj. unfold native. rewrite Hinj. reflexivity. Qed.

Lemma native_stat_world (p : string) (w w' : World) (r : res Stats) :
  native_stat p w = (r, w') -> w' = logged (SysStat p) (res_err r) w.
Proof.
  intros H. apply native_inv in H as [(e & _ & -> & ->) | (_ & w0 & Hrun & ->)].
  - reflexivity.
  - repeat case_match; injection Hrun as <- <-; reflexivity.
Qed.

Lemma native_stat_calm (p : string) (w : World) :
  inject w (clock w) (SysStat p) = None ->
  native_stat p w
  = (match node_at (files w) (path_key p) with
     | Ok n => Ok (stats_of n)
     | Err e => Err e
     end,
     logged (SysStat p)
            (match node_at (files w) (path_key p) with Ok _ => None | Err e => Some e end) w).
Proof.
  intros Hinj. unfold native_stat. rewrite (native_run _ _ _ Hinj).
  destruct (node_at (files w) (path_key p)); reflexivity.
Qed.

(** *** getFile and getDirectory *)

(** X1. getFile whose create option is not exactly true changes neither
    the files nor the handles, whatever its arguments and whatever the probe
    gives. *)
Theorem getFile_without_create_changes_nothing {pf : Platform}
    (args : list jsval) (w w' : World) (o : Outcome) :
  JS.is_true (JS.prop (JS.or (JS.arg 2 (getArgs args)) (JObj [])) "create") = false ->
  getFile args w = (o, w') ->
  files w' = files w /\ handles w' = handles w.
Proof.
  intros Hcreate. unfold getFile, with_path.
  destruct (as_path _) as [p|].
  - unfold bind. destruct (native_stat p w) as [r w0] eqn:Hstat.
    apply native_stat_world in Hstat. subst w0.
    rewrite Hcreate. cbn [andb].
    repeat case_match; intros [= <- <-]; split; reflexivity.
  - intros [= <- <-]. split; reflexivity.
Qed.

Lemma getFile_without_create_changes_nothing_witness :
  let w := Demo.world Demo.fs0 in
  let args := [JStr "/"; JStr "f"; JObj [("create", JNum 1)]] in
  files (getFile (pf := Demo.posix) args w).2 = files w /\
  handles (getFile (pf := Demo.posix) args w).2 = handles w.
Proof.
  intros w args.
  eapply (getFile_without_create_changes_nothing (pf := Demo.posix) args w).
  - reflexivity.
  - vm_compute. reflexivity.
Defined.

(** X2. getDirectory whose create option is not exactly true changes
    neither the files nor the handles. *)
Theorem getDirectory_without_create_changes_nothing {pf : Platform}
    (args : list jsval) (w w' : World) (o : Outcome) :
  JS.is_true (JS.prop (JS.or (JS.arg 2 (getArgs args)) (JObj [])) "create") = false ->
  getDirectory args w = (o, w') ->
  files w' = files w /\ handles w' = handles w.
Proof.
  intros Hcreate. unfold getDirectory, with_path.
  destruct (as_path _) as [p|].
  - unfold bind. destruct (native_stat p w) as [r w0] eqn:Hstat.
    apply native_stat_world in Hstat. subst w0.
    rewrite Hcreate. cbn [andb].
    repeat case_match; intros [= <- <-]; split; reflexivity.
  - intros [= <- <-]. split; reflexivity.
Qed.

Lemma getDirectory_without_create_changes_nothing_witness :
  let w := Demo.world Demo.fs0 in
  let args := [JStr "/"; JStr "nope"] in
  files (getDirectory (pf := Demo.posix) args w).2 = files w /\
  handles (getDirectory (pf := Demo.posix) args w).2 = handles w.
Proof.
  intros w args.
  eapply (getDirectory_without_create_changes_nothing (pf := Demo.posix) args w).
  - reflexivity.
  - vm_compute. reflexivity.
Defined.

Lemma err_not_ENOENT_missing {T} : err_not_ENOENT (@Err T ENOENT) = false.
Proof. reflexivity. Qed.

Ltac flat_args :=
  cbn [getArgs JS.arg nth JS.add JS.is_primitive_nonstring
         andb JS.to_string JS.or JS.truthy].

Lemma getFile_create_run {pf : Platform}
    (w : World) (p n : string) (o : list (string * jsval)) :
  calm w ->
  fresh_fd w ->
  valid_path (p +:+ n) ->
  node_at (files w) (path_key (p +:+ n)) = Err ENOENT ->
  parent_ok (files w) (path_key (p +:+ n)) = Ok tt ->
  JS.assoc "create" o = JBool true ->
  exists w',
    getFile [JStr p; JStr n; JObj o] w
    = (Resolved (FileEntry (basename (p +:+ n)) (p +:+ n)), w') /\
    files w' = <[path_key (p +:+ n) := NFile (Z.of_nat (S (clock w))) []]> (files w) /\
    handles w' = handles w /\
    inject w' = inject w.
Proof.
  intros Hcalm Hfresh Hvalid Hnode Hparent Hc.
  eexists. split; [|split; [|split]].
  - unfold getFile, with_path. flat_args.
    unfold valid_path in Hvalid. rewrite Hvalid.
    unfold bind at 1. rewrite (native_stat_calm _ _ (Hcalm _ _)), Hnode.
    rewrite err_not_ENOENT_missing. cbn [no_err JS.prop negb]. rewrite Hc.
    cbn [JS.is_true negb andb].
    rewrite andb_false_r. cbn [andb negb].
    unfold createFile, bind, native_open, native_close, native.
    cbn [inject logged tick record clock files]. rewrite !Hcalm, Hnode.
    unfold create_file. cbn [files set_files logged tick record]. rewrite Hparent.
    cbn [alloc_handle set_files set_handles handles next_fd res_err tick record
           inject clock files logged].
    rewrite Hcalm, lookup_insert_eq. reflexivity.
  - reflexivity.
  - cbn. apply delete_insert_id, Hfresh.
  - reflexivity.
Qed.

(** X3. getFile with create true on a path that denotes nothing, below a
    directory, creates an empty file there and resolves with its entry; no
    other path changes and no handle stays open.  The exclusive flag plays
    no part. *)
Theorem getFile_creates_missing_file {pf : Platform}
    (w : World) (p n : string) (o : list (string * jsval)) :
  calm w ->
  fresh_fd w ->
  valid_path (p +:+ n) ->
  node_at (files w) (path_key (p +:+ n)) = Err ENOENT ->
  parent_ok (files w) (path_key (p +:+ n)) = Ok tt ->
  JS.assoc "create" o = JBool true ->
  exists w',
    getFile [JStr p; JStr n; JObj o] w
    = (Resolved (FileEntry (basename (p +:+ n)) (p +:+ n)), w') /\
    files w' = <[path_key (p +:+ n) := NFile (Z.of_nat (S (clock w))) []]> (files w) /\
    handles w' = handles w.
Proof.
  intros Hcalm Hfresh Hvalid Hnode Hparent Hc.
  destruct (getFile_create_run w p n o Hcalm Hfresh Hvalid Hnode Hparent Hc)
    as (w' & Hrun & Hfiles & Hhandles & _).
  exists w'. auto.
Qed.

Lemma getFile_creates_missing_file_witness :
  exists w',
    getFile (pf := Demo.posix)
            [JStr "/d/"; JStr "new"; JObj [("create", JBool true)]] (Demo.world Demo.fs0)
    = (Resolved (FileEntry "new" "/d/new"), w') /\
    files w' = <[ ["d"; "new"] := NFile 1 [] ]> Demo.fs0 /\
    handles w' = ∅.
Proof.
  apply (getFile_creates_missing_file (pf := Demo.posix) (Demo.world Demo.fs0) "/d/" "new").
  - intros t c. reflexivity.
  - reflexivity.
  - reflexivity.
  - vm_compute. reflexivity.
  - vm_compute. reflexivity.
  - reflexivity.
Defined.

Lemma getDirectory_create_run {pf : Platform}
    (w : World) (p n : string) (o : list (string * jsval)) :
  calm w ->
  valid_path (p +:+ n) ->
  node_at (files w) (path_key (p +:+ n)) = Err ENOENT ->
  parent_ok (files w) (path_key (p +:+ n)) = Ok tt ->
  JS.assoc "create" o = JBool true ->
  exists w',
    getDirectory [JStr p; JStr n; JObj o] w
    = (Resolved (DirectoryEntry (basename (p +:+ n)) (p +:+ n)), w') /\
    files w' = <[path_key (p +:+ n) := NDir (Z.of_nat (S (clock w)))]> (files w) /\
    handles w' = handles w /\
    inject w' = inject w.
Proof.
  intros Hcalm Hvalid Hnode Hparent Hc.
  eexists. split; [|split; [|split]].
  - unfold getDirectory, with_path. flat_args.
    unfold valid_path in Hvalid. rewrite Hvalid.
    unfold bind at 1. rewrite (native_stat_calm _ _ (Hcalm _ _)), Hnode.
    rewrite err_not_ENOENT_missing. cbn [no_err JS.prop negb]. rewrite Hc.
    cbn [JS.is_true negb andb].
    rewrite andb_false_r. cbn [andb negb].
    unfold bind, native_mkdir, native.
    cbn [inject logged tick record clock files]. rewrite !Hcalm, Hnode, Hparent.
    reflexivity.
  - reflexivity.
  - reflexivity.
  - reflexivity.
Qed.

(** X4. getDirectory with create true on a path that denotes nothing, below
    a directory, makes the directory and resolves with its entry; no other
    path changes. *)
Theorem getDirectory_creates_missing_directory {pf : Platform}
    (w : World) (p n : string) (o : list (string * jsval)) :
  calm w ->
  valid_path (p +:+ n) ->
  node_at (files w) (path_key (p +:+ n)) = Err ENOENT ->
  parent_ok (files w) (path_key (p +:+ n)) = Ok tt ->
  JS.assoc "create" o = JBool true ->
  exists w',
    getDirectory [JStr p; JStr n; JObj o] w
    = (Resolved (DirectoryEntry (basename (p +:+ n)) (p +:+ n)), w') /\
    files w' = <[path_key (p +:+ n) := NDir (Z.of_nat (S (clock w)))]> (files w) /\
    handles w' = handles w.
Proof.
  intros Hcalm Hvalid Hnode Hparent Hc.
  destruct (getDirectory_create_run w p n o Hcalm Hvalid Hnode Hparent Hc)
    as (w' & Hrun & Hfiles & Hhandles & _).
  exists w'. auto.
Qed.

Lemma getDirectory_creates_missing_directory_witness :
  exists w',
    getDirectory (pf := Demo.posix)
      [JStr "/d/"; JStr "sub"; JObj [("create", JBool true)]] (Demo.world Demo.fs0)
    = (Resolved (DirectoryEntry "sub" "/d/sub"), w') /\
    files w' = <[ ["d"; "sub"] := NDir 1 ]> Demo.fs0 /\
    handles w' = ∅.
Proof.
  apply (getDirectory_creates_missing_directory (pf := Demo.posix)
           (Demo.world Demo.fs0) "/d/" "sub").
  - intros t c. reflexivity.
  - reflexivity.
  - vm_compute. reflexivity.
  - vm_compute. reflexivity.
  - reflexivity.
Defined.

(** X5. getDirectory with create true below a directory that does not
    exist (the parent of the path is missing, and no file stands on the way
    to it): the probe says the path is missing, mkdir fails with ENOENT, and
    the operation is rejected with PATH_EXISTS_ERR although nothing exists
    at the path; nothing is created. *)
Theorem getDirectory_missing_parent_reports_PATH_EXISTS {pf : Platform}
    (w : World) (p n : string) (o : list (string * jsval)) :
  calm w ->
  valid_path (p +:+ n) ->
  node_at (files w) (path_key (p +:+ n)) = Err ENOENT ->
  node_at (files w) (removelast (path_key (p +:+ n))) = Err ENOENT ->
  JS.assoc "create" o = JBool true ->
  exists w',
    getDirectory [JStr p; JStr n; JObj o] w
    = (Rejected (FileErr FileError.PATH_EXISTS_ERR), w') /\
    files w' = files w /\
    log w' = log w ++ [EvCall (SysStat (p +:+ n)) (Some ENOENT);
                       EvCall (SysMkdir (p +:+ n)) (Some ENOENT);
                       EvSettle (Rejected (FileErr FileError.PATH_EXISTS_ERR))].
Proof.
  intros Hcalm Hvalid Hnode Hparent Hc.
  eexists. split.
  - unfold getDirectory, with_path. flat_args.
    unfold valid_path in Hvalid. rewrite Hvalid.
    unfold bind at 1. rewrite (native_stat_calm _ _ (Hcalm _ _)), Hnode.
    rewrite err_not_ENOENT_missing. cbn [no_err JS.prop negb]. rewrite Hc.
    cbn [JS.is_true negb andb].
    rewrite andb_false_r. cbn [andb negb].
    unfold bind, native_mkdir, native, parent_ok.
    cbn [inject logged tick record clock files]. rewrite !Hcalm, Hnode, Hparent.
    reflexivity.
  - split; [reflexivity|].
    unfold logged. cbn [log record tick res_err]. rewrite <- !app_assoc. reflexivity.
Qed.

Lemma getDirectory_missing_parent_reports_PATH_EXISTS_witness :
  let w := Demo.world Demo.fs0 in
  exists w',
    getDirectory (pf := Demo.posix)
      [JStr "/nope/"; JStr "sub"; JObj [("create", JBool true)]] w
    = (Rejected (FileErr FileError.PATH_EXISTS_ERR), w') /\
    files w' = files w /\
    log w' = log w ++ [EvCall (SysStat ("/nope/" +:+ "sub")) (Some ENOENT);
                       EvCall (SysMkdir ("/nope/" +:+ "sub")) (Some ENOENT);
                       EvSettle (Rejected (FileErr FileError.PATH_EXISTS_ERR))].
Proof.
  intros w.
  apply (getDirectory_missing_parent_reports_PATH_EXISTS (pf := Demo.posix)
           w "/nope/" "sub" [("create", JBool true)]).
  - intros t c. reflexivity.
  - reflexivity.
  - vm_compute. reflexivity.
  - vm_compute. reflexivity.
  - reflexivity.
Defined.

(** X6. The create option counts only when it is exactly true.  With a
    value that is truthy without being true (1, "yes", an object) and a path
    that denotes nothing, getFile and getDirectory resolve with an entry for
    the missing path and create nothing. *)
Theorem create_flag_must_be_exactly_true {pf : Platform} :
  (forall (w : World) (p n : string) (o : list (string * jsval)),
     valid_path (p +:+ n) ->
     inject w (clock w) (SysStat (p +:+ n)) = None ->
     node_at (files w) (path_key (p +:+ n)) = Err ENOENT ->
     JS.truthy (JS.assoc "create" o) = true ->
     JS.is_true (JS.assoc "create" o) = false ->
     getFile [JStr p; JStr n; JObj o] w
     = (Resolved (FileEntry (basename (p +:+ n)) (p +:+ n)),
        record (EvSettle (Resolved (FileEntry (basename (p +:+ n)) (p +:+ n))))
               (logged (SysStat (p +:+ n)) (Some ENOENT) w)))
  /\
  (forall (w : World) (p n : string) (o : list (string * jsval)),
     valid_path (p +:+ n) ->
     inject w (clock w) (SysStat (p +:+ n)) = None ->
     node_at (files w) (path_key (p +:+ n)) = Err ENOENT ->
     JS.truthy (JS.assoc "create" o) = true ->
     JS.is_true (JS.assoc "create" o) = false ->
     getDirectory [JStr p; JStr n; JObj o] w
     = (Resolved (DirectoryEntry (basename (p +:+ n)) (p +:+ n)),
        record (EvSettle (Resolved (DirectoryEntry (basename (p +:+ n)) (p +:+ n))))
               (logged (SysStat (p +:+ n)) (Some ENOENT) w))).
Proof.
  split; intros w p n o Hvalid Hinj Hnode Htruthy Hnot.
  - unfold getFile, with_path. flat_args.
    unfold valid_path in Hvalid. rewrite Hvalid.
    unfold bind. rewrite (native_stat_calm _ _ Hinj), Hnode.
    rewrite err_not_ENOENT_missing. cbn [no_err JS.prop negb].
    rewrite Hnot, Htruthy. reflexivity.
  - unfold getDirectory, with_path. flat_args.
    unfold valid_path in Hvalid. rewrite Hvalid.
    unfold bind. rewrite (native_stat_calm _ _ Hinj), Hnode.
    rewrite err_not_ENOENT_missing. cbn [no_err JS.prop negb].
    rewrite Hnot, Htruthy. reflexivity.
Qed.

Lemma create_flag_must_be_exactly_true_witness :
  let w := Demo.world Demo.fs0 in
  getFile (pf := Demo.posix) [JStr "/"; JStr "nope"; JObj [("create", JNum 1)]] w
  = (Resolved (FileEntry "nope" "/nope"),
     record (EvSettle (Resolved (FileEntry "nope" "/nope")))
            (logged (SysStat "/nope") (Some ENOENT) w))
  /\
  getDirectory (pf := Demo.posix) [JStr "/"; JStr "nope"; JObj [("create", JStr "yes")]] w
  = (Resolved (DirectoryEntry "nope" "/nope"),
     record (EvSettle (Resolved (DirectoryEntry "nope" "/nope")))
            (logged (SysStat "/nope") (Some ENOENT) w)).
Proof.
  intros w. split.
  - apply (proj1 (create_flag_must_be_exactly_true (pf := Demo.posix)) w "/" "nope");
      first [reflexivity | vm_compute; reflexivity].
  - apply (proj2 (create_flag_must_be_exactly_true (pf := Demo.posix)) w "/" "nope");
      first [reflexivity | vm_compute; reflexivity].
Defined.

(** X7. An entry of the other kind.  On a path that the probe finds not to
    be a file, getFile is rejected with INVALID_MODIFICATION_ERR when create
    is true (and exclusive is not), and with TYPE_MISMATCH_ERR when create is
    falsy and the entry is a directory; getDirectory likewise, with the two
    kinds exchanged.  In each case the probe is the only native call. *)
Theorem entry_of_the_other_kind {pf : Platform} :
  (forall (w : World) (p n : string) (o : list (string * jsval)) (stats : Stats),
     valid_path (p +:+ n) ->
     probe_finds w (p +:+ n) stats ->
     st_isFile stats = false ->
     JS.assoc "create" o = JBool true ->
     JS.is_true (JS.assoc "exclusive" o) = false ->
     getFile [JStr p; JStr n; JObj o] w
     = (Rejected (FileErr FileError.INVALID_MODIFICATION_ERR),
        record (EvSettle (Rejected (FileErr FileError.INVALID_MODIFICATION_ERR)))
               (logged (SysStat (p +:+ n)) None w)))
  /\
  (forall (w : World) (p n : string) (o : list (string * jsval)) (stats : Stats),
     valid_path (p +:+ n) ->
     probe_finds w (p +:+ n) stats ->
     st_isDirectory stats = true ->
     JS.truthy (JS.assoc "create" o) = false ->
     getFile [JStr p; JStr n; JObj o] w
     = (Rejected (FileErr FileError.TYPE_MISMATCH_ERR),
        record (EvSettle (Rejected (FileErr FileError.TYPE_MISMATCH_ERR)))
               (logged (SysStat (p +:+ n)) None w)))
  /\
  (forall (w : World) (p n : string) (o : list (string * jsval)) (stats : Stats),
     valid_path (p +:+ n) ->
     probe_finds w (p +:+ n) stats ->
     st_isDirectory stats = false ->
     JS.assoc "create" o = JBool true ->
     JS.is_true (JS.assoc "exclusive" o) = false ->
     getDirectory [JStr p; JStr n; JObj o] w
     = (Rejected (FileErr FileError.INVALID_MODIFICATION_ERR),
        record (EvSettle (Rejected (FileErr FileError.INVALID_MODIFICATION_ERR)))
               (logged (SysStat (p +:+ n)) None w)))
  /\
  (forall (w : World) (p n : string) (o : list (string * jsval)) (stats : Stats),
     valid_path (p +:+ n) ->
     probe_finds w (p +:+ n) stats ->
     st_isFile stats = true ->
     JS.truthy (JS.assoc "create" o) = false ->
     getDirectory [JStr p; JStr n; JObj o] w
     = (Rejected (FileErr FileError.TYPE_MISMATCH_ERR),
        record (EvSettle (Rejected (FileErr FileError.TYPE_MISMATCH_ERR)))
               (logged (SysStat (p +:+ n)) None w))).
Proof.
  assert (Hfalsy : forall v, JS.truthy v = false -> JS.is_true v = false).
  { intros [| |[]| | | | | |]; simpl; congruence. }
  repeat split; intros w p n o stats Hvalid Hprobe Hkind Hc.
  - intros Hx. unfold getFile, with_path. flat_args.
    unfold valid_path in Hvalid. rewrite Hvalid.
    unfold bind. rewrite (native_stat_finds _ _ _ Hprobe).
    cbn [err_not_ENOENT no_err JS.prop isFile]. rewrite Hc, Hx, Hkind. reflexivity.
  - unfold getFile, with_path. flat_args.
    unfold valid_path in Hvalid. rewrite Hvalid.
    unfold bind. rewrite (native_stat_finds _ _ _ Hprobe).
    cbn [err_not_ENOENT no_err JS.prop isDirectory].
    rewrite (Hfalsy _ Hc), Hc, Hkind. reflexivity.
  - intros Hx. unfold getDirectory, with_path. flat_args.
    unfold valid_path in Hvalid. rewrite Hvalid.
    unfold bind. rewrite (native_stat_finds _ _ _ Hprobe).
    cbn [err_not_ENOENT no_err JS.prop isDirectory]. rewrite Hc, Hx, Hkind. reflexivity.
  - unfold getDirectory, with_path. flat_args.
    unfold valid_path in Hvalid. rewrite Hvalid.
    unfold bind. rewrite (native_stat_finds _ _ _ Hprobe).
    cbn [err_not_ENOENT no_err JS.prop isFile].
    rewrite (Hfalsy _ Hc), Hc, Hkind. reflexivity.
Qed.

Lemma entry_of_the_other_kind_witness :
  let w := Demo.world Demo.fs0 in
  (getFile (pf := Demo.posix) [JStr "/"; JStr "d"; JObj [("create", JBool true)]] w).1
  = Rejected (FileErr FileError.INVALID_MODIFICATION_ERR) /\
  (getFile (pf := Demo.posix) [JStr "/"; JStr "d"; JObj []] w).1
  = Rejected (FileErr FileError.TYPE_MISMATCH_ERR) /\
  (getDirectory (pf := Demo.posix) [JStr "/"; JStr "f"; JObj [("create", JBool true)]] w).1
  = Rejected (FileErr FileError.INVALID_MODIFICATION_ERR) /\
  (getDirectory (pf := Demo.posix) [JStr "/"; JStr "f"; JObj []] w).1
  = Rejected (FileErr FileError.TYPE_MISMATCH_ERR).
Proof.
  intros w.
  pose proof (entry_of_the_other_kind (pf := Demo.posix)) as (H1 & H2 & H3 & H4).
  assert (Hd : probe_finds w "/d" (stats_of (NDir 0))).
  { split; [reflexivity | exists (NDir 0); split; [vm_compute; reflexivity | reflexivity]]. }
  assert (Hf : probe_finds w "/f" (stats_of (NFile 0 (Demo.bytes "data")))).
  { split; [reflexivity | eexists; split; [vm_compute; reflexivity | reflexivity]]. }
  split; [|split; [|split]].
  - rewrite (H1 w "/" "d" [("create", JBool true)] _ eq_refl Hd eq_refl eq_refl eq_refl).
    reflexivity.
  - rewrite (H2 w "/" "d" [] _ eq_refl Hd eq_refl eq_refl). reflexivity.
  - rewrite (H3 w "/" "f" [("create", JBool true)] _ eq_refl Hf eq_refl eq_refl eq_refl).
    reflexivity.
  - rewrite (H4 w "/" "f" [] _ eq_refl Hf eq_refl eq_refl). reflexivity.
Defined.

(** X8. A probe that fails for another reason than a missing path (the
    parent is a file, a permission is denied) ends getFile and getDirectory
    with INVALID_STATE_ERR whatever the options say, create included; the
    files stay as they are. *)
Theorem probe_failure_is_INVALID_STATE {pf : Platform} :
  (forall (w w1 : World) (p n : string) (options : jsval) (e : Errno),
     valid_path (p +:+ n) ->
     native_stat (p +:+ n) w = (Err e, w1) ->
     e <> ENOENT ->
     getFile [JStr p; JStr n; options] w
     = (Rejected (FileErr FileError.INVALID_STATE_ERR),
        record (EvSettle (Rejected (FileErr FileError.INVALID_STATE_ERR))) w1)
     /\ files w1 = files w)
  /\
  (forall (w w1 : World) (p n : string) (options : jsval) (e : Errno),
     valid_path (p +:+ n) ->
     native_stat (p +:+ n) w = (Err e, w1) ->
     e <> ENOENT ->
     getDirectory [JStr p; JStr n; options] w
     = (Rejected (FileErr FileError.INVALID_STATE_ERR),
        record (EvSettle (Rejected (FileErr FileError.INVALID_STATE_ERR))) w1)
     /\ files w1 = files w).
Proof.
  split; intros w w1 p n options e Hvalid Hstat He.
  - split; [|apply native_stat_world in Hstat; subst; reflexivity].
    unfold getFile, with_path. flat_args.
    unfold valid_path in Hvalid. rewrite Hvalid.
    unfold bind. rewrite Hstat. cbn [err_not_ENOENT].
    rewrite bool_decide_eq_false_2 by exact He. reflexivity.
  - split; [|apply native_stat_world in Hstat; subst; reflexivity].
    unfold getDirectory, with_path. flat_args.
    unfold valid_path in Hvalid. rewrite Hvalid.
    unfold bind. rewrite Hstat. cbn [err_not_ENOENT].
    rewrite bool_decide_eq_false_2 by exact He. reflexivity.
Qed.

Lemma probe_failure_is_INVALID_STATE_witness :
  let w := Demo.world Demo.fs0 in
  (getFile (pf := Demo.posix) [JStr "/f/"; JStr "x"; JObj [("create", JBool true)]] w).1
  = Rejected (FileErr FileError.INVALID_STATE_ERR) /\
  (getDirectory (pf := Demo.posix) [JStr "/f/"; JStr "x"; JObj [("create", JBool true)]] w).1
  = Rejected (FileErr FileError.INVALID_STATE_ERR).
Proof.
  intros w.
  pose proof (probe_failure_is_INVALID_STATE (pf := Demo.posix)) as (H1 & H2).
  split.
  - rewrite (proj1 (H1 w (logged (SysStat "/f/x") (Some ENOTDIR) w) "/f/" "x"
                       (JObj [("create", JBool true)]) ENOTDIR eq_refl eq_refl
                       ltac:(discriminate))).
    reflexivity.
  - rewrite (proj1 (H2 w (logged (SysStat "/f/x") (Some ENOTDIR) w) "/f/" "x"
                       (JObj [("create", JBool true)]) ENOTDIR eq_refl eq_refl
                       ltac:(discriminate))).
    reflexivity.
Defined.

(** *** remove *)

Lemma has_children_below (fs : gmap (list string) Node) (k : list string) :
  has_children fs k = true <-> below fs k.
Proof.
  unfold has_children, below. rewrite existsb_exists. split.
  - intros ([k' n] & Hin & Hb).
    apply list_elem_of_In, elem_of_map_to_list in Hin.
    apply andb_true_iff in Hb as [Hpre Hlen].
    apply negb_true_iff, Nat.eqb_neq in Hlen.
    exists k', n. auto.
  - intros (k' & n & Hin & Hpre & Hlen).
    exists (k', n). split.
    + apply list_elem_of_In, elem_of_map_to_list. exact Hin.
    + cbn. rewrite Hpre. apply Nat.eqb_neq in Hlen. rewrite Hlen. reflexivity.
Qed.

Lemma has_children_insert_self (fs : gmap (list string) Node) (k : list string) (n : Node) :
  has_children fs k = false -> has_children (<[k := n]> fs) k = false.
Proof.
  intros Hnone. destruct (has_children (<[k := n]> fs) k) eqn:Hc; [|reflexivity].
  apply has_children_below in Hc as (k' & n' & Hin & Hpre & Hlen).
  assert (Hne : k <> k') by (intros ->; congruence).
  rewrite lookup_insert_ne in Hin by exact Hne.
  assert (Hb : has_children fs k = true) by (apply has_children_below; exists k', n'; auto).
  congruence.
Qed.

Lemma remove_run (w : World) (p : string) (node : Node) :
  calm w ->
  valid_path p ->
  path_key p <> [] ->
  node_at (files w) (path_key p) = Ok node ->
  (forall t, node = NDir t -> has_children (files w) (path_key p) = false) ->
  exists w',
    remove [JStr p] w = (Resolved VUndefined, w') /\
    files w' = delete (path_key p) (files w) /\
    handles w' = handles w /\
    inject w' = inject w.
Proof.
  intros Hcalm Hvalid Hkey Hnode Hempty.
  destruct (path_key p) as [|a k] eqn:Hk; [congruence|].
  destruct node as [t c|t].
  - eexists. split.
    { unfold remove, with_path. cbn [getArgs JS.arg nth].
      unfold valid_path in Hvalid. rewrite Hvalid.
      unfold bind at 1. rewrite (native_stat_calm _ _ (Hcalm _ _)), Hk, Hnode.
      cbn [stats_of st_isDirectory].
      unfold bind, fs_unlink, native_unlink, native.
      cbn [inject logged tick record clock files]. rewrite Hcalm, Hk, Hnode.
      reflexivity. }
    repeat split.
  - eexists. split.
    { unfold remove, with_path. cbn [getArgs JS.arg nth].
      unfold valid_path in Hvalid. rewrite Hvalid.
      unfold bind at 1. rewrite (native_stat_calm _ _ (Hcalm _ _)), Hk, Hnode.
      cbn [stats_of st_isDirectory].
      unfold bind, fs_rmdir, native_rmdir, native.
      cbn [inject logged tick record clock files JS.prop JS.truthy].
      rewrite Hcalm, Hk, Hnode, (Hempty t eq_refl).
      reflexivity. }
    repeat split.
Qed.

(** X9. remove of a path that denotes a file, or a directory with nothing
    below it, resolves, and the files afterwards are the files before
    without that path: no other path changes, and no handle. *)
Theorem remove_deletes_the_entry (w : World) (p : string) (node : Node) :
  calm w ->
  valid_path p ->
  path_key p <> [] ->
  node_at (files w) (path_key p) = Ok node ->
  (forall t, node = NDir t -> has_children (files w) (path_key p) = false) ->
  exists w',
    remove [JStr p] w = (Resolved VUndefined, w') /\
    files w' = delete (path_key p) (files w) /\
    handles w' = handles w.
Proof.
  intros Hcalm Hvalid Hkey Hnode Hempty.
  destruct (remove_run w p node Hcalm Hvalid Hkey Hnode Hempty)
    as (w' & Hrun & Hfiles & Hhandles & _).
  exists w'. auto.
Qed.

Lemma remove_deletes_the_entry_witness :
  exists w',
    remove [JStr "/d/a"] (Demo.world Demo.fs0) = (Resolved VUndefined, w') /\
    files w' = delete (path_key "/d/a") Demo.fs0 /\
    handles w' = ∅.
Proof.
  apply (remove_deletes_the_entry (Demo.world Demo.fs0) "/d/a" (NFile 0 (Demo.bytes "hello"))).
  - intros t c. reflexivity.
  - reflexivity.
  - vm_compute. discriminate.
  - vm_compute. reflexivity.
  - intros t Ht. discriminate Ht.
Defined.

(** X10. remove of a directory that has something below it is rejected
    with NO_MODIFICATION_ALLOWED_ERR, and the files stay as they are. *)
Theorem remove_keeps_nonempty_directory (w : World) (p : string) (t : Z) :
  calm w ->
  valid_path p ->
  path_key p <> [] ->
  node_at (files w) (path_key p) = Ok (NDir t) ->
  has_children (files w) (path_key p) = true ->
  exists w',
    remove [JStr p] w = (Rejected (FileErr FileError.NO_MODIFICATION_ALLOWED_ERR), w') /\
    files w' = files w.
Proof.
  intros Hcalm Hvalid Hkey Hnode Hfull.
  destruct (path_key p) as [|a k] eqn:Hk; [congruence|].
  eexists. split.
  - unfold remove, with_path. cbn [getArgs JS.arg nth].
    unfold valid_path in Hvalid. rewrite Hvalid.
    unfold bind at 1. rewrite (native_stat_calm _ _ (Hcalm _ _)), Hk, Hnode.
    cbn [stats_of st_isDirectory].
    unfold bind, fs_rmdir, native_rmdir, native.
    cbn [inject logged tick record clock files JS.prop JS.truthy].
    rewrite Hcalm, Hk, Hnode, Hfull.
    reflexivity.
  - reflexivity.
Qed.

Lemma remove_keeps_nonempty_directory_witness :
  exists w',
    remove [JStr "/d/"] (Demo.world Demo.fs0)
    = (Rejected (FileErr FileError.NO_MODIFICATION_ALLOWED_ERR), w') /\
    files w' = Demo.fs0.
Proof.
  apply (remove_keeps_nonempty_directory (Demo.world Demo.fs0) "/d/" 0).
  - intros t c. reflexivity.
  - reflexivity.
  - vm_compute. discriminate.
  - vm_compute. reflexivity.
  - vm_compute. reflexivity.
Defined.

Lemma node_at_missing (fs : gmap (list string) Node) (k : list string) (e : Errno) :
  node_at fs k = Err e -> k <> [] /\ fs !! k = None.
Proof.
  destruct k as [|a k]; [discriminate|].
  unfold node_at. destruct (fs !! (a :: k)); [discriminate|]. auto.
Qed.

Lemma calm_same_env (w w' : World) : calm w -> inject w' = inject w -> calm w'.
Proof. intros Hcalm Heq t c. rewrite Heq. apply Hcalm. Qed.

(** X11. Making a directory and removing it again: getDirectory with create
    true on a missing path below a directory, followed by remove of that
    path, both resolve, and the files are as they were before the two. *)
Theorem getDirectory_then_remove_restores {pf : Platform}
    (w : World) (p n : string) (o : list (string * jsval)) :
  calm w ->
  valid_path (p +:+ n) ->
  node_at (files w) (path_key (p +:+ n)) = Err ENOENT ->
  parent_ok (files w) (path_key (p +:+ n)) = Ok tt ->
  has_children (files w) (path_key (p +:+ n)) = false ->
  JS.assoc "create" o = JBool true ->
  exists w1 w2,
    getDirectory [JStr p; JStr n; JObj o] w
    = (Resolved (DirectoryEntry (basename (p +:+ n)) (p +:+ n)), w1) /\
    remove [JStr (p +:+ n)] w1 = (Resolved VUndefined, w2) /\
    files w2 = files w.
Proof.
  intros Hcalm Hvalid Hnode Hparent Hnone Hc.
  destruct (getDirectory_create_run w p n o Hcalm Hvalid Hnode Hparent Hc)
    as (w1 & Hrun1 & Hfiles1 & _ & Henv1).
  destruct (node_at_missing _ _ _ Hnode) as [Hkey Habsent].
  destruct (remove_run w1 (p +:+ n) (NDir (Z.of_nat (S (clock w)))))
    as (w2 & Hrun2 & Hfiles2 & _).
  - exact (calm_same_env _ _ Hcalm Henv1).
  - exact Hvalid.
  - exact Hkey.
  - rewrite Hfiles1. apply node_at_insert, Hkey.
  - intros _ _. rewrite Hfiles1. apply has_children_insert_self, Hnone.
  - exists w1, w2. split; [exact Hrun1|]. split; [exact Hrun2|].
    rewrite Hfiles2, Hfiles1. apply delete_insert_id, Habsent.
Qed.

Lemma getDirectory_then_remove_restores_witness :
  exists w1 w2,
    getDirectory (pf := Demo.posix)
      [JStr "/d/"; JStr "sub"; JObj [("create", JBool true)]] (Demo.world Demo.fs0)
    = (Resolved (DirectoryEntry "sub" "/d/sub"), w1) /\
    remove [JStr "/d/sub"] w1 = (Resolved VUndefined, w2) /\
    files w2 = Demo.fs0.
Proof.
  apply (getDirectory_then_remove_restores (pf := Demo.posix)
           (Demo.world Demo.fs0) "/d/" "sub").
  - intros t c. reflexivity.
  - reflexivity.
  - vm_compute. reflexivity.
  - vm_compute. reflexivity.
  - vm_compute. reflexivity.
  - reflexivity.
Defined.

(** X12. Creating a file and removing it again: getFile with create true on
    a missing path below a directory, followed by remove of that path, both
    resolve, and the files and the handles are as they were before. *)
Theorem getFile_then_remove_restores {pf : Platform}
    (w : World) (p n : string) (o : list (string * jsval)) :
  calm w ->
  fresh_fd w ->
  valid_path (p +:+ n) ->
  node_at (files w) (path_key (p +:+ n)) = Err ENOENT ->
  parent_ok (files w) (path_key (p +:+ n)) = Ok tt ->
  JS.assoc "create" o = JBool true ->
  exists w1 w2,
    getFile [JStr p; JStr n; JObj o] w
    = (Resolved (FileEntry (basename (p +:+ n)) (p +:+ n)), w1) /\
    remove [JStr (p +:+ n)] w1 = (Resolved VUndefined, w2) /\
    files w2 = files w /\
    handles w2 = handles w.
Proof.
  intros Hcalm Hfresh Hvalid Hnode Hparent Hc.
  destruct (getFile_create_run w p n o Hcalm Hfresh Hvalid Hnode Hparent Hc)
    as (w1 & Hrun1 & Hfiles1 & Hhandles1 & Henv1).
  destruct (node_at_missing _ _ _ Hnode) as [Hkey Habsent].
  destruct (remove_run w1 (p +:+ n) (NFile (Z.of_nat (S (clock w))) []))
    as (w2 & Hrun2 & Hfiles2 & Hhandles2 & _).
  - exact (calm_same_env _ _ Hcalm Henv1).
  - exact Hvalid.
  - exact Hkey.
  - rewrite Hfiles1. apply node_at_insert, Hkey.
  - intros t Ht. discriminate Ht.
  - exists w1, w2. split; [exact Hrun1|]. split; [exact Hrun2|]. split.
    + rewrite Hfiles2, Hfiles1. apply delete_insert_id, Habsent.
    + congruence.
Qed.

Lemma getFile_then_remove_restores_witness :
  exists w1 w2,
    getFile (pf := Demo.posix)
      [JStr "/d/"; JStr "new"; JObj [("create", JBool true)]] (Demo.world Demo.fs0)
    = (Resolved (FileEntry "new" "/d/new"), w1) /\
    remove [JStr "/d/new"] w1 = (Resolved VUndefined, w2) /\
    files w2 = Demo.fs0 /\
    handles w2 = ∅.
Proof.
  apply (getFile_then_remove_restores (pf := Demo.posix)
           (Demo.world Demo.fs0) "/d/" "new").
  - intros t c. reflexivity.
  - reflexivity.
  - reflexivity.
  - vm_compute. reflexivity.
  - vm_compute. reflexivity.
  - reflexivity.
Defined.

(** *** Handles of write and readAs *)

Lemma native_open_inv (p : string) (flag : OpenFlag) (w w' : World) (r : res nat) :
  native_open p flag w = (r, w') ->
  inject w' = inject w /\
  ((exists e, r = Err e /\ handles w' = handles w /\ files w' = files w)
   \/ (r = Ok (next_fd w) /\
       handles w' = <[next_fd w := {| h_key := path_key p; h_flag := flag |}]> (handles w))).
Proof.
  intros H. apply native_inv in H as [(e & _ & -> & ->) | (_ & w0 & Hrun & ->)].
  - split; [reflexivity|]. left. eauto.
  - cbv zeta in Hrun. unfold create_file, alloc_handle in Hrun.
    repeat case_match; injection Hrun as <- <-;
      (split; [reflexivity|]);
      first [ left; eexists; repeat split; reflexivity
            | right; split; reflexivity ].
Qed.

Lemma native_open_read_files (p : string) (w w' : World) (r : res nat) :
  native_open p FlagR w = (r, w') -> files w' = files w.
Proof.
  intros H. apply native_inv in H as [(e & _ & -> & ->) | (_ & w0 & Hrun & ->)].
  - reflexivity.
  - cbv zeta in Hrun. unfold alloc_handle in Hrun.
    repeat case_match; injection Hrun as <- <-; reflexivity.
Qed.

Lemma native_read_world (fd len : nat) (position : jsval) (w w' : World)
    (r : res (list Byte.byte)) :
  native_read fd len position w = (r, w') ->
  w' = logged (SysRead fd len position) (res_err r) w.
Proof.
  intros H. apply native_inv in H as [(e & _ & -> & ->) | (_ & w0 & Hrun & ->)].
  - reflexivity.
  - repeat case_match; injection Hrun as <- <-; reflexivity.
Qed.

Lemma native_write_inv {pf : Platform} (fd : nat) (buf : list Byte.byte) (position : jsval)
    (w w' : World) (r : res nat) :
  native_write fd buf position w = (r, w') ->
  inject w' = inject w /\ handles w' = handles w.
Proof.
  intros H. apply native_inv in H as [(e & _ & -> & ->) | (_ & w0 & Hrun & ->)].
  - split; reflexivity.
  - repeat case_match; injection Hrun as <- <-; split; reflexivity.
Qed.

Lemma native_close_open_handle (fd : nat) (h : Handle) (w : World) :
  inject w (clock w) (SysClose fd) = None ->
  handles w !! fd = Some h ->
  exists w',
    native_close fd w = (Ok tt, w') /\
    handles w' = delete fd (handles w) /\ files w' = files w /\ inject w' = inject w.
Proof.
  intros Hinj Hh. eexists. split.
  - unfold native_close. rewrite (native_run _ _ _ Hinj), Hh. reflexivity.
  - repeat split.
Qed.

(** X13. Unless its promise stays pending, readAs leaves the table of
    handles as it found it, provided the environment fails no close; when
    the promise stays pending (Buffer.alloc threw after the open), the
    handle that was opened is still in the table. *)
Theorem readAs_handles {pf : Platform}
    (what : What) (fullPath encoding startPos endPos : jsval)
    (w w' : World) (o : Outcome) :
  closes w ->
  fresh_fd w ->
  readAs what fullPath encoding startPos endPos w = (o, w') ->
  (o <> Pending -> handles w' = handles w) /\
  (o = Pending -> is_Some (handles w' !! next_fd w)).
Proof.
  intros Hcloses Hfresh. unfold readAs, with_path.
  destruct (as_path fullPath) as [p|].
  2: { intros [= <- <-]. split; [reflexivity | discriminate]. }
  unfold bind at 1. destruct (native_open p FlagR w) as [r w1] eqn:Hopen.
  apply native_open_inv in Hopen as [Henv1 [(e & -> & Hh1 & _) | (-> & Hh1)]].
  { intros [= <- <-]. split; [intros _; exact Hh1 | discriminate]. }
  destruct (Buffer_alloc (JS.sub endPos startPos)) as [len|].
  2: { intros [= <- <-]. split; [congruence|]. intros _. cbn.
       rewrite Hh1, lookup_insert_eq. eauto. }
  unfold bind.
  destruct (fs_read (next_fd w) len startPos w1) as [rr w2] eqn:Hread.
  assert (Hw2 : handles w2 = handles w1 /\ inject w2 = inject w1).
  { unfold fs_read in Hread. destruct (len =? 0)%nat.
    - injection Hread as <- <-. auto.
    - apply native_read_world in Hread. subst w2. auto. }
  destruct Hw2 as [Hh2 Henv2].
  assert (Hclose : forall w3 o0,
             (let '(_, w0) := native_close (next_fd w) (record (EvSettle o0) w2) in (o0, w0))
             = (o, w3) ->
             o = o0 /\ handles w3 = handles w).
  { intros w3 o0 Hrun.
    destruct (native_close_open_handle (next_fd w)
                {| h_key := path_key p; h_flag := FlagR |} (record (EvSettle o0) w2))
      as (w4 & Hc & Hh4 & _).
    - cbn. rewrite Henv2, Henv1. apply Hcloses.
    - cbn. rewrite Hh2, Hh1. apply lookup_insert_eq.
    - rewrite Hc in Hrun. injection Hrun as <- <-. split; [reflexivity|].
      rewrite Hh4. cbn. rewrite Hh2, Hh1. apply delete_insert_id, Hfresh. }
  destruct rr as [buf|e].
  - destruct (represent what buf encoding) as [v|];
      unfold resolve, reject, settle, bind, emit, ret; intros Hrun;
      destruct (Hclose _ _ Hrun) as [-> Hh];
      (split; [intros _; exact Hh | discriminate]).
  - unfold reject, settle, bind, emit, ret. intros Hrun.
    destruct (Hclose _ _ Hrun) as [-> Hh].
    split; [intros _; exact Hh | discriminate].
Qed.

Lemma readAs_handles_witness :
  let w := Demo.world Demo.fs0 in
  (fst (readAs (pf := Demo.posix) text (JStr "/f") (JStr "utf8") (JNum 2) (JNum 0) w) <> Pending ->
   handles (snd (readAs (pf := Demo.posix) text (JStr "/f") (JStr "utf8") (JNum 2) (JNum 0) w))
   = handles w) /\
  (fst (readAs (pf := Demo.posix) text (JStr "/f") (JStr "utf8") (JNum 2) (JNum 0) w) = Pending ->
   is_Some (handles (snd (readAs (pf := Demo.posix) text (JStr "/f") (JStr "utf8")
                                 (JNum 2) (JNum 0) w)) !! next_fd w)).
Proof.
  intros w.
  apply (readAs_handles (pf := Demo.posix) text (JStr "/f") (JStr "utf8") (JNum 2) (JNum 0) w).
  - intros t fd. reflexivity.
  - reflexivity.
  - vm_compute. reflexivity.
Defined.

(** X14. write leaves the table of handles as it found it, whatever its
    arguments and whatever the native open and write give, provided the
    environment fails no close. *)
Theorem write_handles {pf : Platform} (args : list jsval) (w w' : World) (o : Outcome) :
  closes w ->
  fresh_fd w ->
  write args w = (o, w') ->
  handles w' = handles w.
Proof.
  intros Hcloses Hfresh. unfold write.
  destruct (negb (JS.truthy (JS.arg 1 (getArgs args)))); [intros [= <- <-]; reflexivity|].
  destruct (Buffer_from (JS.arg 1 (getArgs args))) as [buf|]; [|intros [= <- <-]; reflexivity].
  destruct (as_path (JS.arg 0 (getArgs args))) as [p|]; [|intros [= <- <-]; reflexivity].
  unfold bind at 1. destruct (native_open p FlagA w) as [r w1] eqn:Hopen.
  apply native_open_inv in Hopen as [Henv1 [(e & -> & Hh1 & _) | (-> & Hh1)]].
  { intros [= <- <-]. exact Hh1. }
  unfold bind.
  destruct (native_write (next_fd w) buf (JS.arg 2 (getArgs args)) w1) as [rw w2] eqn:Hwrite.
  apply native_write_inv in Hwrite as [Henv2 Hh2].
  destruct (native_close_open_handle (next_fd w)
              {| h_key := path_key p; h_flag := FlagA |} w2) as (w3 & Hc & Hh3 & _).
  - rewrite Henv2, Henv1. apply Hcloses.
  - rewrite Hh2, Hh1. apply lookup_insert_eq.
  - rewrite Hc.
    assert (Hback : handles w3 = handles w).
    { rewrite Hh3, Hh2, Hh1. apply delete_insert_id, Hfresh. }
    destruct rw; intros [= <- <-]; exact Hback.
Qed.

Lemma write_handles_witness :
  let w := Demo.world_denying Demo.fs0 denies_write in
  handles (snd (write (pf := Demo.posix) [JStr "/f"; JStr "xy"; JNum 0] w)) = handles w.
Proof.
  intros w.
  apply (write_handles (pf := Demo.posix) [JStr "/f"; JStr "xy"; JNum 0] w
           _ (fst (write (pf := Demo.posix) [JStr "/f"; JStr "xy"; JNum 0] w))).
  - intros t fd. reflexivity.
  - reflexivity.
  - vm_compute. reflexivity.
Defined.

(** *** What readAs reads *)

Lemma read_into_nth (len off : nat) (c : list Byte.byte) (i : nat) :
  (i < len)%nat ->
  nth i (read_into len off c) Byte.x00 = nth (off + i) c Byte.x00.
Proof.
  intros Hi. unfold read_into, zeros.
  destruct (Nat.lt_ge_cases i (length (firstn len (skipn off c)))) as [Hin | Hout].
  - rewrite app_nth1 by exact Hin.
    rewrite List.nth_firstn. apply Nat.ltb_lt in Hi. rewrite Hi.
    apply List.nth_skipn.
  - rewrite app_nth2 by exact Hout.
    rewrite nth_repeat.
    rewrite List.length_firstn, List.length_skipn in Hout.
    symmetry. apply nth_overflow. lia.
Qed.

Lemma read_into_length (len off : nat) (c : list Byte.byte) :
  length (read_into len off c) = len.
Proof.
  unfold read_into, zeros.
  rewrite List.length_app, repeat_length, List.length_firstn. lia.
Qed.

Lemma read_into_all (c : list Byte.byte) : read_into (length c) 0 c = c.
Proof.
  unfold read_into, zeros. cbn [skipn].
  rewrite List.firstn_all, Nat.sub_diag. apply app_nil_r.
Qed.

(** The run of readAs on a file, when no native call is failed. *)
Lemma readAs_file_run {pf : Platform} (what : What) (w : World) (p : string)
    (encoding startPos endPos : jsval) (t : Z) (c : list Byte.byte) (len : nat) :
  calm w ->
  valid_path p ->
  node_at (files w) (path_key p) = Ok (NFile t c) ->
  Buffer_alloc (JS.sub endPos startPos) = Some len ->
  exists w',
    readAs what (JStr p) encoding startPos endPos w
    = (match represent what (read_into len (offset_of startPos 0) c) encoding with
       | Some v => Resolved v
       | None => Rejected (FileErr FileError.NOT_READABLE_ERR)
       end, w') /\
    files w' = files w.
Proof.
  intros Hcalm Hvalid Hnode Hlen.
  assert (Hstart : readAs what (JStr p) encoding startPos endPos w
                   = (let '(rr, w2) :=
                        fs_read (next_fd w) len startPos
                          (logged (SysOpen p FlagR) None
                             (set_handles
                                (<[next_fd w := {| h_key := path_key p; h_flag := FlagR |}]>
                                   (handles w)) (S (next_fd w)) w)) in
                      let '(o, w3) :=
                        match rr with
                        | Ok buf =>
                            match represent what buf encoding with
                            | Some v => resolve v
                            | None => reject FileError.NOT_READABLE_ERR
                            end
                        | Err _ => reject FileError.NOT_READABLE_ERR
                        end w2 in
                      let '(_, w4) := native_close (next_fd w) w3 in (o, w4))).
  { unfold readAs, with_path. unfold valid_path in Hvalid. rewrite Hvalid.
    unfold bind at 1. unfold native_open.
    rewrite (native_run _ _ _ (Hcalm _ _)), Hnode.
    cbn [alloc_handle res_err]. rewrite Hlen. reflexivity. }
  rewrite Hstart. clear Hstart.
  assert (Hread : fs_read (next_fd w) len startPos
                    (logged (SysOpen p FlagR) None
                       (set_handles
                          (<[next_fd w := {| h_key := path_key p; h_flag := FlagR |}]>
                             (handles w)) (S (next_fd w)) w))
                  = (Ok (read_into len (offset_of startPos 0) c),
                     if (len =? 0)%nat then
                       logged (SysOpen p FlagR) None
                         (set_handles
                            (<[next_fd w := {| h_key := path_key p; h_flag := FlagR |}]>
                               (handles w)) (S (next_fd w)) w)
                     else
                       logged (SysRead (next_fd w) len startPos) None
                         (logged (SysOpen p FlagR) None
                            (set_handles
                               (<[next_fd w := {| h_key := path_key p; h_flag := FlagR |}]>
                                  (handles w)) (S (next_fd w)) w)))).
  { unfold fs_read. destruct (len =? 0)%nat eqn:Hzero.
    - apply Nat.eqb_eq in Hzero. subst len. reflexivity.
    - unfold native_read, native.
      cbn [inject logged tick record clock files set_handles handles next_fd].
      rewrite Hcalm, lookup_insert_eq, Hnode. reflexivity. }
  rewrite Hread. clear Hread.
  assert (Hclose : forall o,
             exists w',
               (let '(_, w4) :=
                  native_close (next_fd w)
                    (record (EvSettle o)
                       (if (len =? 0)%nat then
                          logged (SysOpen p FlagR) None
                            (set_handles
                               (<[next_fd w := {| h_key := path_key p; h_flag := FlagR |}]>
                                  (handles w)) (S (next_fd w)) w)
                        else
                          logged (SysRead (next_fd w) len startPos) None
                            (logged (SysOpen p FlagR) None
                               (set_handles
                                  (<[next_fd w := {| h_key := path_key p; h_flag := FlagR |}]>
                                     (handles w)) (S (next_fd w)) w)))) in
                (o, w4)) = (o, w') /\ files w' = files w).
  { intros o. unfold native_close, native.
    destruct (len =? 0)%nat;
      cbn [inject logged tick record clock files set_handles handles next_fd];
      rewrite Hcalm, lookup_insert_eq; eexists; split; reflexivity. }
  destruct (represent what (read_into len (offset_of startPos 0) c) encoding) as [v|].
  - apply (Hclose (Resolved v)).
  - apply (Hclose (Rejected (FileErr FileError.NOT_READABLE_ERR))).
Qed.

(** X15. readAsArrayBuffer of a file over the range from startPos to endPos
    resolves with exactly endPos - startPos bytes: byte i of the result is
    byte startPos + i of the file, and 0 where the file has ended.  A range
    that reaches beyond the file is no error.  The files are not changed. *)
Theorem readAsArrayBuffer_bytes {pf : Platform}
    (w : World) (p : string) (t : Z) (c : list Byte.byte) (s e : Z) :
  calm w ->
  valid_path p ->
  node_at (files w) (path_key p) = Ok (NFile t c) ->
  0 <= s <= e ->
  e - s <= kMaxLength ->
  exists b w',
    readAsArrayBuffer [JStr p; JNum s; JNum e] w = (Resolved (VBuffer b), w') /\
    Z.of_nat (length b) = e - s /\
    (forall i, (i < length b)%nat -> nth i b Byte.x00 = nth (Z.to_nat s + i) c Byte.x00) /\
    files w' = files w.
Proof.
  intros Hcalm Hvalid Hnode Hrange Hmax.
  assert (Hlen : Buffer_alloc (JS.sub (JNum e) (JNum s)) = Some (Z.to_nat (e - s))).
  { cbn [JS.sub JS.to_number Buffer_alloc].
    assert (H1 : (0 <=? e - s) = true) by (apply Z.leb_le; lia).
    assert (H2 : (e - s <=? kMaxLength) = true) by (apply Z.leb_le; lia).
    rewrite H1, H2. reflexivity. }
  destruct (readAs_file_run arrayBuffer w p JNull (JNum s) (JNum e) t c _
              Hcalm Hvalid Hnode Hlen) as (w' & Hrun & Hfiles).
  cbn [represent offset_of] in Hrun.
  assert (Hs : (0 <=? s) = true) by (apply Z.leb_le; lia).
  rewrite Hs in Hrun.
  exists (read_into (Z.to_nat (e - s)) (Z.to_nat s) c), w'.
  split; [exact Hrun|]. split; [|split; [|exact Hfiles]].
  - rewrite read_into_length. lia.
  - intros i Hi. rewrite read_into_length in Hi. apply read_into_nth, Hi.
Qed.

Lemma readAsArrayBuffer_bytes_witness :
  exists b w',
    readAsArrayBuffer (pf := Demo.posix) [JStr "/f"; JNum 2; JNum 7] (Demo.world Demo.fs0)
    = (Resolved (VBuffer b), w') /\
    Z.of_nat (length b) = 7 - 2 /\
    (forall i, (i < length b)%nat ->
               nth i b Byte.x00 = nth (Z.to_nat 2 + i) (Demo.bytes "data") Byte.x00) /\
    files w' = files (Demo.world Demo.fs0).
Proof.
  apply (readAsArrayBuffer_bytes (pf := Demo.posix) (Demo.world Demo.fs0) "/f" 0).
  - intros t c. reflexivity.
  - reflexivity.
  - vm_compute. reflexivity.
  - lia.
  - vm_compute. discriminate.
Defined.

(** *** What write writes *)

(** The run of write on a path that denotes nothing, below a directory,
    when no native call is failed. *)
Lemma write_fresh_run {pf : Platform} (w : World) (f : string) (data position : jsval)
    (buf : list Byte.byte) :
  calm w ->
  valid_path f ->
  node_at (files w) (path_key f) = Err ENOENT ->
  parent_ok (files w) (path_key f) = Ok tt ->
  JS.truthy data = true ->
  Buffer_from data = Some buf ->
  exists w',
    write [JStr f; data; position] w
    = (Resolved (VWritten (Z.of_nat (length buf)) buf), w') /\
    files w'
    = <[path_key f :=
          NFile (Z.of_nat (S (clock w)))
                (write_at (if positional_append then offset_of position 0 else 0%nat) buf [])]>
        (files w) /\
    inject w' = inject w.
Proof.
  intros Hcalm Hvalid Hnode Hparent Htruthy Hbuf.
  destruct (node_at_missing _ _ _ Hnode) as [Hkey _].
  eexists. split.
  { unfold write. cbn [getArgs JS.arg nth]. rewrite Htruthy, Hbuf. cbn [negb].
    unfold valid_path in Hvalid. rewrite Hvalid.
    unfold bind at 1. unfold native_open.
    rewrite (native_run _ _ _ (Hcalm _ _)), Hnode.
    unfold create_file. rewrite Hparent. cbn [alloc_handle res_err].
    unfold bind at 1. unfold native_write, native.
    cbn [inject logged tick record clock files set_handles set_files handles next_fd].
    rewrite Hcalm, lookup_insert_eq, (node_at_insert _ _ _ Hkey).
    cbn [length res_err].
    unfold bind, native_close, native.
    cbn [inject logged tick record clock files set_handles set_files handles next_fd].
    rewrite Hcalm, lookup_insert_eq. reflexivity. }
  split; [|reflexivity].
  cbn [files logged tick record set_handles set_files now clock].
  apply insert_insert_eq.
Qed.

(** X16. Writing to a fresh file and reading it back: write of a payload at
    position 0 to a path that denotes nothing, below a directory, resolves
    with the object that holds the number of bytes written, which is the
    length of the payload, and the buffer written; readAsArrayBuffer of the
    range from 0 to that number then resolves with the bytes of the
    payload. *)
Theorem write_then_read_round_trip {pf : Platform}
    (w : World) (f : string) (data : jsval) (buf : list Byte.byte) :
  calm w ->
  valid_path f ->
  node_at (files w) (path_key f) = Err ENOENT ->
  parent_ok (files w) (path_key f) = Ok tt ->
  JS.truthy data = true ->
  Buffer_from data = Some buf ->
  Z.of_nat (length buf) <= kMaxLength ->
  exists w1 w2,
    write [JStr f; data; JNum 0] w = (Resolved (VWritten (Z.of_nat (length buf)) buf), w1) /\
    readAsArrayBuffer [JStr f; JNum 0; JNum (Z.of_nat (length buf))] w1
    = (Resolved (VBuffer buf), w2).
Proof.
  intros Hcalm Hvalid Hnode Hparent Htruthy Hbuf Hmax.
  destruct (write_fresh_run w f data (JNum 0) buf Hcalm Hvalid Hnode Hparent Htruthy Hbuf)
    as (w1 & Hwrite & Hfiles1 & Henv1).
  destruct (node_at_missing _ _ _ Hnode) as [Hkey _].
  assert (Hcontent : write_at (if positional_append then offset_of (JNum 0) 0 else 0%nat)
                              buf [] = buf).
  { cbn [offset_of Z.leb Z.compare Z.to_nat]. destruct positional_append;
      unfold write_at; cbn [firstn Nat.add]; rewrite List.skipn_nil; apply app_nil_r. }
  rewrite Hcontent in Hfiles1.
  assert (Hlen : Buffer_alloc (JS.sub (JNum (Z.of_nat (length buf))) (JNum 0))
                 = Some (length buf)).
  { cbn [JS.sub JS.to_number Buffer_alloc]. rewrite Z.sub_0_r.
    assert (H1 : (0 <=? Z.of_nat (length buf)) = true) by (apply Z.leb_le; lia).
    assert (H2 : (Z.of_nat (length buf) <=? kMaxLength) = true) by (apply Z.leb_le; lia).
    rewrite H1, H2, Nat2Z.id. reflexivity. }
  destruct (readAs_file_run arrayBuffer w1 f JNull (JNum 0) (JNum (Z.of_nat (length buf)))
              (Z.of_nat (S (clock w))) buf (length buf)) as (w2 & Hread & _).
  - exact (calm_same_env _ _ Hcalm Henv1).
  - exact Hvalid.
  - rewrite Hfiles1. apply node_at_insert, Hkey.
  - exact Hlen.
  - exists w1, w2. split; [exact Hwrite|].
    cbn [represent offset_of Z.leb Z.compare Z.to_nat] in Hread.
    rewrite read_into_all in Hread. exact Hread.
Qed.

Lemma write_then_read_round_trip_witness :
  exists w1 w2,
    write (pf := Demo.posix) [JStr "/d/new"; JStr "xyz"; JNum 0] (Demo.world Demo.fs0)
    = (Resolved (VWritten (Z.of_nat (length (Demo.bytes "xyz"))) (Demo.bytes "xyz")), w1) /\
    readAsArrayBuffer (pf := Demo.posix)
      [JStr "/d/new"; JNum 0; JNum (Z.of_nat (length (Demo.bytes "xyz")))] w1
    = (Resolved (VBuffer (Demo.bytes "xyz")), w2).
Proof.
  apply (write_then_read_round_trip (pf := Demo.posix) (Demo.world Demo.fs0)
           "/d/new" (JStr "xyz") (Demo.bytes "xyz")).
  - intros t c. reflexivity.
  - reflexivity.
  - vm_compute. reflexivity.
  - vm_compute. reflexivity.
  - reflexivity.
  - reflexivity.
  - vm_compute. discriminate.
Defined.

(** X17. readAs on a directory: the open with flag 'r' succeeds, the read
    fails, and the operation is rejected with NOT_READABLE_ERR (not with
    NOT_FOUND_ERR), for each of the four representations and every range of
    a positive length.  The files are not changed. *)
Theorem readAs_directory_not_readable {pf : Platform} (what : What) (w : World) (p : string)
    (encoding startPos endPos : jsval) (t : Z) (len : nat) :
  calm w ->
  valid_path p ->
  node_at (files w) (path_key p) = Ok (NDir t) ->
  Buffer_alloc (JS.sub endPos startPos) = Some len ->
  len <> 0%nat ->
  exists w',
    readAs what (JStr p) encoding startPos endPos w
    = (Rejected (FileErr FileError.NOT_READABLE_ERR), w') /\
    files w' = files w.
Proof.
  intros Hcalm Hvalid Hnode Hlen Hpos.
  apply Nat.eqb_neq in Hpos.
  eexists. split.
  { unfold readAs, with_path. unfold valid_path in Hvalid. rewrite Hvalid.
    unfold bind at 1. unfold native_open.
    rewrite (native_run _ _ _ (Hcalm _ _)), Hnode.
    cbn [alloc_handle res_err]. rewrite Hlen.
    unfold fs_read. rewrite Hpos. unfold bind at 1.
    unfold native_read, native.
    cbn [inject logged tick record clock files set_handles handles next_fd].
    rewrite Hcalm, lookup_insert_eq, Hnode. cbn [res_err].
    unfold reject, settle, bind, emit, ret, native_close, native.
    cbn [inject logged tick record clock files set_handles handles next_fd].
    rewrite Hcalm, lookup_insert_eq. reflexivity. }
  reflexivity.
Qed.

Lemma readAs_directory_not_readable_witness :
  exists w',
    readAs (pf := Demo.posix) arrayBuffer (JStr "/d") JNull (JNum 0) (JNum 4)
           (Demo.world Demo.fs0)
    = (Rejected (FileErr FileError.NOT_READABLE_ERR), w') /\
    files w' = files (Demo.world Demo.fs0).
Proof.
  apply (readAs_directory_not_readable (pf := Demo.posix) arrayBuffer (Demo.world Demo.fs0)
           "/d" JNull (JNum 0) (JNum 4) 0 4).
  - intros t c. reflexivity.
  - reflexivity.
  - vm_compute. reflexivity.
  - reflexivity.
  - discriminate.
Defined.

(** X18. readAsText with an encoding that Buffer.toString refuses: the
    file is opened and read, the conversion throws in the handler that
    should resolve, and the operation is rejected with NOT_READABLE_ERR. *)
Theorem readAsText_unknown_encoding {pf : Platform} (w : World) (p : string)
    (encoding startPos endPos : jsval) (t : Z) (c : list Byte.byte) (len : nat) :
  calm w ->
  valid_path p ->
  node_at (files w) (path_key p) = Ok (NFile t c) ->
  Buffer_alloc (JS.sub endPos startPos) = Some len ->
  Buffer_toString (read_into len (offset_of startPos 0) c) encoding = None ->
  exists w',
    readAsText [JStr p; encoding; startPos; endPos] w
    = (Rejected (FileErr FileError.NOT_READABLE_ERR), w') /\
    files w' = files w.
Proof.
  intros Hcalm Hvalid Hnode Hlen Henc.
  destruct (readAs_file_run text w p encoding startPos endPos t c len
              Hcalm Hvalid Hnode Hlen) as (w' & Hrun & Hfiles).
  cbn [represent] in Hrun. rewrite Henc in Hrun.
  exists w'. split; [exact Hrun | exact Hfiles].
Qed.

Lemma readAsText_unknown_encoding_witness :
  exists w',
    readAsText (pf := Demo.posix) [JStr "/f"; JStr "klingon"; JNum 0; JNum 2]
               (Demo.world Demo.fs0)
    = (Rejected (FileErr FileError.NOT_READABLE_ERR), w') /\
    files w' = files (Demo.world Demo.fs0).
Proof.
  apply (readAsText_unknown_encoding (pf := Demo.posix) (Demo.world Demo.fs0) "/f"
           (JStr "klingon") (JNum 0) (JNum 2) 0 (Demo.bytes "data") 2).
  - intros t c. reflexivity.
  - reflexivity.
  - vm_compute. reflexivity.
  - reflexivity.
  - reflexivity.
Defined.

Lemma write_at_end (buf c : list Byte.byte) : write_at (length c) buf c = c ++ buf.
Proof.
  unfold write_at, zeros. rewrite Nat.sub_diag. cbn [repeat].
  rewrite app_nil_r, List.firstn_all.
  rewrite List.skipn_all2 by lia. rewrite app_nil_r. reflexivity.
Qed.

(** X19. Where the kernel ignores the position of a write on a handle
    opened for appending (Linux), write on an existing file appends: the
    payload follows the old content whatever the position argument is, and
    the operation resolves with the object that holds the number of bytes
    written, which is the length of the payload, and the buffer written. *)
Theorem write_appends_where_position_is_ignored {pf : Platform}
    (w : World) (f : string) (data position : jsval)
    (buf : list Byte.byte) (t : Z) (c : list Byte.byte) :
  positional_append = false ->
  calm w ->
  valid_path f ->
  node_at (files w) (path_key f) = Ok (NFile t c) ->
  JS.truthy data = true ->
  Buffer_from data = Some buf ->
  exists w',
    write [JStr f; data; position] w
    = (Resolved (VWritten (Z.of_nat (length buf)) buf), w') /\
    files w' = <[path_key f := NFile (Z.of_nat (S (clock w))) (c ++ buf)]> (files w).
Proof.
  intros Hlinux Hcalm Hvalid Hnode Htruthy Hbuf.
  eexists. split.
  { unfold write. cbn [getArgs JS.arg nth]. rewrite Htruthy, Hbuf. cbn [negb].
    unfold valid_path in Hvalid. rewrite Hvalid.
    unfold bind at 1. unfold native_open.
    rewrite (native_run _ _ _ (Hcalm _ _)), Hnode.
    cbn [alloc_handle res_err].
    unfold bind at 1. unfold native_write, native.
    cbn [inject logged tick record clock files set_handles set_files handles next_fd].
    rewrite Hcalm, lookup_insert_eq, Hnode, Hlinux, write_at_end.
    cbn [res_err].
    unfold bind, native_close, native.
    cbn [inject logged tick record clock files set_handles set_files handles next_fd].
    rewrite Hcalm, lookup_insert_eq. reflexivity. }
  reflexivity.
Qed.

Lemma write_appends_where_position_is_ignored_witness :
  exists w',
    write (pf := Demo.posix) [JStr "/f"; JStr "xy"; JNum 0] (Demo.world Demo.fs0)
    = (Resolved (VWritten (Z.of_nat (length (Demo.bytes "xy"))) (Demo.bytes "xy")), w') /\
    files w' = <[path_key "/f" := NFile (Z.of_nat (S (clock (Demo.world Demo.fs0))))
                                        (Demo.bytes "data" ++ Demo.bytes "xy")]>
                 (files (Demo.world Demo.fs0)).
Proof.
  apply (write_appends_where_position_is_ignored (pf := Demo.posix) (Demo.world Demo.fs0)
           "/f" (JStr "xy") (JNum 0) (Demo.bytes "xy") 0 (Demo.bytes "data")).
  - reflexivity.
  - intros t c. reflexivity.
  - reflexivity.
  - vm_compute. reflexivity.
  - reflexivity.
  - reflexivity.
Defined.

(** *** copyTo and moveTo *)

Lemma getFile_plain_run {pf : Platform} (w : World) (d n : string) (t : Z)
    (c : list Byte.byte) :
  inject w (clock w) (SysStat (d +:+ n)) = None ->
  valid_path (d +:+ n) ->
  node_at (files w) (path_key (d +:+ n)) = Ok (NFile t c) ->
  getFile [JStr d; JStr n] w
  = (Resolved (FileEntry (basename (d +:+ n)) (d +:+ n)),
     record (EvSettle (Resolved (FileEntry (basename (d +:+ n)) (d +:+ n))))
            (logged (SysStat (d +:+ n)) None w)).
Proof.
  intros Hinj Hvalid Hnode.
  unfold getFile, with_path. flat_args.
  unfold valid_path in Hvalid. rewrite Hvalid.
  unfold bind. rewrite (native_stat_calm _ _ Hinj), Hnode. reflexivity.
Qed.

Lemma node_at_file_key (fs : gmap (list string) Node) (k : list string) (t : Z)
    (c : list Byte.byte) :
  node_at fs k = Ok (NFile t c) -> k <> [] /\ fs !! k = Some (NFile t c).
Proof.
  destruct k as [|a k]; [discriminate|].
  unfold node_at. destruct (fs !! (a :: k)) as [n|] eqn:Hl.
  - intros [= ->]. auto.
  - repeat case_match; discriminate.
Qed.

Lemma node_at_insert_other (fs : gmap (list string) Node) (k k' : list string)
    (t : Z) (c : list Byte.byte) (v : Node) :
  node_at fs k = Ok (NFile t c) -> k <> k' ->
  node_at (<[k' := v]> fs) k = Ok (NFile t c).
Proof.
  intros Hnode Hne. apply node_at_file_key in Hnode as [Hk Hl].
  destruct k as [|a k]; [congruence|].
  unfold node_at. rewrite lookup_insert_ne by congruence. rewrite Hl. reflexivity.
Qed.

(** A destination at which fs.copyFile can write: a file, or nothing below
    a directory. *)
Lemma copyFile_run (w : World) (src dst : string) (t : Z) (c : list Byte.byte) :
  inject w (clock w) (SysCopyFile src dst) = None ->
  node_at (files w) (path_key src) = Ok (NFile t c) ->
  path_key src <> path_key dst ->
  ((exists t' c', node_at (files w) (path_key dst) = Ok (NFile t' c'))
   \/ (node_at (files w) (path_key dst) = Err ENOENT /\
       parent_ok (files w) (path_key dst) = Ok tt)) ->
  native_copyFile src dst w
  = (Ok tt, logged (SysCopyFile src dst) None
              (set_files (<[path_key dst := NFile (now w) c]> (files w)) w)).
Proof.
  intros Hinj Hsrc Hne Hdst.
  rewrite (native_copyFile_run _ _ _ Hinj). unfold copy_body. cbv zeta.
  rewrite Hsrc.
  destruct Hdst as [(t' & c' & Hd) | [Hd Hp]]; rewrite Hd; [|rewrite Hp].
  - rewrite bool_decide_eq_false_2 by exact Hne. reflexivity.
  - reflexivity.
Qed.

Lemma copyTo_run {pf : Platform} (w : World) (src d n : string) (t : Z) (c : list Byte.byte) :
  calm w ->
  valid_path src ->
  valid_path (d +:+ n) ->
  node_at (files w) (path_key src) = Ok (NFile t c) ->
  path_key src <> path_key (d +:+ n) ->
  ((exists t' c', node_at (files w) (path_key (d +:+ n)) = Ok (NFile t' c'))
   \/ (node_at (files w) (path_key (d +:+ n)) = Err ENOENT /\
       parent_ok (files w) (path_key (d +:+ n)) = Ok tt)) ->
  exists w',
    copyTo [JStr src; JStr d; JStr n] w
    = (Resolved (FileEntry (basename (d +:+ n)) (d +:+ n)), w') /\
    files w' = <[path_key (d +:+ n) := NFile (Z.of_nat (clock w)) c]> (files w) /\
    handles w' = handles w /\
    inject w' = inject w.
Proof.
  intros Hcalm Hvsrc Hvdst Hsrc Hne Hdst.
  assert (Hkd : path_key (d +:+ n) <> []).
  { destruct Hdst as [(t' & c' & Hd) | [Hd _]].
    - apply node_at_file_key in Hd. tauto.
    - apply node_at_missing in Hd. tauto. }
  eexists. split.
  { unfold copyTo. flat_args.
    unfold valid_path in Hvsrc, Hvdst. rewrite Hvsrc, Hvdst.
    unfold bind at 1.
    rewrite (copyFile_run w src (d +:+ n) t c (Hcalm _ _) Hsrc Hne Hdst).
    unfold bind.
    rewrite (getFile_plain_run _ d n (now w) c).
    - reflexivity.
    - apply Hcalm.
    - exact Hvdst.
    - cbn [files logged tick record set_files]. apply node_at_insert, Hkd. }
  repeat split.
Qed.

(** X20. copyTo of a file to a destination that is a file, or that denotes
    nothing below a directory: the operation resolves with the file entry of
    the destination, the destination holds the content of the source, and
    every other path, the source among them, is as before. *)
Theorem copyTo_copies_content {pf : Platform}
    (w : World) (src d n : string) (t : Z) (c : list Byte.byte) :
  calm w ->
  valid_path src ->
  valid_path (d +:+ n) ->
  node_at (files w) (path_key src) = Ok (NFile t c) ->
  path_key src <> path_key (d +:+ n) ->
  ((exists t' c', node_at (files w) (path_key (d +:+ n)) = Ok (NFile t' c'))
   \/ (node_at (files w) (path_key (d +:+ n)) = Err ENOENT /\
       parent_ok (files w) (path_key (d +:+ n)) = Ok tt)) ->
  exists w',
    copyTo [JStr src; JStr d; JStr n] w
    = (Resolved (FileEntry (basename (d +:+ n)) (d +:+ n)), w') /\
    files w' = <[path_key (d +:+ n) := NFile (Z.of_nat (clock w)) c]> (files w).
Proof.
  intros Hcalm Hvsrc Hvdst Hsrc Hne Hdst.
  destruct (copyTo_run w src d n t c Hcalm Hvsrc Hvdst Hsrc Hne Hdst)
    as (w' & Hrun & Hfiles & _).
  exists w'. auto.
Qed.

Lemma copyTo_copies_content_witness :
  exists w',
    copyTo (pf := Demo.posix) [JStr "/f"; JStr "/d/"; JStr "a"] (Demo.world Demo.fs0)
    = (Resolved (FileEntry "a" "/d/a"), w') /\
    files w' = <[path_key "/d/a" := NFile 0 (Demo.bytes "data")]> Demo.fs0.
Proof.
  apply (copyTo_copies_content (pf := Demo.posix) (Demo.world Demo.fs0) "/f" "/d/" "a" 0).
  - intros t c. reflexivity.
  - reflexivity.
  - reflexivity.
  - vm_compute. reflexivity.
  - vm_compute. discriminate.
  - left. exists 0, (Demo.bytes "hello"). vm_compute. reflexivity.
Defined.

(** X21. moveTo of a file to another path at which copyFile can write: the
    operation resolves with the file entry of the destination; afterwards
    the destination holds the content of the source, the source path is not
    in the files any more, and every other path is as before. *)
Theorem moveTo_moves_content {pf : Platform}
    (w : World) (src d n : string) (t : Z) (c : list Byte.byte) :
  calm w ->
  valid_path src ->
  valid_path (d +:+ n) ->
  node_at (files w) (path_key src) = Ok (NFile t c) ->
  path_key src <> path_key (d +:+ n) ->
  ((exists t' c', node_at (files w) (path_key (d +:+ n)) = Ok (NFile t' c'))
   \/ (node_at (files w) (path_key (d +:+ n)) = Err ENOENT /\
       parent_ok (files w) (path_key (d +:+ n)) = Ok tt)) ->
  exists w',
    moveTo [JStr src; JStr d; JStr n] w
    = (Resolved (FileEntry (basename (d +:+ n)) (d +:+ n)), w') /\
    files w'
    = delete (path_key src)
             (<[path_key (d +:+ n) := NFile (Z.of_nat (clock w)) c]> (files w)).
Proof.
  intros Hcalm Hvsrc Hvdst Hsrc Hne Hdst.
  destruct (copyTo_run w src d n t c Hcalm Hvsrc Hvdst Hsrc Hne Hdst)
    as (w1 & Hcopy & Hfiles1 & _ & Henv1).
  destruct (node_at_file_key _ _ _ _ Hsrc) as [Hks _].
  destruct (remove_run w1 src (NFile t c)) as (w2 & Hremove & Hfiles2 & _).
  - exact (calm_same_env _ _ Hcalm Henv1).
  - exact Hvsrc.
  - exact Hks.
  - rewrite Hfiles1. apply node_at_insert_other; assumption.
  - intros t0 Ht0. discriminate Ht0.
  - eexists. split.
    + unfold moveTo. cbn [getArgs JS.arg nth]. unfold bind at 1. rewrite Hcopy.
      cbn [and_then]. unfold bind. rewrite Hremove. reflexivity.
    + cbn [files record]. rewrite Hfiles2, Hfiles1. reflexivity.
Qed.

Lemma moveTo_moves_content_witness :
  exists w',
    moveTo (pf := Demo.posix) [JStr "/f"; JStr "/d/"; JStr "g"] (Demo.world Demo.fs0)
    = (Resolved (FileEntry "g" "/d/g"), w') /\
    files w' = delete (path_key "/f")
                      (<[path_key "/d/g" := NFile 0 (Demo.bytes "data")]> Demo.fs0).
Proof.
  apply (moveTo_moves_content (pf := Demo.posix) (Demo.world Demo.fs0) "/f" "/d/" "g" 0).
  - intros t c. reflexivity.
  - reflexivity.
  - reflexivity.
  - vm_compute. reflexivity.
  - vm_compute. discriminate.
  - right. split; vm_compute; reflexivity.
Defined.

(** X22. moveTo of a file onto itself (the destination resolves to the
    path of the source): copyFile leaves the file alone, the remove step
    then deletes it, and moveTo resolves; the file is gone and its content
    is nowhere. *)
Theorem moveTo_onto_itself_deletes {pf : Platform}
    (w : World) (src d n : string) (t : Z) (c : list Byte.byte) :
  calm w ->
  valid_path src ->
  valid_path (d +:+ n) ->
  node_at (files w) (path_key src) = Ok (NFile t c) ->
  path_key src = path_key (d +:+ n) ->
  exists w',
    moveTo [JStr src; JStr d; JStr n] w
    = (Resolved (FileEntry (basename (d +:+ n)) (d +:+ n)), w') /\
    files w' = delete (path_key src) (files w).
Proof.
  intros Hcalm Hvsrc Hvdst Hsrc Hsame.
  destruct (node_at_file_key _ _ _ _ Hsrc) as [Hks _].
  assert (Hcopy : exists w1,
             copyTo [JStr src; JStr d; JStr n] w
             = (Resolved (FileEntry (basename (d +:+ n)) (d +:+ n)), w1) /\
             files w1 = files w /\ inject w1 = inject w).
  { eexists. split.
    { unfold copyTo. flat_args.
      pose proof Hvsrc as Hvs. pose proof Hvdst as Hvd.
      unfold valid_path in Hvs, Hvd. rewrite Hvs, Hvd.
      unfold bind at 1.
      rewrite (native_copyFile_run _ _ _ (Hcalm _ _)). unfold copy_body. cbv zeta.
      rewrite Hsrc. rewrite <- Hsame, Hsrc, bool_decide_eq_true_2 by reflexivity.
      unfold bind.
      rewrite (getFile_plain_run _ d n t c).
      - reflexivity.
      - apply Hcalm.
      - exact Hvdst.
      - cbn [files logged tick record]. rewrite <- Hsame. exact Hsrc. }
    split; reflexivity. }
  destruct Hcopy as (w1 & Hcopy & Hfiles1 & Henv1).
  destruct (remove_run w1 src (NFile t c)) as (w2 & Hremove & Hfiles2 & _).
  - exact (calm_same_env _ _ Hcalm Henv1).
  - exact Hvsrc.
  - exact Hks.
  - rewrite Hfiles1. exact Hsrc.
  - intros t0 Ht0. discriminate Ht0.
  - eexists. split.
    + unfold moveTo. cbn [getArgs JS.arg nth]. unfold bind at 1. rewrite Hcopy.
      cbn [and_then]. unfold bind. rewrite Hremove. reflexivity.
    + cbn [files record]. rewrite Hfiles2, Hfiles1. reflexivity.
Qed.

Lemma moveTo_onto_itself_deletes_witness :
  exists w',
    moveTo (pf := Demo.posix) [JStr "/f"; JStr "/"; JStr "f"] (Demo.world Demo.fs0)
    = (Resolved (FileEntry "f" "/f"), w') /\
    files w' = delete (path_key "/f") (files (Demo.world Demo.fs0)).
Proof.
  apply (moveTo_onto_itself_deletes (pf := Demo.posix) (Demo.world Demo.fs0)
           "/f" "/" "f" 0 (Demo.bytes "data")).
  - intros t c. reflexivity.
  - reflexivity.
  - reflexivity.
  - vm_compute. reflexivity.
  - vm_compute. reflexivity.
Defined.

(** A copy that was given up has touched nothing but its destination. *)
Lemma given_up_frame (ks kd : list string) (fs : gmap (list string) Node) :
  given_up ks kd fs !! ks = fs !! ks /\
  (forall k, k <> kd -> given_up ks kd fs !! k = fs !! k).
Proof.
  unfold given_up.
  destruct (node_at fs ks) as [ns|es]; [|auto].
  destruct (node_at fs kd) as [[td cd|td]|ed]; [|auto..].
  case_bool_decide as Hsame; [auto|].
  split.
  - apply lookup_delete_ne. congruence.
  - intros k Hk. apply lookup_delete_ne. congruence.
Qed.

(** A copy that fails makes one native call, and touches nothing but its
    destination. *)
Lemma native_copyFile_failed (src dst : string) (w w1 : World) (e : Errno) :
  native_copyFile src dst w = (Err e, w1) ->
  log w1 = log w ++ [EvCall (SysCopyFile src dst) (Some e)] /\
  files w1 !! path_key src = files w !! path_key src /\
  (forall k, k <> path_key dst -> files w1 !! k = files w !! k).
Proof.
  unfold native_copyFile. cbv zeta.
  destruct (inject w (clock w) (SysCopyFile src dst)) as [e'|].
  - intros [= -> <-]. cbn [log files tick record set_files].
    split; [reflexivity|].
    destruct (strikes_while_copying e); [apply given_up_frame | auto].
  - destruct (copy_body src dst w) as [r w0] eqn:Hrun. intros [= -> <-].
    cbn [log files tick record res_err].
    unfold copy_body in Hrun. cbv zeta in Hrun.
    destruct (node_at (files w) (path_key src)) as [[ts cs|ts]|es] eqn:Hs.
    + repeat case_match; first [discriminate | inversion Hrun; subst; auto].
    + destruct (node_at (files w) (path_key dst)) as [[td cd|td]|ed] eqn:Hd.
      * injection Hrun as <- <-. cbn [log files set_files].
        assert (Hne : path_key src <> path_key dst) by congruence.
        split; [reflexivity|]. split.
        -- apply lookup_delete_ne. congruence.
        -- intros k Hk. apply lookup_delete_ne. congruence.
      * injection Hrun as <- <-. auto.
      * repeat case_match; first [discriminate | inversion Hrun; subst; auto].
    + injection Hrun as <- <-. auto.
Qed.

(** X23. When the copy of moveTo fails (the source is missing or a
    directory, the destination is a directory, the environment fails the
    call), moveTo is rejected with INVALID_MODIFICATION_ERR, the same as
    copyTo, and the remove step is not started: the copy is the only native
    call.  The source is as before, and so is every path but the
    destination, which a copy that fails in its course removes. *)
Theorem moveTo_failed_copy_keeps_source {pf : Platform}
    (w w1 : World) (src d n : string) (e : Errno) :
  valid_path src ->
  valid_path (d +:+ n) ->
  native_copyFile src (d +:+ n) w = (Err e, w1) ->
  exists w',
    moveTo [JStr src; JStr d; JStr n] w
    = (Rejected (FileErr FileError.INVALID_MODIFICATION_ERR), w') /\
    (copyTo [JStr src; JStr d; JStr n] w).1
    = Rejected (FileErr FileError.INVALID_MODIFICATION_ERR) /\
    files w' = files w1 /\
    files w' !! path_key src = files w !! path_key src /\
    (forall k, k <> path_key (d +:+ n) -> files w' !! k = files w !! k) /\
    log w' = log w ++ [EvCall (SysCopyFile src (d +:+ n)) (Some e);
                       EvSettle (Rejected (FileErr FileError.INVALID_MODIFICATION_ERR));
                       EvSettle (Rejected (FileErr FileError.INVALID_MODIFICATION_ERR))].
Proof.
  intros Hvsrc Hvdst Hcopy.
  destruct (native_copyFile_failed _ _ _ _ _ Hcopy) as (Hlog & Hsrc & Hrest).
  assert (Hc : copyTo [JStr src; JStr d; JStr n] w
               = (Rejected (FileErr FileError.INVALID_MODIFICATION_ERR),
                  record (EvSettle (Rejected (FileErr FileError.INVALID_MODIFICATION_ERR)))
                         w1)).
  { unfold copyTo. flat_args. unfold valid_path in Hvsrc, Hvdst. rewrite Hvsrc, Hvdst.
    unfold bind. rewrite Hcopy. reflexivity. }
  eexists. split; [|split].
  - unfold moveTo. cbn [getArgs JS.arg nth]. unfold bind. rewrite Hc. reflexivity.
  - rewrite Hc. reflexivity.
  - cbn [files log record]. split; [reflexivity|]. split; [exact Hsrc|].
    split; [exact Hrest|]. rewrite Hlog, <- !app_assoc. reflexivity.
Qed.

Lemma moveTo_failed_copy_keeps_source_witness :
  let w := Demo.world Demo.fs0 in
  let w1 := logged (SysCopyFile "/d" "/f") (Some EISDIR)
                   (set_files (delete ["f"] Demo.fs0) w) in
  exists w',
    moveTo (pf := Demo.posix) [JStr "/d"; JStr "/"; JStr "f"] w
    = (Rejected (FileErr FileError.INVALID_MODIFICATION_ERR), w') /\
    (copyTo (pf := Demo.posix) [JStr "/d"; JStr "/"; JStr "f"] w).1
    = Rejected (FileErr FileError.INVALID_MODIFICATION_ERR) /\
    files w' = files w1 /\
    files w' !! path_key "/d" = files w !! path_key "/d" /\
    (forall k, k <> path_key ("/" +:+ "f") -> files w' !! k = files w !! k) /\
    log w' = log w ++ [EvCall (SysCopyFile "/d" ("/" +:+ "f")) (Some EISDIR);
                       EvSettle (Rejected (FileErr FileError.INVALID_MODIFICATION_ERR));
                       EvSettle (Rejected (FileErr FileError.INVALID_MODIFICATION_ERR))].
Proof.
  intros w w1.
  apply (moveTo_failed_copy_keeps_source (pf := Demo.posix) w w1 "/d" "/" "f" EISDIR).
  - reflexivity.
  - reflexivity.
  - vm_compute. reflexivity.
Defined.

(** *** resolveLocalFileSystemURI *)

Lemma index_skip (needle : string) (c : ascii) (s : string) :
  String.prefix needle (String c s) = false ->
  String.index 0 needle (String c s) = option_map S (String.index 0 needle s).
Proof. intros H. cbn [String.index]. rewrite H. destruct (String.index 0 needle s); reflexivity. Qed.

Lemma index_found (needle : string) (c : ascii) (s : string) :
  String.prefix needle (String c s) = true ->
  String.index 0 needle (String c s) = Some 0%nat.
Proof. intros H. cbn [String.index]. rewrite H. reflexivity. Qed.

Lemma trim_start_cons (c : ascii) (s : string) :
  JS.is_space c = false -> JS.trim_start (String c s) = String c s.
Proof. intros H. cbn [JS.trim_start]. rewrite H. reflexivity. Qed.

Lemma trim_end_cons (c : ascii) (s : string) :
  JS.is_space c = false -> JS.trim_end (String c s) = String c (JS.trim_end s).
Proof.
  intros H. cbn [JS.trim_end]. destruct (JS.trim_end s); [rewrite H|]; reflexivity.
Qed.

Lemma append_cons (c : ascii) (s r : string) : String c s +:+ r = String c (s +:+ r).
Proof. reflexivity. Qed.

Lemma append_empty (r : string) : "" +:+ r = r.
Proof. reflexivity. Qed.

Lemma substring_none (s : string) : String.substring 0 0 s = "".
Proof. destruct s; reflexivity. Qed.

Ltac spell := rewrite ?append_cons, ?append_empty.

(** Walks [String.index] over the characters that are known. *)
Ltac scan_index :=
  unfold JS.contains, JS.indexOf; spell;
  repeat (rewrite index_skip by reflexivity);
  try (rewrite index_found by reflexivity).

Ltac scan_scheme :=
  spell; unfold JS.trim;
  rewrite trim_start_cons by reflexivity;
  do 7 (rewrite trim_end_cons by reflexivity);
  unfold JS.substr_to; cbn [String.substring];
  rewrite substring_none; reflexivity.

(** A path that is not symbolic and has no escape is probed as it is. *)
Lemma resolve_bare {pf : Platform} (w : World) (p : string) :
  JS.contains "%5" p = false ->
  JS.contains "%20" p = false ->
  String.eqb (JS.substr_to 7 (JS.trim p)) "cdvfile" = false ->
  resolveLocalFileSystemURI [JStr p] w = probe p w.
Proof.
  intros H5 H20 Hscheme. unfold resolveLocalFileSystemURI.
  cbn [getArgs JS.arg nth JS.to_string]. rewrite H5, H20. cbn [orb].
  rewrite Hscheme. reflexivity.
Qed.

Lemma probe_result (w w1 : World) (p : string) (r : res Stats) :
  valid_path p ->
  native_stat p w = (r, w1) ->
  probe p w = (probed p r, record (EvSettle (probed p r)) w1).
Proof.
  intros Hvalid Hstat. unfold probe, with_path.
  unfold valid_path in Hvalid. rewrite Hvalid.
  unfold bind. rewrite Hstat.
  destruct r as [stats|e]; [cbn [probed]; destruct (st_isDirectory stats)|]; reflexivity.
Qed.

(** X24. A path that is not symbolic and holds no escape: the resolver
    probes it as it is given.  A probe that fails, for whatever reason, gives
    NOT_FOUND_ERR; a directory gives a directory entry and anything else a
    file entry, with the path as it was given as full path (nothing is
    appended to the path of a directory). *)
Theorem resolve_native_path {pf : Platform} (w w1 : World) (p : string) (r : res Stats) :
  JS.contains "%5" p = false ->
  JS.contains "%20" p = false ->
  String.eqb (JS.substr_to 7 (JS.trim p)) "cdvfile" = false ->
  valid_path p ->
  native_stat p w = (r, w1) ->
  resolveLocalFileSystemURI [JStr p] w = (probed p r, record (EvSettle (probed p r)) w1) /\
  files w1 = files w.
Proof.
  intros H5 H20 Hscheme Hvalid Hstat. split.
  - rewrite (resolve_bare w p H5 H20 Hscheme). apply probe_result; assumption.
  - apply native_stat_world in Hstat. subst w1. reflexivity.
Qed.

Lemma resolve_native_path_witness :
  let w := Demo.world Demo.fs0 in
  resolveLocalFileSystemURI (pf := Demo.posix) [JStr "/d"] w
  = (probed "/d" (Ok (stats_of (NDir 0))),
     record (EvSettle (probed "/d" (Ok (stats_of (NDir 0))))) (logged (SysStat "/d") None w)) /\
  files (logged (SysStat "/d") None w) = files w.
Proof.
  intros w.
  apply (resolve_native_path (pf := Demo.posix) w (logged (SysStat "/d") None w) "/d"
           (Ok (stats_of (NDir 0)))).
  - reflexivity.
  - reflexivity.
  - reflexivity.
  - reflexivity.
  - vm_compute. reflexivity.
Defined.

(** The branch that a symbolic URI takes, from where the three class words
    first occur in it. *)
Lemma resolve_symbolic {pf : Platform} (w : World) (uri : string) (ia ip it : option nat) :
  JS.contains "%5" uri = false ->
  JS.contains "%20" uri = false ->
  JS.substr_to 7 (JS.trim uri) = "cdvfile" ->
  JS.indexOf "cdvfile://localhost" uri = Some 0%nat ->
  JS.indexOf "application" uri = ia ->
  JS.indexOf "persistent" uri = ip ->
  JS.indexOf "temporary" uri = it ->
  resolveLocalFileSystemURI [JStr uri] w
  = match ia, ip, it with
    | Some i, _, _ => probe (applicationDirectory +:+ JS.substr_from (i + 12) uri) w
    | None, Some i, _ => probe (dataDirectory +:+ JS.substr_from (i + 11) uri) w
    | None, None, Some i => probe (tempDirectory +:+ JS.substr_from (i + 10) uri) w
    | None, None, None => reject FileError.ENCODING_ERR w
    end.
Proof.
  intros H5 H20 Hscheme Hhost Ha Hp Ht. unfold resolveLocalFileSystemURI.
  cbn [getArgs JS.arg nth JS.to_string]. rewrite H5, H20. cbn [orb].
  rewrite Hscheme, String.eqb_refl, Hhost, Ha, Hp, Ht.
  destruct ia, ip, it; reflexivity.
Qed.

Lemma contains_index (needle s : string) :
  JS.contains needle s = false -> String.index 0 needle s = None.
Proof.
  unfold JS.contains, JS.indexOf. destruct (String.index 0 needle s); [discriminate | reflexivity].
Qed.

Ltac scan_rest H := scan_index; rewrite H; reflexivity.

(** X25. The three storage classes.  A URI cdvfile://localhost/CLASS/REST
    without escapes is answered like the probe of ROOT followed by REST,
    where ROOT is the application directory for the class application, the
    data directory for persistent and the temp directory for temporary;
    for persistent REST must not hold the word application, for temporary
    neither that nor the word persistent. *)
Theorem symbolic_uri_resolves_below_its_root {pf : Platform} :
  (forall (w w1 : World) (rest : string) (r : res Stats),
     JS.contains "%5" rest = false ->
     JS.contains "%20" rest = false ->
     valid_path (applicationDirectory +:+ rest) ->
     native_stat (applicationDirectory +:+ rest) w = (r, w1) ->
     resolveLocalFileSystemURI [JStr ("cdvfile://localhost/application/" +:+ rest)] w
     = (probed (applicationDirectory +:+ rest) r,
        record (EvSettle (probed (applicationDirectory +:+ rest) r)) w1))
  /\
  (forall (w w1 : World) (rest : string) (r : res Stats),
     JS.contains "%5" rest = false ->
     JS.contains "%20" rest = false ->
     JS.contains "application" rest = false ->
     valid_path (dataDirectory +:+ rest) ->
     native_stat (dataDirectory +:+ rest) w = (r, w1) ->
     resolveLocalFileSystemURI [JStr ("cdvfile://localhost/persistent/" +:+ rest)] w
     = (probed (dataDirectory +:+ rest) r,
        record (EvSettle (probed (dataDirectory +:+ rest) r)) w1))
  /\
  (forall (w w1 : World) (rest : string) (r : res Stats),
     JS.contains "%5" rest = false ->
     JS.contains "%20" rest = false ->
     JS.contains "application" rest = false ->
     JS.contains "persistent" rest = false ->
     valid_path (tempDirectory +:+ rest) ->
     native_stat (tempDirectory +:+ rest) w = (r, w1) ->
     resolveLocalFileSystemURI [JStr ("cdvfile://localhost/temporary/" +:+ rest)] w
     = (probed (tempDirectory +:+ rest) r,
        record (EvSettle (probed (tempDirectory +:+ rest) r)) w1)).
Proof.
  split; [|split].
  - intros w w1 rest r H5 H20 Hvalid Hstat.
    apply contains_index in H5, H20.
    rewrite (resolve_symbolic w _ (Some 20%nat)
               (JS.indexOf "persistent" ("cdvfile://localhost/application/" +:+ rest))
               (JS.indexOf "temporary" ("cdvfile://localhost/application/" +:+ rest))).
    + spell. cbn [Nat.add JS.substr_from]. apply probe_result; assumption.
    + scan_rest H5.
    + scan_rest H20.
    + scan_scheme.
    + scan_index. reflexivity.
    + scan_index. reflexivity.
    + reflexivity.
    + reflexivity.
  - intros w w1 rest r H5 H20 Ha Hvalid Hstat.
    apply contains_index in H5, H20, Ha.
    rewrite (resolve_symbolic w _ None (Some 20%nat)
               (JS.indexOf "temporary" ("cdvfile://localhost/persistent/" +:+ rest))).
    + spell. cbn [Nat.add JS.substr_from]. apply probe_result; assumption.
    + scan_rest H5.
    + scan_rest H20.
    + scan_scheme.
    + scan_index. reflexivity.
    + scan_rest Ha.
    + scan_index. reflexivity.
    + reflexivity.
  - intros w w1 rest r H5 H20 Ha Hp Hvalid Hstat.
    apply contains_index in H5, H20, Ha, Hp.
    rewrite (resolve_symbolic w _ None None (Some 20%nat)).
    + spell. cbn [Nat.add JS.substr_from]. apply probe_result; assumption.
    + scan_rest H5.
    + scan_rest H20.
    + scan_scheme.
    + scan_index. reflexivity.
    + scan_rest Ha.
    + scan_rest Hp.
    + scan_index. reflexivity.
Qed.

Lemma symbolic_uri_resolves_below_its_root_witness :
  let w := Demo.world Demo.fs0 in
  resolveLocalFileSystemURI (pf := Demo.posix) [JStr ("cdvfile://localhost/application/" +:+ "x.txt")] w
  = (probed ("/opt/app/" +:+ "x.txt") (Err ENOENT),
     record (EvSettle (probed ("/opt/app/" +:+ "x.txt") (Err ENOENT)))
            (logged (SysStat "/opt/app/x.txt") (Some ENOENT) w))
  /\
  resolveLocalFileSystemURI (pf := Demo.posix) [JStr ("cdvfile://localhost/persistent/" +:+ "x.txt")] w
  = (probed ("/home/u/.config/app/" +:+ "x.txt") (Err ENOENT),
     record (EvSettle (probed ("/home/u/.config/app/" +:+ "x.txt") (Err ENOENT)))
            (logged (SysStat "/home/u/.config/app/x.txt") (Some ENOENT) w))
  /\
  resolveLocalFileSystemURI (pf := Demo.posix) [JStr ("cdvfile://localhost/temporary/" +:+ "x.txt")] w
  = (probed ("/tmp/" +:+ "x.txt") (Err ENOENT),
     record (EvSettle (probed ("/tmp/" +:+ "x.txt") (Err ENOENT)))
            (logged (SysStat "/tmp/x.txt") (Some ENOENT) w)).
Proof.
  intros w.
  pose proof (symbolic_uri_resolves_below_its_root (pf := Demo.posix)) as (Ha & Hp & Ht).
  split; [|split].
  - apply (Ha w _ "x.txt" (Err ENOENT)); first [reflexivity | vm_compute; reflexivity].
  - apply (Hp w _ "x.txt" (Err ENOENT)); first [reflexivity | vm_compute; reflexivity].
  - apply (Ht w _ "x.txt" (Err ENOENT)); first [reflexivity | vm_compute; reflexivity].
Defined.

(** X26. The class word application wins wherever it stands.  A URI
    cdvfile://localhost/persistent/REST whose REST holds the word
    application is not answered below the data directory: it is answered
    like the probe of the application directory followed by what comes
    twelve characters after the first occurrence of the word in REST. *)
Theorem application_word_in_rest_wins {pf : Platform}
    (w w1 : World) (rest : string) (i : nat) (r : res Stats) :
  JS.contains "%5" rest = false ->
  JS.contains "%20" rest = false ->
  JS.indexOf "application" rest = Some i ->
  valid_path (applicationDirectory +:+ JS.substr_from (i + 12) rest) ->
  native_stat (applicationDirectory +:+ JS.substr_from (i + 12) rest) w = (r, w1) ->
  resolveLocalFileSystemURI [JStr ("cdvfile://localhost/persistent/" +:+ rest)] w
  = (probed (applicationDirectory +:+ JS.substr_from (i + 12) rest) r,
     record (EvSettle (probed (applicationDirectory +:+ JS.substr_from (i + 12) rest) r)) w1).
Proof.
  intros H5 H20 Ha Hvalid Hstat.
  apply contains_index in H5, H20. unfold JS.indexOf in Ha.
  rewrite (resolve_symbolic w _ (Some (31 + i)%nat) (Some 20%nat)
             (JS.indexOf "temporary" ("cdvfile://localhost/persistent/" +:+ rest))).
  - spell. cbn [Nat.add JS.substr_from]. apply probe_result; assumption.
  - scan_rest H5.
  - scan_rest H20.
  - scan_scheme.
  - scan_index. reflexivity.
  - scan_rest Ha.
  - scan_index. reflexivity.
  - reflexivity.
Qed.

Lemma application_word_in_rest_wins_witness :
  let w := Demo.world Demo.fs0 in
  resolveLocalFileSystemURI (pf := Demo.posix)
    [JStr ("cdvfile://localhost/persistent/" +:+ "my-application-notes.txt")] w
  = (probed ("/opt/app/" +:+ "notes.txt") (Err ENOENT),
     record (EvSettle (probed ("/opt/app/" +:+ "notes.txt") (Err ENOENT)))
            (logged (SysStat "/opt/app/notes.txt") (Some ENOENT) w)).
Proof.
  intros w.
  apply (application_word_in_rest_wins (pf := Demo.posix) w _ "my-application-notes.txt" 3
           (Err ENOENT)); first [reflexivity | vm_compute; reflexivity].
Defined.

(** X27. Arguments that the resolver cannot use make it throw instead of
    returning a promise, and nothing is probed: a TypeError for a URI that is
    not a string (an absent one, for instance) and whose string form holds no
    escape, a URIError for a URI with an escape that decodeURI refuses. *)
Theorem resolve_throws_synchronously {pf : Platform} :
  (forall (w : World) (args : list jsval),
     (forall s, JS.arg 0 (getArgs args) <> JStr s) ->
     JS.contains "%5" (JS.to_string (JS.arg 0 (getArgs args))) = false ->
     JS.contains "%20" (JS.to_string (JS.arg 0 (getArgs args))) = false ->
     resolveLocalFileSystemURI args w = (Threw TypeErr, w))
  /\
  (forall (w : World) (args : list jsval),
     JS.contains "%5" (JS.to_string (JS.arg 0 (getArgs args)))
     || JS.contains "%20" (JS.to_string (JS.arg 0 (getArgs args))) = true ->
     decodeURI (JS.to_string (JS.arg 0 (getArgs args))) = None ->
     resolveLocalFileSystemURI args w = (Threw URIErr, w)).
Proof.
  split.
  - intros w args Hnot H5 H20. unfold resolveLocalFileSystemURI.
    rewrite H5, H20. cbn [orb].
    destruct (JS.arg 0 (getArgs args)); try reflexivity.
    exfalso. eapply Hnot. reflexivity.
  - intros w args Hesc Hdec. unfold resolveLocalFileSystemURI.
    rewrite Hesc, Hdec. reflexivity.
Qed.

Lemma resolve_throws_synchronously_witness :
  let w := Demo.world Demo.fs0 in
  resolveLocalFileSystemURI (pf := Demo.posix) [] w = (Threw TypeErr, w) /\
  resolveLocalFileSystemURI (pf := Demo.posix) [JStr "/a%5"] w = (Threw URIErr, w).
Proof.
  intros w.
  pose proof (resolve_throws_synchronously (pf := Demo.posix)) as (Ht & Hu).
  split.
  - apply (Ht w []).
    + intros s. discriminate.
    + reflexivity.
    + reflexivity.
  - apply (Hu w [JStr "/a%5"]).
    + reflexivity.
    + reflexivity.
Defined.

(** *** Paths: parent and child *)

Lemma append_assoc (a b c : string) : (a +:+ b) +:+ c = a +:+ (b +:+ c).
Proof. induction a as [|x a IH]; [reflexivity|]. rewrite !append_cons, IH. reflexivity. Qed.

Lemma append_empty_r (a : string) : a +:+ "" = a.
Proof. induction a as [|x a IH]; [reflexivity|]. rewrite append_cons, IH. reflexivity. Qed.

Lemma segments_nonempty (cur s : string) : segments cur s <> [].
Proof.
  revert cur. induction s as [|c r IH]; intros cur; cbn [segments]; [discriminate|].
  destruct (Ascii.eqb c "/"); [discriminate | apply IH].
Qed.

Lemma segments_app (cur s1 s2 : string) :
  segments cur (s1 +:+ s2)
  = removelast (segments cur s1) ++ segments (List.last (segments cur s1) "") s2.
Proof.
  revert cur. induction s1 as [|c r IH]; intros cur; [reflexivity|].
  rewrite append_cons. cbn [segments].
  destruct (Ascii.eqb c "/").
  - rewrite IH. pose proof (segments_nonempty "" r) as Hne.
    destruct (segments "" r) as [|x l]; [congruence|]. reflexivity.
  - apply IH.
Qed.

Lemma segments_no_slash (cur n : string) :
  has_slash n = false -> segments cur n = [cur +:+ n].
Proof.
  revert cur. induction n as [|c r IH]; intros cur Hn.
  - cbn. rewrite append_empty_r. reflexivity.
  - cbn [has_slash] in Hn. apply orb_false_iff in Hn as [Hc Hr].
    cbn [segments]. unfold is_slash in Hc. rewrite Hc, (IH _ Hr), append_assoc. reflexivity.
Qed.

(** The segments of a path that ends with a separator. *)
Lemma segments_sep (s : string) : segments "" (s +:+ "/") = segments "" s ++ [""].
Proof.
  rewrite segments_app. cbn [segments Ascii.eqb Bool.eqb].
  pose proof (segments_nonempty "" s) as Hne.
  rewrite (app_removelast_last "" Hne) at 3.
  rewrite <- app_assoc. reflexivity.
Qed.

Lemma segments_child (d n : string) :
  has_slash n = false ->
  segments "" ((d +:+ "/") +:+ n) = segments "" d ++ [n].
Proof.
  intros Hn. rewrite segments_app, segments_sep, removelast_last, last_last.
  rewrite (segments_no_slash _ _ Hn). reflexivity.
Qed.

Lemma plain_name_inv (n : string) :
  plain_name n = true ->
  has_slash n = false /\ String.eqb n "" = false /\
  String.eqb n "." = false /\ String.eqb n ".." = false.
Proof.
  unfold plain_name. rewrite !andb_true_iff, !negb_true_iff. tauto.
Qed.

Lemma path_key_sep (s : string) : path_key (s +:+ "/") = path_key s.
Proof. unfold path_key. rewrite segments_sep, fold_left_app. reflexivity. Qed.

Lemma path_key_child (d n : string) :
  plain_name n = true ->
  path_key ((d +:+ "/") +:+ n) = path_key d ++ [n].
Proof.
  intros Hn. apply plain_name_inv in Hn as (Hs & He & Hd & Hdd).
  unfold path_key. rewrite (segments_child _ _ Hs), fold_left_app.
  cbn [fold_left]. rewrite He, Hd, Hdd. reflexivity.
Qed.

Lemma basename_child (d n : string) :
  has_slash n = false -> String.eqb n "" = false ->
  basename ((d +:+ "/") +:+ n) = n.
Proof.
  intros Hs He. unfold basename.
  rewrite (segments_child _ _ Hs), List.filter_app. cbn [List.filter].
  rewrite He. cbn [negb]. apply last_last.
Qed.

(** *** nodePath.dirname *)

Lemma list_ascii_of_string_app (a b : string) :
  list_ascii_of_string (a +:+ b) = list_ascii_of_string a ++ list_ascii_of_string b.
Proof.
  induction a as [|x a IH]; [reflexivity|].
  rewrite append_cons. cbn [list_ascii_of_string]. rewrite IH. reflexivity.
Qed.

Lemma has_slash_forall (n : string) :
  has_slash n = false ->
  Forall (fun c => is_slash c = false) (list_ascii_of_string n).
Proof.
  induction n as [|c r IH]; intros Hn; cbn [list_ascii_of_string]; [constructor|].
  cbn [has_slash] in Hn. apply orb_false_iff in Hn as [Hc Hr].
  constructor; [exact Hc | apply IH, Hr].
Qed.

Lemma skip_while_all (f : ascii -> bool) (l1 l2 : list ascii) :
  Forall (fun c => f c = true) l1 ->
  skip_while f (l1 ++ l2) = skip_while f l2.
Proof.
  induction 1 as [|c l Hc _ IH]; [reflexivity|].
  cbn [app skip_while]. rewrite Hc. exact IH.
Qed.

Lemma skip_while_stop (f : ascii -> bool) (c : ascii) (l : list ascii) :
  f c = false -> skip_while f (c :: l) = c :: l.
Proof. intros Hc. cbn [skip_while]. rewrite Hc. reflexivity. Qed.

(** The scan of dirname over a path whose last segment is [n]: what is
    left is the separator before [n] and what precedes it, reversed. *)
Lemma dirname_scan (before n : string) :
  has_slash n = false -> String.eqb n "" = false ->
  skip_while (fun c => negb (is_slash c))
    (skip_while is_slash (rev (list_ascii_of_string (before +:+ "/" +:+ n))))
  = "/"%char :: rev (list_ascii_of_string before).
Proof.
  intros Hs He.
  rewrite !list_ascii_of_string_app, !rev_app_distr. cbn [list_ascii_of_string rev app].
  pose proof (has_slash_forall _ Hs) as Hall.
  assert (Hrev : Forall (fun c => is_slash c = false) (rev (list_ascii_of_string n))).
  { apply List.Forall_rev, Hall. }
  assert (Hne : rev (list_ascii_of_string n) <> []).
  { destruct n; [discriminate|]. cbn [list_ascii_of_string rev].
    intros Habs. apply app_eq_nil in Habs as [_ Habs]. discriminate. }
  destruct (rev (list_ascii_of_string n)) as [|c l] eqn:Hl; [congruence|].
  inversion Hrev as [|? ? Hc Hrest]; subst.
  rewrite <- app_assoc. cbn [app]. rewrite (skip_while_stop _ _ _ Hc).
  change (c :: l ++ "/"%char :: rev (list_ascii_of_string before))
    with ((c :: l) ++ "/"%char :: rev (list_ascii_of_string before)).
  rewrite skip_while_all.
  - apply skip_while_stop. reflexivity.
  - constructor; [rewrite Hc; reflexivity|].
    eapply Forall_impl; [exact Hrest|]. cbn. intros a Ha. rewrite Ha. reflexivity.
Qed.

Lemma dirname_child (p n : string) :
  has_slash n = false -> String.eqb n "" = false ->
  p <> "" -> p <> "/" ->
  dirname (p +:+ "/" +:+ n) = p.
Proof.
  intros Hs He Hp Hroot.
  destruct p as [|c0 p']; [congruence|].
  rewrite append_cons. unfold dirname.
  rewrite (dirname_scan p' n Hs He).
  cbn [length]. rewrite rev_involutive, string_of_list_ascii_of_string.
  destruct (is_slash c0) eqn:Hc0; [|reflexivity].
  destruct p' as [|c1 p'']; [|cbn [list_ascii_of_string rev]].
  - exfalso. apply Hroot. unfold is_slash in Hc0. apply Ascii.eqb_eq in Hc0. subst. reflexivity.
  - rewrite length_app, Nat.add_comm. reflexivity.
Qed.

Lemma dirname_top (n : string) :
  has_slash n = false -> dirname ("/" +:+ n) = "/".
Proof.
  intros Hs. rewrite append_cons, append_empty. unfold dirname.
  pose proof (has_slash_forall _ Hs) as Hall.
  assert (Hrev : Forall (fun c => is_slash c = false) (rev (list_ascii_of_string n))).
  { apply List.Forall_rev, Hall. }
  assert (Hscan : skip_while (fun c => negb (is_slash c))
                    (skip_while is_slash (rev (list_ascii_of_string n))) = []).
  { destruct (rev (list_ascii_of_string n)) as [|c l] eqn:Hl; [reflexivity|].
    inversion Hrev as [|? ? Hc Hrest]; subst.
    rewrite (skip_while_stop _ _ _ Hc).
    rewrite <- (app_nil_r (c :: l)). rewrite skip_while_all; [reflexivity|].
    constructor; [rewrite Hc; reflexivity|].
    eapply Forall_impl; [exact Hrest|]. cbn. intros a Ha. rewrite Ha. reflexivity. }
  rewrite Hscan. reflexivity.
Qed.

(** *** getParent *)

(** X28. getParent of a path P/M/N, where M and N are single names and P is
    not empty and not "/": when P/M is found by the probe and is not a file,
    getParent resolves with the directory entry named M whose full path is
    P/M.  Whether P/M/N itself exists is not looked at.  getParent of a path
    /N directly below the root resolves with an entry whose name is empty
    and whose full path is "//". *)
Theorem getParent_finds_the_directory {pf : Platform} :
  (forall (w : World) (p m n : string) (stats : Stats),
     p <> "" -> p <> "/" ->
     has_slash m = false -> String.eqb m "" = false ->
     has_slash n = false -> String.eqb n "" = false ->
     valid_path (p +:+ "/" +:+ m) ->
     probe_finds w (p +:+ "/" +:+ m) stats ->
     st_isFile stats = false ->
     getParent [JStr ((p +:+ "/" +:+ m) +:+ "/" +:+ n)] w
     = (Resolved (DirectoryEntry m (p +:+ "/" +:+ m)),
        record (EvSettle (Resolved (DirectoryEntry m (p +:+ "/" +:+ m))))
               (logged (SysStat (p +:+ "/" +:+ m)) None w)))
  /\
  (forall (w : World) (n : string),
     has_slash n = false ->
     inject w (clock w) (SysStat "//") = None ->
     getParent [JStr ("/" +:+ n)] w
     = (Resolved (DirectoryEntry "" "//"),
        record (EvSettle (Resolved (DirectoryEntry "" "//")))
               (logged (SysStat "//") None w))).
Proof.
  split.
  - intros w p m n stats Hp Hroot Hm Hme Hn Hne Hvalid Hprobe Hkind.
    assert (Hq : p +:+ "/" +:+ m <> "" /\ p +:+ "/" +:+ m <> "/").
    { destruct p as [|c0 p']; [congruence|]. rewrite append_cons.
      split; [discriminate|]. intros [= _ Habs].
      destruct p'; discriminate Habs. }
    destruct Hq as [Hq Hqroot].
    unfold getParent. cbn [getArgs JS.arg nth].
    rewrite (dirname_child _ n Hn Hne Hq Hqroot).
    rewrite (dirname_child p m Hm Hme Hp Hroot).
    rewrite <- (append_assoc p "/" m), (basename_child p m Hm Hme).
    unfold getDirectory, with_path. flat_args. unfold sep.
    rewrite <- (append_assoc p "/" m) in Hvalid, Hprobe.
    unfold valid_path in Hvalid. rewrite Hvalid.
    unfold bind. rewrite (native_stat_finds _ _ _ Hprobe).
    cbn [err_not_ENOENT no_err JS.prop JS.assoc String.eqb Ascii.eqb Bool.eqb
           JS.is_true JS.truthy andb negb isFile].
    rewrite Hkind, (basename_child p m Hm Hme). reflexivity.
  - intros w n Hn Hinj.
    unfold getParent. cbn [getArgs JS.arg nth].
    rewrite (dirname_top n Hn).
    unfold getDirectory, with_path, bind.
    change (dirname "/") with "/". change (basename "/") with "".
    change (JS.add (JS.arg 0 (getArgs [JStr ("/" +:+ sep); JStr ""; JObj [("create", JBool false)]]))
                   (JS.arg 1 (getArgs [JStr ("/" +:+ sep); JStr ""; JObj [("create", JBool false)]])))
      with (JStr "//").
    change (as_path (JStr "//")) with (Some "//"). cbv beta iota.
    rewrite (native_stat_calm _ _ Hinj).
    change (path_key "//") with (@nil string). reflexivity.
Qed.

Lemma getParent_finds_the_directory_witness :
  let w := Demo.world fs1 in
  getParent (pf := Demo.posix) [JStr (("/d" +:+ "/" +:+ "sub") +:+ "/" +:+ "b")] w
  = (Resolved (DirectoryEntry "sub" ("/d" +:+ "/" +:+ "sub")),
     record (EvSettle (Resolved (DirectoryEntry "sub" ("/d" +:+ "/" +:+ "sub"))))
            (logged (SysStat ("/d" +:+ "/" +:+ "sub")) None w))
  /\
  getParent (pf := Demo.posix) [JStr ("/" +:+ "f")] w
  = (Resolved (DirectoryEntry "" "//"),
     record (EvSettle (Resolved (DirectoryEntry "" "//"))) (logged (SysStat "//") None w)).
Proof.
  intros w.
  pose proof (getParent_finds_the_directory (pf := Demo.posix)) as (Hnested & Htop).
  split.
  - apply (Hnested w "/d" "sub" "b" (stats_of (NDir 0))); try reflexivity; try discriminate.
    split; [reflexivity | exists (NDir 0); split; [vm_compute; reflexivity | reflexivity]].
  - apply (Htop w "f"); reflexivity.
Defined.

(** *** readEntries *)

Lemma child_name_spec (k k' : list string) (n : string) :
  child_name k k' = Some n <-> k' = k ++ [n].
Proof.
  revert k'. induction k as [|a r IH]; intros k'.
  - destruct k' as [|b [|c l]]; cbn; split; congruence.
  - destruct k' as [|b r']; cbn [child_name app].
    + split; discriminate.
    + destruct (String.eqb a b) eqn:Hab.
      * apply String.eqb_eq in Hab. subst b. rewrite IH. split; congruence.
      * apply String.eqb_neq in Hab. split; [discriminate | congruence].
Qed.

Lemma children_spec (fs : gmap (list string) Node) (k : list string) (d : Dirent) :
  d ∈ children fs k <->
  exists n node, fs !! (k ++ [n]) = Some node /\ d = dirent_of n node.
Proof.
  unfold children. rewrite list_elem_of_omap. split.
  - intros ([k' node] & Hin & Hd). apply elem_of_map_to_list in Hin.
    cbn [fst snd] in Hd. destruct (child_name k k') as [n|] eqn:Hn; [|discriminate].
    apply child_name_spec in Hn. subst k'. injection Hd as <-. eauto.
  - intros (n & node & Hl & ->). exists (k ++ [n], node). split.
    + apply elem_of_map_to_list, Hl.
    + cbn [fst snd]. rewrite (proj2 (child_name_spec k (k ++ [n]) n) eq_refl). reflexivity.
Qed.

Lemma keys_plain_spec (fs : gmap (list string) Node) (k : list string) (node : Node) :
  keys_plain fs = true -> fs !! k = Some node -> forallb plain_name k = true.
Proof.
  unfold keys_plain. rewrite forallb_forall. intros Hall Hl.
  apply (Hall (k, node)). apply list_elem_of_In, elem_of_map_to_list, Hl.
Qed.

(** X29. readEntries of a directory whose path is given with the separator
    at its end, in files whose keys are plain names: it resolves with an
    entry for each child of the directory and for nothing else.  For a child
    that is a file or a directory, the entry says which of the two it is,
    and its full path is the path of the directory followed by the name of
    the child, and by a separator when the child is a directory; that path
    denotes the child.  For a child of another kind (a symbolic link, a
    FIFO, a socket) isFile and isDirectory are both false and no separator
    is added.  The native URL repeats the full path, and the file system
    name is always "temporary". *)
Theorem readEntries_lists_the_children (w : World) (d : string) (t : Z)
    (others : list string) :
  valid_path (d +:+ "/") ->
  node_at (files w) (path_key d) = Ok (NDir t) ->
  keys_plain (files w) = true ->
  exists entries,
    readEntries None others [JStr (d +:+ "/")] w = (Listed entries, tick w) /\
    (forall e, e ∈ entries ->
       ((exists node,
           files w !! (path_key d ++ [le_name e]) = Some node /\
           path_key (le_fullPath e) = path_key d ++ [le_name e] /\
           le_fullPath e
           = (d +:+ "/") +:+ le_name e +:+ (if is_dir node then "/" else "") /\
           le_isDirectory e = is_dir node /\
           le_isFile e = is_file node)
        \/
        (le_name e ∈ others /\
         le_fullPath e = (d +:+ "/") +:+ le_name e /\
         le_isDirectory e = false /\
         le_isFile e = false)) /\
       le_nativeURL e = le_fullPath e /\
       le_filesystemName e = "temporary") /\
    (forall name node,
       files w !! (path_key d ++ [name]) = Some node ->
       exists e, e ∈ entries /\ le_name e = name) /\
    (forall name,
       name ∈ others ->
       exists e, e ∈ entries /\ le_name e = name /\
                 le_isDirectory e = false /\ le_isFile e = false).
Proof.
  intros Hvalid Hnode Hplain.
  exists (map (listing_entry (d +:+ "/"))
              (children (files w) (path_key d) ++ map other_dirent others)).
  split; [|split; [|split]].
  - unfold readEntries. cbn [getArgs JS.arg nth].
    unfold valid_path in Hvalid. rewrite Hvalid.
    unfold bind, native_readdir, ret. rewrite path_key_sep, Hnode. reflexivity.
  - intros e He. apply list_elem_of_fmap in He as (dd & -> & Hdd).
    apply elem_of_app in Hdd as [Hdd | Hdd].
    + apply children_spec in Hdd as (n & node & Hl & ->).
      assert (Hn : plain_name n = true).
      { pose proof (keys_plain_spec _ _ _ Hplain Hl) as Hk.
        rewrite forallb_app in Hk. apply andb_true_iff in Hk as [_ Hk].
        cbn in Hk. rewrite andb_true_r in Hk. exact Hk. }
      split; [left; exists node|].
      * destruct node as [tf c|td]; cbn [dirent_of listing_entry le_name le_fullPath
          le_isDirectory le_isFile d_name d_isDirectory d_isFile is_dir is_file].
        -- rewrite append_empty_r. repeat split; try assumption.
           apply path_key_child, Hn.
        -- unfold sep. rewrite <- append_assoc. repeat split; try assumption.
           rewrite path_key_sep. apply path_key_child, Hn.
      * destruct node; split; reflexivity.
    + apply list_elem_of_fmap in Hdd as (n & -> & Hn).
      split; [right|split; reflexivity].
      cbn [other_dirent listing_entry le_name le_fullPath le_isDirectory le_isFile
             d_name d_isDirectory d_isFile].
      repeat split. exact Hn.
  - intros name node Hl.
    exists (listing_entry (d +:+ "/") (dirent_of name node)). split.
    + apply list_elem_of_fmap. eexists. split; [reflexivity|].
      apply elem_of_app. left. apply children_spec. eauto.
    + destruct node; reflexivity.
  - intros name Hn.
    exists (listing_entry (d +:+ "/") (other_dirent name)). split.
    + apply list_elem_of_fmap. eexists. split; [reflexivity|].
      apply elem_of_app. right. apply list_elem_of_fmap. eauto.
    + repeat split.
Qed.

Lemma readEntries_lists_the_children_witness :
  let w := Demo.world fs1 in
  let others := ["lnk"] in
  exists entries,
    readEntries None others [JStr ("/d/sub" +:+ "/")] w = (Listed entries, tick w) /\
    (forall e, e ∈ entries ->
       ((exists node,
           files w !! (path_key "/d/sub" ++ [le_name e]) = Some node /\
           path_key (le_fullPath e) = path_key "/d/sub" ++ [le_name e] /\
           le_fullPath e
           = ("/d/sub" +:+ "/") +:+ le_name e +:+ (if is_dir node then "/" else "") /\
           le_isDirectory e = is_dir node /\
           le_isFile e = is_file node)
        \/
        (le_name e ∈ others /\
         le_fullPath e = ("/d/sub" +:+ "/") +:+ le_name e /\
         le_isDirectory e = false /\
         le_isFile e = false)) /\
       le_nativeURL e = le_fullPath e /\
       le_filesystemName e = "temporary") /\
    (forall name node,
       files w !! (path_key "/d/sub" ++ [name]) = Some node ->
       exists e, e ∈ entries /\ le_name e = name) /\
    (forall name,
       name ∈ others ->
       exists e, e ∈ entries /\ le_name e = name /\
                 le_isDirectory e = false /\ le_isFile e = false).
Proof.
  intros w others.
  apply (readEntries_lists_the_children w "/d/sub" 0 others).
  - reflexivity.
  - vm_compute. reflexivity.
  - vm_compute. reflexivity.
Defined.

(** *** getFileMetadata and getMetadata *)

(** X30. The metadata of a file are its modification time and the length of
    its content: getFileMetadata resolves with a File of the base name, the
    path, an empty type, that time and that size, and getMetadata with the
    time and the size.  A probe that fails, for whatever reason, ends both
    with NOT_FOUND_ERR.  Neither changes the files. *)
Theorem metadata_of_a_file :
  (forall (w : World) (p : string) (t : Z) (c : list Byte.byte),
     valid_path p ->
     inject w (clock w) (SysStat p) = None ->
     node_at (files w) (path_key p) = Ok (NFile t c) ->
     getFileMetadata [JStr p] w
     = (Resolved (JSFile (basename p) p "" t (Z.of_nat (length c))),
        record (EvSettle (Resolved (JSFile (basename p) p "" t (Z.of_nat (length c)))))
               (logged (SysStat p) None w))
     /\
     getMetadata [JStr p] w
     = (Resolved (VMetadata t (Z.of_nat (length c))),
        record (EvSettle (Resolved (VMetadata t (Z.of_nat (length c)))))
               (logged (SysStat p) None w)))
  /\
  (forall (w w1 : World) (p : string) (e : Errno),
     valid_path p ->
     native_stat p w = (Err e, w1) ->
     getFileMetadata [JStr p] w
     = (Rejected (FileErr FileError.NOT_FOUND_ERR),
        record (EvSettle (Rejected (FileErr FileError.NOT_FOUND_ERR))) w1)
     /\
     getMetadata [JStr p] w
     = (Rejected (FileErr FileError.NOT_FOUND_ERR),
        record (EvSettle (Rejected (FileErr FileError.NOT_FOUND_ERR))) w1)
     /\ files w1 = files w).
Proof.
  split.
  - intros w p t c Hvalid Hinj Hnode. unfold valid_path in Hvalid.
    split.
    + unfold getFileMetadata, with_path. cbn [getArgs JS.arg nth].
      rewrite Hvalid. unfold bind. rewrite (native_stat_calm _ _ Hinj), Hnode.
      reflexivity.
    + unfold getMetadata, with_path. cbn [JS.arg nth].
      rewrite Hvalid. unfold bind. rewrite (native_stat_calm _ _ Hinj), Hnode.
      reflexivity.
  - intros w w1 p e Hvalid Hstat. unfold valid_path in Hvalid.
    split; [|split].
    + unfold getFileMetadata, with_path. cbn [getArgs JS.arg nth].
      rewrite Hvalid. unfold bind. rewrite Hstat. reflexivity.
    + unfold getMetadata, with_path. cbn [JS.arg nth].
      rewrite Hvalid. unfold bind. rewrite Hstat. reflexivity.
    + apply native_stat_world in Hstat. subst. reflexivity.
Qed.

Lemma metadata_of_a_file_witness :
  let w := Demo.world Demo.fs0 in
  let wd := Demo.world_denying Demo.fs0
              (fun c => match c with SysStat _ => true | _ => false end) in
  (getFileMetadata [JStr "/d/a"] w
   = (Resolved (JSFile "a" "/d/a" "" 0 5),
      record (EvSettle (Resolved (JSFile "a" "/d/a" "" 0 5)))
             (logged (SysStat "/d/a") None w))
   /\
   getMetadata [JStr "/d/a"] w
   = (Resolved (VMetadata 0 5),
      record (EvSettle (Resolved (VMetadata 0 5)))
             (logged (SysStat "/d/a") None w)))
  /\
  (getFileMetadata [JStr "/d/a"] wd
   = (Rejected (FileErr FileError.NOT_FOUND_ERR),
      record (EvSettle (Rejected (FileErr FileError.NOT_FOUND_ERR)))
             (snd (native_stat "/d/a" wd)))
   /\
   getMetadata [JStr "/d/a"] wd
   = (Rejected (FileErr FileError.NOT_FOUND_ERR),
      record (EvSettle (Rejected (FileErr FileError.NOT_FOUND_ERR)))
             (snd (native_stat "/d/a" wd)))
   /\ files (snd (native_stat "/d/a" wd)) = files wd).
Proof.
  intros w wd. destruct metadata_of_a_file as [H1 H2]. split.
  - apply (H1 w "/d/a" 0 (Demo.bytes "hello")).
    + reflexivity.
    + reflexivity.
    + vm_compute. reflexivity.
  - apply (H2 wd (snd (native_stat "/d/a" wd)) "/d/a" EACCES).
    + reflexivity.
    + vm_compute. reflexivity.
Defined.
